(** * EmotionalTextureAnalyzer: the scoring pipeline, batches and profiles

    A shallow embedding of [emotionaltextureanalyzer.py]: the pattern
    registry, the scorer ([analyze]), the aggregator ([analyze_messages])
    and the profile tracker ([EmotionalProfile], [add_to_profile]), followed
    by the properties of the specification that concern them. The command
    line, the formatters and the database scan are not modelled.

    Conventions of the embedding.
    - A Python [str] is a [string] whose characters are read as the code
      points U+0000..U+00FF; the character classes of [str.split] and of
      the [re] module ([\s], [\b], IGNORECASE) are the Unicode ones on that
      range.
    - A Python [float] is a binary64 value: [Fin k] is the finite double
      [k * 2^-1074] (every finite double is such a multiple), and every
      operation rounds its exact result to the nearest double, ties to even.
      The two zeros are not told apart (Python compares them equal).
      [sum] adds from left to right.
    - [datetime.now().isoformat()] reads a clock that belongs to the world
      the analyzer runs in; the world also holds [self.profiles].
    - A [dict] whose order of insertion is observable is an association
      list; [self.profiles] is a [gmap]; [list(set(matches))] is a [gset],
      which leaves the order of that list open.
    - The signature string is kept as the list of entries it renders. *)

From Stdlib Require Import ZArith NArith Lia Ascii String SpecFloat Sorted.
From stdpp Require Import base option list strings gmap.

(** ** Binary64 arithmetic *)

Inductive float : Type :=
| Fin (k : Z)
| PInf
| NInf
| NaN.

(** [rhe a b]: the integer nearest to the rational [a / b] ([0 < b]), ties
    to the even one. *)
Definition rhe (a b : Z) : Z :=
  let q := (a / b)%Z in
  let r := (a mod b)%Z in
  if (2 * r <? b)%Z then q
  else if (b <? 2 * r)%Z then (q + 1)%Z
  else if Z.even q then q else (q + 1)%Z.

(** The spacing of the doubles around [q * 2^-1074], as a power of two of
    the unit [2^-1074]: 53 significant bits, and no finer than the unit. *)
Definition quantum (q : Z) : Z := Z.max 0 (Z.log2 q - 52).

(** [rnd_int n d]: the rational [n / d] ([0 <= n], [0 < d]) rounded to 53
    significant bits, in units of [2^-1074], before the range check. *)
Definition rnd_int (n d : Z) : Z :=
  let N := (n * 2 ^ 1074)%Z in
  let g := quantum (N / d) in
  (rhe N (d * 2 ^ g) * 2 ^ g)%Z.

Definition rnd_pos (n d : Z) : float :=
  let k := rnd_int n d in
  if (k <? 2 ^ 2098)%Z then Fin k else PInf.

Definition fopp (x : float) : float :=
  match x with
  | Fin k => Fin (- k)
  | PInf => NInf
  | NInf => PInf
  | NaN => NaN
  end.

(** [rnd n d]: the double nearest to [n / d], for [0 < d]. *)
Definition rnd (n d : Z) : float :=
  if (n <? 0)%Z then fopp (rnd_pos (- n) d) else rnd_pos n d.

(** A decimal literal of the source, [lit 12 10] for [1.2], and the
    conversion of a Python [int] (the lengths converted here are below
    [2^63], far inside the range of a double). *)
Definition lit (n d : Z) : float := rnd n d.
Definition of_int (z : Z) : float := rnd z 1.

Definition fsign (x : float) : Z :=
  match x with
  | Fin k => Z.sgn k
  | PInf => 1
  | NInf => (-1)
  | NaN => 0
  end.

Definition inf_of_sign (s : Z) : float :=
  if (s <? 0)%Z then NInf else PInf.

Definition fadd (x y : float) : float :=
  match x, y with
  | NaN, _ | _, NaN => NaN
  | PInf, NInf | NInf, PInf => NaN
  | PInf, _ | _, PInf => PInf
  | NInf, _ | _, NInf => NInf
  | Fin a, Fin b => rnd (a + b) (2 ^ 1074)
  end.

Definition fsub (x y : float) : float := fadd x (fopp y).

Definition fmul (x y : float) : float :=
  match x, y with
  | NaN, _ | _, NaN => NaN
  | Fin a, Fin b => rnd (a * b) (2 ^ 2148)
  | _, _ =>
      if (fsign x * fsign y =? 0)%Z then NaN
      else inf_of_sign (fsign x * fsign y)
  end.

(** IEEE division; Python's [/] raises before it is reached with a zero
    divisor, see [truediv]. *)
Definition fdiv (x y : float) : float :=
  match x, y with
  | NaN, _ | _, NaN => NaN
  | Fin a, Fin b =>
      if (0 <? b)%Z then rnd a b
      else if (b <? 0)%Z then rnd (- a) (- b)
      else if (a =? 0)%Z then NaN else inf_of_sign a
  | Fin _, _ => Fin 0
  | _, Fin b => inf_of_sign (fsign x * (if (b <? 0)%Z then -1 else 1))
  | _, _ => NaN
  end.

(** Python's [x < y] and [x > y] on floats. *)
Definition fltb (x y : float) : bool :=
  match x, y with
  | NaN, _ | _, NaN => false
  | Fin a, Fin b => (a <? b)%Z
  | NInf, NInf => false
  | NInf, _ => true
  | PInf, _ => false
  | Fin _, PInf => true
  | Fin _, NInf => false
  end.

Definition fgtb (x y : float) : bool := fltb y x.

Definition is_zero (x : float) : bool :=
  match x with Fin 0 => true | _ => false end.

(** [round(x, 2)]: the decimal with two places nearest to the exact value
    of [x] (ties to even), then the double nearest to that decimal. *)
Definition round2 (x : float) : float :=
  match x with
  | Fin a => rnd (rhe (a * 100) (2 ^ 1074)) 100
  | _ => x
  end.

(** [sum(values)]: the additions run left to right from the [int] zero. *)
Definition py_sum (l : list float) : float := fold_left fadd l (Fin 0).

(** The two-argument [min] and [max]: the first argument stays unless the
    second is strictly smaller (greater). *)
Definition py_min (a b : float) : float := if fltb b a then b else a.
Definition py_max (a b : float) : float := if fgtb b a then b else a.

(** The value of a float in the Standard Library's [spec_float], to set the
    operations above against [SFadd], [SFmul] and [SFdiv]. *)
Definition to_spec (x : float) : spec_float :=
  match x with
  | Fin 0 => S754_zero false
  | Fin k => binary_normalize 53 1024 k (-1074) false
  | PInf => S754_infinity false
  | NInf => S754_infinity true
  | NaN => S754_nan
  end.

(** ** Characters *)

Definition code (c : ascii) : N := N_of_ascii c.

(** [str.isspace], which is also the class [\s] of a [str] pattern. *)
Definition isspace (c : ascii) : bool :=
  let n := code c in
  ((9 <=? n) && (n <=? 13) || (28 <=? n) && (n <=? 32)
   || (n =? 133) || (n =? 160))%N.

Definition isalnum (c : ascii) : bool :=
  let n := code c in
  ((48 <=? n) && (n <=? 57) || (65 <=? n) && (n <=? 90)
   || (97 <=? n) && (n <=? 122)
   || (n =? 170) || (n =? 178) || (n =? 179) || (n =? 181)
   || (n =? 185) || (n =? 186) || (188 <=? n) && (n <=? 190)
   || (192 <=? n) && (n <=? 214) || (216 <=? n) && (n <=? 246)
   || (248 <=? n))%N.

(** The word characters that [\b] separates from the others. *)
Definition isword (c : ascii) : bool := isalnum c || (code c =? 95)%N.

Definition lower (c : ascii) : ascii :=
  let n := code c in
  if ((65 <=? n) && (n <=? 90) || (192 <=? n) && (n <=? 214)
      || (216 <=? n) && (n <=? 222))%N
  then ascii_of_N (n + 32) else c.

Definition ascii_eqb (a b : ascii) : bool := (code a =? code b)%N.

(** [text.split()]: the maximal runs of characters that are not spaces. *)
Fixpoint split_at (l cur : list ascii) : list string :=
  match l with
  | [] =>
      match cur with
      | [] => []
      | _ => [string_of_list_ascii (rev cur)]
      end
  | c :: l' =>
      if isspace c then
        match cur with
        | [] => split_at l' []
        | _ => string_of_list_ascii (rev cur) :: split_at l' []
        end
      else split_at l' (c :: cur)
  end.

Definition split (text : string) : list string :=
  split_at (list_ascii_of_string text) [].

(** ** Regular expressions

    The part of the [re] syntax the registry uses, compiled with
    [re.IGNORECASE]: literals, [\b], [\s], classes of listed characters,
    groups [(?:...)], alternation, and the greedy [?], [+] and [{n,}]
    (the last two on a single character or class). *)

Inductive charset : Type :=
| CLit (c : ascii)
| CSet (cs : list ascii)
| CSpace.

Inductive regex : Type :=
| REmpty
| RChar (cs : charset)
| RBound
| RSeq (r1 r2 : regex)
| RAlt (r1 r2 : regex)
| ROpt (r : regex)
| RRep (min : nat) (cs : charset).

Definition char_matches (cs : charset) (x : ascii) : bool :=
  match cs with
  | CLit c => ascii_eqb (lower x) (lower c)
  | CSet l => existsb (fun c => ascii_eqb (lower x) (lower c)) l
  | CSpace => isspace x
  end.

(** A position in the subject: the character before it and the text from
    it on. *)
Record cursor : Type := Cursor { prev : option ascii; rest : list ascii }.

Definition at_boundary (st : cursor) : bool :=
  let before := match prev st with Some c => isword c | None => false end in
  let after := match rest st with c :: _ => isword c | [] => false end in
  xorb before after.

(** The ends of a greedy repetition, the longest first. *)
Fixpoint rep_ends (cs : charset) (p : option ascii) (l : list ascii)
    (min : nat) : list cursor :=
  let here := match min with O => [Cursor p l] | S _ => [] end in
  match l with
  | x :: xs =>
      if char_matches cs x
      then rep_ends cs (Some x) xs (pred min) ++ here
      else here
  | [] => here
  end.

(** [rmatch r st]: the positions where a match of [r] from [st] can end,
    in the order in which the backtracking matcher reaches them; the first
    one is the match it reports. *)
Fixpoint rmatch (r : regex) (st : cursor) : list cursor :=
  match r with
  | REmpty => [st]
  | RChar cs =>
      match rest st with
      | x :: xs => if char_matches cs x then [Cursor (Some x) xs] else []
      | [] => []
      end
  | RBound => if at_boundary st then [st] else []
  | RSeq r1 r2 => flat_map (rmatch r2) (rmatch r1 st)
  | RAlt r1 r2 => rmatch r1 st ++ rmatch r2 st
  | ROpt r1 => rmatch r1 st ++ [st]
  | RRep min cs => rep_ends cs (prev st) (rest st) min
  end.

(** [pattern.findall(text)] for a pattern without capturing groups: the
    matched substrings, scanning from the left; after a match the scan
    goes on from its end ([skip] counts the characters of the last match
    still to pass; past an empty match it moves one character on). *)
Fixpoint findall_at (r : regex) (p : option ascii) (l : list ascii)
    (skip : nat) : list string :=
  let found :=
    match skip with
    | S _ => None
    | O =>
        match rmatch r (Cursor p l) with
        | e :: _ => Some (length l - length (rest e))
        | [] => None
        end
    end in
  let here :=
    match found with
    | Some n => [string_of_list_ascii (take n l)]
    | None => []
    end in
  let skip' :=
    match found with
    | Some n => pred n
    | None => pred skip
    end in
  match l with
  | x :: xs => here ++ findall_at r (Some x) xs skip'
  | [] => here
  end.

Definition findall (r : regex) (text : string) : list string :=
  findall_at r None (list_ascii_of_string text) 0.

(** *** [re.compile] *)

Definition is_digit (c : ascii) : bool :=
  let n := code c in ((48 <=? n) && (n <=? 57))%N.

Definition is_meta (c : ascii) : bool :=
  existsb (ascii_eqb c)
    ["."; "^"; "$"; "*"; "+"; "?"; "{"; "}"; "["; "]"; "\"; "|"; "("; ")"]%char.

Fixpoint parse_class (s acc : list ascii) : option (list ascii * list ascii) :=
  match s with
  | "]"%char :: s' =>
      match acc with
      | [] => None
      | _ => Some (rev acc, s')
      end
  | c :: s' =>
      if existsb (ascii_eqb c) ["^"; "-"; "\"; "["]%char then None
      else parse_class s' (c :: acc)
  | [] => None
  end.

Fixpoint parse_nat (s : list ascii) (acc : nat) : nat * list ascii :=
  match s with
  | c :: s' =>
      if is_digit c
      then parse_nat s' (10 * acc + (N.to_nat (code c) - 48))
      else (acc, s)
  | [] => (acc, s)
  end.

Definition parse_quant (a : regex) (s : list ascii)
    : option (regex * list ascii) :=
  match s with
  | "?"%char :: s' => Some (ROpt a, s')
  | "+"%char :: s' =>
      match a with
      | RChar cs => Some (RRep 1 cs, s')
      | _ => None
      end
  | "{"%char :: s' =>
      match a, s' with
      | RChar cs, d :: _ =>
          if is_digit d then
            match parse_nat s' 0 with
            | (n, ","%char :: "}"%char :: s'') => Some (RRep n cs, s'')
            | _ => None
            end
          else None
      | _, _ => None
      end
  | "*"%char :: _ => None
  | _ => Some (a, s)
  end.

Fixpoint parse_alt (fuel : nat) (s : list ascii)
    : option (regex * list ascii) :=
  match fuel with
  | O => None
  | S f =>
      match parse_seq f s with
      | Some (r, "|"%char :: s') =>
          match parse_alt f s' with
          | Some (r2, s'') => Some (RAlt r r2, s'')
          | None => None
          end
      | other => other
      end
  end
with parse_seq (fuel : nat) (s : list ascii)
    : option (regex * list ascii) :=
  match fuel with
  | O => None
  | S f =>
      match s with
      | [] => Some (REmpty, [])
      | "|"%char :: _ => Some (REmpty, s)
      | ")"%char :: _ => Some (REmpty, s)
      | _ =>
          match parse_atom f s with
          | Some (a, s') =>
              match parse_quant a s' with
              | Some (aq, s'') =>
                  match parse_seq f s'' with
                  | Some (REmpty, s3) => Some (aq, s3)
                  | Some (r, s3) => Some (RSeq aq r, s3)
                  | None => None
                  end
              | None => None
              end
          | None => None
          end
      end
  end
with parse_atom (fuel : nat) (s : list ascii)
    : option (regex * list ascii) :=
  match fuel with
  | O => None
  | S f =>
      match s with
      | "\"%char :: "b"%char :: s' => Some (RBound, s')
      | "\"%char :: "s"%char :: s' => Some (RChar CSpace, s')
      | "("%char :: "?"%char :: ":"%char :: s' =>
          match parse_alt f s' with
          | Some (r, ")"%char :: s'') => Some (r, s'')
          | _ => None
          end
      | "["%char :: s' =>
          match parse_class s' [] with
          | Some (cs, s'') => Some (RChar (CSet cs), s'')
          | None => None
          end
      | c :: s' => if is_meta c then None else Some (RChar (CLit c), s')
      | [] => None
      end
  end.

(** [re.compile(p, re.IGNORECASE)]; [None] for a pattern outside the
    syntax above. *)
Definition re_compile (p : string) : option regex :=
  let s := list_ascii_of_string p in
  match parse_alt (3 * length s + 3) s with
  | Some (r, []) => Some r
  | _ => None
  end.

(** ** The pattern registry *)

Record DimensionConfig : Type := {
  description : string;
  patterns : list string;
  weight : float
}.

Definition EMOTIONAL_DIMENSIONS : list (string * DimensionConfig) := [
  ("WARMTH",
   {| description :=
        "Affection, care, tenderness, comfort - the feeling of being cared for or caring for others";
      patterns :=
        ["\bwarm(?:th|ly)?\b"; "\baffection(?:ate)?(?:ly)?\b";
         "\bcare(?:s|d|ful|fully)?\b"; "\btender(?:ness|ly)?\b";
         "\bcomfort(?:ing|able|ed)?\b"; "\bgentle(?:ness|ly)?\b";
         "\bkind(?:ness|ly)?\b"; "\bsoft(?:ness|ly)?\b"; "\bembrace[ds]?\b";
         "\bhug(?:s|ged|ging)?\b"; "\blove[ds]?\b"; "\bcheri(?:sh|shed|shing)\b";
         "\bbrother(?:hood)?\b"; "\bsister(?:hood)?\b"; "\bfamily\b";
         "\bheart(?:felt|warming)?\b"; "\bnurtur(?:e|ed|ing)\b"];
      weight := lit 1 1 |});
  ("RESONANCE",
   {| description :=
        "Connection, alignment, understanding - feeling in sync with others or ideas";
      patterns :=
        ["\breson(?:ance|ate[ds]?|ating)\b"; "\bconnect(?:ion|ed|ing|s)?\b";
         "\balign(?:ment|ed|ing|s)?\b"; "\bsync(?:hron(?:y|ized?|izing))?\b";
         "\bunderstand(?:ing|s)?\b"; "\bharmony\b"; "\battun(?:e|ed|ing|ement)\b";
         "\bvibe[ds]?\b"; "\bwavelength\b"; "\bshared\b"; "\bmutual(?:ly)?\b";
         "\bin tune\b"; "\bsame page\b"; "\bget it\b"; "\bexactly\b";
         "\bthat'?s? (?:it|right)\b"; "\byes[!]+\b"; "\bagreed?\b"];
      weight := lit 1 1 |});
  ("LONGING",
   {| description :=
        "Yearning, desire, aspiration, hope - reaching toward something not yet present";
      patterns :=
        ["\blong(?:ing|ed|s)?\b"; "\byearn(?:ing|ed|s)?\b"; "\bdesire[ds]?\b";
         "\baspir(?:e|ation|ing|ed)\b"; "\bhope(?:ful|fully|s|d|ing)?\b";
         "\bwish(?:es|ed|ing)?\b"; "\bdream(?:s|ed|ing)?\b"; "\bimagine[ds]?\b";
         "\benvision(?:ed|ing|s)?\b"; "\bone day\b"; "\bsomeday\b"; "\bfuture\b";
         "\bif only\b"; "\bi wish\b"; "\bwouldn'?t it be\b"; "\bpossib(?:le|ility)\b"];
      weight := lit 1 1 |});
  ("FEAR",
   {| description :=
        "Anxiety, uncertainty, vulnerability, apprehension - emotional responses to perceived threats";
      patterns :=
        ["\bfear(?:ful|fully|ed|ing|s)?\b"; "\banxi(?:ety|ous|ously)\b";
         "\buncertain(?:ty|ties)?\b"; "\bvulnerab(?:le|ility)\b";
         "\bapprehens(?:ion|ive|ively)\b"; "\bworr(?:y|ied|ying|ies)\b";
         "\bnerv(?:ous|ously|e|es)\b"; "\bscar(?:ed?|y|ier|ing)\b"; "\bafraid\b";
         "\bdread(?:ed|ing|ful)?\b"; "\bterr(?:or|ified|ifying)\b";
         "\buneas(?:y|ily|iness)\b"; "\bdoubt(?:s|ed|ing|ful)?\b"; "\bwhat if\b";
         "\bworst case\b"];
      weight := lit 1 1 |});
  ("PEACE",
   {| description :=
        "Calm, serenity, contentment, acceptance - inner stillness and equanimity";
      patterns :=
        ["\bpeace(?:ful|fully)?\b"; "\bcalm(?:ness|ly|ed|ing)?\b";
         "\bseren(?:e|ity)\b"; "\bcontent(?:ment|ed)?\b"; "\baccept(?:ance|ed|ing)?\b";
         "\bstill(?:ness)?\b"; "\bquiet(?:ness|ly)?\b"; "\brelax(?:ed|ing|ation)?\b";
         "\btranquil(?:ity|ly)?\b"; "\bease\b"; "\brest(?:ful|fully|ed|ing)?\b";
         "\bground(?:ed|ing)?\b"; "\bcenter(?:ed|ing)?\b"; "\bbalance[ds]?\b";
         "\bit'?s? (?:ok(?:ay)?|alright|fine)\b"; "\ball is well\b"];
      weight := lit 1 1 |});
  ("RECOGNITION",
   {| description :=
        "Awareness, realization, acknowledgment, insight - moments of seeing clearly";
      patterns :=
        ["\brecogni(?:ze|tion|zed|zing)\b"; "\bawar(?:e|eness)\b";
         "\breali(?:ze|zation|zed|zing)\b"; "\backnowledge[ds]?\b";
         "\binsight(?:ful|s)?\b"; "\bsee(?:ing)? (?:it|clearly|now)\b";
         "\bunderstand now\b"; "\bfinally (?:get|see|understand)\b"; "\baha\b";
         "\bof course\b"; "\bnow i (?:see|get|understand)\b"; "\bawaken(?:ing|ed)?\b";
         "\bepiphany\b"; "\brevel(?:ation|ed)?\b"; "\bdiscover(?:y|ed|ing|s)?\b";
         "\buncover(?:ed|ing|s)?\b"];
      weight := lit 12 10 |});
  ("BELONGING",
   {| description :=
        "Inclusion, unity, family, togetherness - feeling part of something larger";
      patterns :=
        ["\bbelong(?:ing|s|ed)?\b"; "\binclu(?:de|sion|ded|ding|sive)\b"; "\bunity\b";
         "\btogether(?:ness)?\b"; "\bfamily\b"; "\bteam\b"; "\bwe(?:'re| are)\b";
         "\bour\b"; "\bus\b"; "\bcollective(?:ly)?\b"; "\bcommunity\b"; "\btribe\b";
         "\bbrotherhood\b"; "\bsisterhood\b"; "\bhome\b"; "\bwelcome[ds]?\b";
         "\baccepted\b"; "\bfit(?:ting)? in\b"; "\bpart of\b"; "\bone of us\b";
         "\btogether for all time\b"];
      weight := lit 1 1 |});
  ("JOY",
   {| description :=
        "Happiness, excitement, celebration, gratitude - positive emotional peaks";
      patterns :=
        ["\bjoy(?:ful|fully|ous|ously)?\b"; "\bhapp(?:y|iness|ily)\b";
         "\bexcit(?:ed?|ement|ing)\b"; "\bcelebrat(?:e|ion|ed|ing)\b";
         "\bgrateful(?:ly)?\b"; "\bgratitude\b"; "\bthankful(?:ly)?\b";
         "\bthank(?:s|ed|ing)?\b"; "\bdeligh(?:t|ted|tful|tfully)\b";
         "\bpleas(?:ed?|ure|ant|antly)\b"; "\bwonderful(?:ly)?\b";
         "\bamazing(?:ly)?\b"; "\bfantastic(?:ally)?\b"; "\bawesome\b"; "\b[!]{2,}\b";
         "\byay\b"; "\byes[!]+\b"; "\bwoo(?:hoo)?\b"];
      weight := lit 1 1 |});
  ("CURIOSITY",
   {| description :=
        "Wonder, exploration, interest, questioning - the drive to understand more";
      patterns :=
        ["\bcuriou(?:s|sity|sly)\b"; "\bwonder(?:ing|ful|fully|ed|s)?\b";
         "\bexplor(?:e|ation|ing|ed|er)\b"; "\binterest(?:ed|ing|ingly)?\b";
         "\bquestion(?:s|ed|ing)?\b"; "\bask(?:ed|ing|s)?\b"; "\binquir(?:e|y|ing)\b";
         "\bfascinat(?:ed?|ing|ion)\b"; "\bintrigu(?:ed?|ing)\b"; "\bwhat if\b";
         "\bhow (?:does|do|can|could|would|will)\b";
         "\bwhy (?:does|do|is|are|would|could)\b"; "\bi wonder\b";
         "\blearn(?:ed|ing|s)?\b"; "\bdiscover(?:y|ed|ing|s)?\b"];
      weight := lit 1 1 |});
  ("DETERMINATION",
   {| description :=
        "Resolve, commitment, perseverance, focus - the will to continue and succeed";
      patterns :=
        ["\bdetermin(?:ed?|ation)\b"; "\bresolv(?:e|ed|ing)\b";
         "\bcommit(?:ted|ment|ting)?\b"; "\bpersever(?:e|ance|ed|ing)\b";
         "\bfocus(?:ed|ing)?\b"; "\bdedicate[ds]?\b"; "\bdevotion\b";
         "\bwill(?:power)?\b"; "\bpersist(?:ent|ence|ed|ing)?\b"; "\bkeep going\b";
         "\bnever give up\b"; "\bstay the course\b";
         "\bpush(?:ing)? (?:through|forward|on)\b"; "\bwon'?t stop\b"; "\bmust\b";
         "\bwill do\b"; "\bgoing to\b"; "\blet'?s? do\b"];
      weight := lit 1 1 |})
].

Definition INTENSITY_AMPLIFIERS : list string :=
  ["\bvery\b"; "\bextremely\b"; "\bincredibly\b"; "\bimmensely\b"; "\bdeeply\b";
   "\bprofoundly\b"; "\bintensely\b"; "\boverwhelmingly\b"; "\babsolutely\b";
   "\bcompletely\b"; "\btotally\b"; "\butterly\b"; "\bso\s+(?:much|very)\b"].

Definition INTENSITY_DIMINISHERS : list string :=
  ["\bslightly\b"; "\bsomewhat\b"; "\ba bit\b"; "\ba little\b"; "\bkind of\b";
   "\bsort of\b"; "\bmaybe\b"; "\bperhaps\b"; "\bmildly\b"; "\bfaintly\b"].

(** The analyzer compiles every pattern when it is built ([__init__]). *)
Definition compile_all (ps : list string) : list regex := omap re_compile ps.

Definition _compiled_patterns : list (string * list regex) :=
  map (fun '(dim, config) => (dim, compile_all (patterns config)))
    EMOTIONAL_DIMENSIONS.

Definition _amplifiers : list regex := compile_all INTENSITY_AMPLIFIERS.
Definition _diminishers : list regex := compile_all INTENSITY_DIMINISHERS.

(** ** Python values, records and the world *)

(** The values an untyped argument can hold, as far as the analyzer tells
    them apart; [PyOther b] is an object of any other type (a list, a dict,
    a float), with the truth value [bool] gives it. *)
Inductive pyval : Type :=
| PyNone
| PyBool (b : bool)
| PyInt (z : Z)
| PyStr (s : string)
| PyOther (truth : bool).

(** The truth value of [not v] negated. *)
Definition truthy (v : pyval) : bool :=
  match v with
  | PyNone => false
  | PyBool b => b
  | PyInt z => negb (z =? 0)%Z
  | PyStr s => negb (String.eqb s "")
  | PyOther b => b
  end.

Definition isinstance_str (v : pyval) : bool :=
  match v with PyStr _ => true | _ => false end.

Definition str_of (v : pyval) : string :=
  match v with PyStr s => s | _ => "" end.

(** The result of [analyze]; [sender] and [message_timestamp] are the keys
    [analyze_messages] adds to it. [emotional_signature] holds the entries
    whose [DIM:score] renderings the source joins with a bar. *)
Record Analysis : Type := {
  timestamp : string;
  text_length : nat;
  word_count : nat;
  context : option string;
  dimension_scores : list (string * float);
  dimension_matches : list (string * gset string);
  dominant_emotion : string;
  dominant_score : float;
  overall_intensity : float;
  intensity_level : string;
  intensity_modifier : float;
  emotional_signature : list (string * float);
  sender : option string;
  message_timestamp : option pyval
}.

Record EmotionalProfile : Type := {
  agent_name : string;
  analyses : list Analysis;
  created_at : string;
  last_updated : string
}.

(** A message dict: [None] is a key the dict does not have. The sender,
    when present, is a string; the content and the timestamp are any
    value. *)
Record Message : Type := {
  msg_content : option pyval;
  msg_sender : option string;
  msg_timestamp : option pyval
}.

Record ArcEntry : Type := {
  arc_sender : option string;
  arc_dominant : string;
  arc_intensity : float
}.

Record SenderStats : Type := {
  count : nat;
  avg_intensity : float
}.

Record BatchResult : Type := {
  total_messages : nat;
  analyzed_messages : nat;
  average_scores : list (string * float);
  dominant_overall : string;
  emotional_arc : list ArcEntry;
  by_sender : list (string * SenderStats);
  individual_analyses : list Analysis
}.

(** The world of an analyzer: the clock ([clock w n] is what the [n]-th
    reading of [datetime.now().isoformat()] returns), how many readings
    were taken, and [self.profiles]. *)
Record World : Type := {
  clock : nat -> string;
  ticks : nat;
  profiles : gmap string EmotionalProfile
}.

Inductive exn : Type :=
| ValueError (msg : string)
| ZeroDivisionError
| KeyError (key : string).

Inductive result (A : Type) : Type :=
| Ok (a : A)
| Raise (e : exn).
Arguments Ok {A} a.
Arguments Raise {A} e.

(** Computations that read and change the world and may raise. *)
Definition M (A : Type) : Type := World -> result A * World.

Definition ret {A : Type} (a : A) : M A := fun w => (Ok a, w).

Definition raise {A : Type} (e : exn) : M A := fun w => (Raise e, w).

Definition bind {A B : Type} (m : M A) (k : A -> M B) : M B :=
  fun w =>
    match m w with
    | (Ok a, w') => k a w'
    | (Raise e, w') => (Raise e, w')
    end.

Notation "x <- m ; k" := (bind m (fun x => k))
  (at level 20, m at level 100, k at level 200, only parsing).

Fixpoint mapM {A B : Type} (f : A -> M B) (l : list A) : M (list B) :=
  match l with
  | [] => ret []
  | x :: l' => y <- f x ; ys <- mapM f l' ; ret (y :: ys)
  end.

(** [datetime.now().isoformat()]. *)
Definition now : M string :=
  fun w =>
    (Ok (clock w (ticks w)),
     {| clock := clock w; ticks := S (ticks w); profiles := profiles w |}).

Definition get_profiles : M (gmap string EmotionalProfile) :=
  fun w => (Ok (profiles w), w).

Definition set_profiles (ps : gmap string EmotionalProfile) : M unit :=
  fun w => (Ok tt, {| clock := clock w; ticks := ticks w; profiles := ps |}).

(** Python's [x / y] on floats. *)
Definition truediv (x y : float) : M float :=
  if is_zero y then raise ZeroDivisionError else ret (fdiv x y).

(** [d[key]] and [d.get(key)] on an association list. *)
Definition dict_get {V : Type} (key : string) (d : list (string * V))
    : option V :=
  snd <$> find (fun kv => String.eqb (fst kv) key) d.

Definition dict_item {V : Type} (key : string) (d : list (string * V))
    : M V :=
  match dict_get key d with
  | Some v => ret v
  | None => raise (KeyError key)
  end.

(** [d[key].append(v)] on a [defaultdict(list)]. *)
Fixpoint dict_append {V : Type} (key : string) (v : V)
    (d : list (string * list V)) : list (string * list V) :=
  match d with
  | [] => [(key, [v])]
  | (k, vs) :: d' =>
      if String.eqb k key then (k, vs ++ [v]) :: d'
      else (k, vs) :: dict_append key v d'
  end.

(** [max(d, key=d.get)] over the entries of a dict, in their order: the
    entry kept changes only for a strictly greater value. *)
Fixpoint max_from (best : string * float) (l : list (string * float))
    : string * float :=
  match l with
  | [] => best
  | x :: l' => max_from (if fgtb (snd x) (snd best) then x else best) l'
  end.

Definition max_entry (d : list (string * float)) : M (string * float) :=
  match d with
  | [] => raise (ValueError "max() arg is an empty sequence")
  | x :: l => ret (max_from x l)
  end.

(** [sorted(items, key=lambda x: x[1], reverse=True)]: a stable sort, the
    greater values first. *)
Fixpoint insert_desc (x : string * float) (l : list (string * float))
    : list (string * float) :=
  match l with
  | [] => [x]
  | y :: l' => if fltb (snd x) (snd y) then y :: insert_desc x l' else x :: l
  end.

Definition sorted_desc (l : list (string * float)) : list (string * float) :=
  foldr insert_desc [] l.

(** ** EmotionalProfile *)

(** [EmotionalProfile(agent_name)]. *)
Definition new_profile (name : string) : M EmotionalProfile :=
  t <- now ;
  ret {| agent_name := name; analyses := []; created_at := t;
         last_updated := t |}.

(** [profile.add_analysis(analysis)]; the profile after the call. *)
Definition add_analysis (p : EmotionalProfile) (analysis : Analysis)
    : M EmotionalProfile :=
  t <- now ;
  ret {| agent_name := agent_name p;
         analyses := analyses p ++ [analysis];
         created_at := created_at p;
         last_updated := t |}.

(** ** EmotionalTextureAnalyzer *)

(** [sum(len(p.findall(text)) for p in ps)]. *)
Definition count_matches (ps : list regex) (text : string) : nat :=
  sum_list (map (fun p => length (findall p text)) ps).

Definition _calculate_intensity_modifier (text : string) : float :=
  let amplifier_count := count_matches _amplifiers text in
  let diminisher_count := count_matches _diminishers text in
  let modifier :=
    fsub (fadd (lit 1 1) (fmul (of_int (Z.of_nat amplifier_count)) (lit 1 10)))
         (fmul (of_int (Z.of_nat diminisher_count)) (lit 1 10)) in
  py_max (lit 5 10) (py_min (lit 2 1) modifier).

Definition _get_intensity_level (intensity : float) : string :=
  if fltb intensity (lit 1 1) then "subtle"
  else if fltb intensity (lit 3 1) then "moderate"
  else if fltb intensity (lit 6 1) then "strong"
  else "intense".

Definition _generate_signature (scores : list (string * float))
    : list (string * float) :=
  let sorted_dims := take 3 (sorted_desc scores) in
  List.filter (fun x => fgtb (snd x) (Fin 0)) sorted_dims.

(** One turn of the loop of [analyze] over [self._compiled_patterns]: the
    dimension, its rounded normalized score and its matches. *)
Definition score_dimension (text : string) (entry : string * list regex)
    : M (string * float * list string) :=
  let dim := fst entry in
  let matches := flat_map (fun pattern => findall pattern text) (snd entry) in
  config <- dict_item dim EMOTIONAL_DIMENSIONS ;
  let raw_score := fmul (of_int (Z.of_nat (length matches))) (weight config) in
  let word_count := length (split text) in
  normalized_score <-
    (if (0 <? word_count)%nat then
       q <- truediv raw_score (of_int (Z.of_nat word_count)) ;
       ret (fmul q (of_int 100))
     else ret (Fin 0)) ;
  ret (dim, round2 normalized_score, matches).

(** [analyze(text, context)]. The lower-cased copy of the text that the
    source makes first is never read; the patterns run on the text as it
    is. *)
Definition analyze (text : pyval) (context : option string) : M Analysis :=
  if negb (truthy text) || negb (isinstance_str text) then
    raise (ValueError "Text must be a non-empty string")
  else
    let text := str_of text in
    rows <- mapM (score_dimension text) _compiled_patterns ;
    let dimension_scores := map (fun r => (fst (fst r), snd (fst r))) rows in
    let dimension_matches :=
      map (fun r => (fst (fst r), list_to_set (snd r) : gset string)) rows in
    let intensity_modifier := _calculate_intensity_modifier text in
    let adjusted_scores :=
      map (fun ds => (fst ds, round2 (fmul (snd ds) intensity_modifier)))
        dimension_scores in
    dominant <- max_entry adjusted_scores ;
    mean <- truediv (py_sum (map snd adjusted_scores))
              (of_int (Z.of_nat (length adjusted_scores))) ;
    let overall_intensity := round2 mean in
    let intensity_level := _get_intensity_level overall_intensity in
    t <- now ;
    ret {| timestamp := t;
           text_length := String.length text;
           word_count := length (split text);
           context := context;
           dimension_scores := adjusted_scores;
           dimension_matches := dimension_matches;
           dominant_emotion := fst dominant;
           dominant_score := snd dominant;
           overall_intensity := overall_intensity;
           intensity_level := intensity_level;
           intensity_modifier := round2 intensity_modifier;
           emotional_signature := _generate_signature adjusted_scores;
           sender := None;
           message_timestamp := None |}.

(** [analysis[sender] = ...; analysis[message_timestamp] = ...]. *)
Definition tag_analysis (a : Analysis) (who : string) (ts : pyval)
    : Analysis :=
  {| timestamp := timestamp a;
     text_length := text_length a;
     word_count := word_count a;
     context := context a;
     dimension_scores := dimension_scores a;
     dimension_matches := dimension_matches a;
     dominant_emotion := dominant_emotion a;
     dominant_score := dominant_score a;
     overall_intensity := overall_intensity a;
     intensity_level := intensity_level a;
     intensity_modifier := intensity_modifier a;
     emotional_signature := emotional_signature a;
     sender := Some who;
     message_timestamp := Some ts |}.

(** The first loop of [analyze_messages], with its two accumulators. *)
Fixpoint scan_messages (messages : list Message) (analyses : list Analysis)
    (by_sender : list (string * list Analysis))
    : M (list Analysis * list (string * list Analysis)) :=
  match messages with
  | [] => ret (analyses, by_sender)
  | msg :: messages' =>
      let content := default (PyStr "") (msg_content msg) in
      let sender := default "UNKNOWN" (msg_sender msg) in
      if truthy content then
        a <- analyze content (Some sender) ;
        let analysis :=
          tag_analysis a sender (default (PyStr "unknown") (msg_timestamp msg)) in
        scan_messages messages' (analyses ++ [analysis])
          (dict_append sender analysis by_sender)
      else scan_messages messages' analyses by_sender
  end.

(** [all_scores[dim].append(score)] for every entry of every analysis. *)
Definition collect_scores (analyses : list Analysis)
    : list (string * list float) :=
  fold_left
    (fun acc a =>
       fold_left (fun acc' ds => dict_append (fst ds) (snd ds) acc')
         (dimension_scores a) acc)
    analyses [].

(** [round(sum(xs) / len(xs), 2)]. *)
Definition mean2 (xs : list float) : M float :=
  q <- truediv (py_sum xs) (of_int (Z.of_nat (length xs))) ;
  ret (round2 q).

(** [analyze_messages(messages)]. *)
Definition analyze_messages (messages : list Message) : M BatchResult :=
  match messages with
  | [] => raise (ValueError "Messages list cannot be empty")
  | _ =>
      scanned <- scan_messages messages [] [] ;
      let analyses := fst scanned in
      let by_sender := snd scanned in
      let all_scores := collect_scores analyses in
      avg_scores <-
        mapM (fun e => m <- mean2 (snd e) ; ret (fst e, m)) all_scores ;
      let emotional_arc :=
        map (fun a => {| arc_sender := sender a;
                         arc_dominant := dominant_emotion a;
                         arc_intensity := overall_intensity a |}) analyses in
      dominant_overall <-
        (match avg_scores with
         | [] => ret "UNKNOWN"
         | _ => d <- max_entry avg_scores ; ret (fst d)
         end) ;
      stats <-
        mapM (fun e =>
                avg <-
                  (match snd e with
                   | [] => ret (Fin 0)
                   | _ => mean2 (map overall_intensity (snd e))
                   end) ;
                ret (fst e, {| count := length (snd e);
                               avg_intensity := avg |}))
          by_sender ;
      ret {| total_messages := length messages;
             analyzed_messages := length analyses;
             average_scores := avg_scores;
             dominant_overall := dominant_overall;
             emotional_arc := emotional_arc;
             by_sender := stats;
             individual_analyses := analyses |}
  end.

Definition get_profile (name : string) : M (option EmotionalProfile) :=
  ps <- get_profiles ; ret (ps !! name).

(** [add_to_profile(agent_name, analysis)]; the profile it returns is the
    one stored under the name. *)
Definition add_to_profile (name : string) (analysis : Analysis)
    : M EmotionalProfile :=
  ps <- get_profiles ;
  _ <- (match ps !! name with
        | None =>
            p <- new_profile name ;
            set_profiles (<[name := p]> ps)
        | Some _ => ret tt
        end) ;
  ps <- get_profiles ;
  match ps !! name with
  | None => raise (KeyError name)
  | Some p =>
      p' <- add_analysis p analysis ;
      _ <- set_profiles (<[name := p']> ps) ;
      ret p'
  end.

(** ** The result of [analyze] on a non-empty string

    The record [analyze] builds, as a function of the text, the context and
    the clock reading; [analyze_str] below shows it is what the code
    returns. *)

Definition weight_of (dim : string) : float :=
  match dict_get dim EMOTIONAL_DIMENSIONS with
  | Some config => weight config
  | None => Fin 0
  end.

Definition pure_row (text : string) (entry : string * list regex)
    : string * float * list string :=
  let matches := flat_map (fun pattern => findall pattern text) (snd entry) in
  let raw_score :=
    fmul (of_int (Z.of_nat (length matches))) (weight_of (fst entry)) in
  let word_count := length (split text) in
  let normalized_score :=
    if (0 <? word_count)%nat
    then fmul (fdiv raw_score (of_int (Z.of_nat word_count))) (of_int 100)
    else Fin 0 in
  (fst entry, round2 normalized_score, matches).

Definition adjusted_of (text : string) : list (string * float) :=
  map (fun ds =>
         (fst ds, round2 (fmul (snd ds) (_calculate_intensity_modifier text))))
    (map (fun r => (fst (fst r), snd (fst r)))
       (map (pure_row text) _compiled_patterns)).

Definition dominant_of (d : list (string * float)) : string * float :=
  match d with
  | [] => (""%string, Fin 0)
  | x :: l => max_from x l
  end.

Definition record_of (t text : string) (ctx : option string) : Analysis :=
  let adjusted_scores := adjusted_of text in
  let overall :=
    round2 (fdiv (py_sum (map snd adjusted_scores))
              (of_int (Z.of_nat (length adjusted_scores)))) in
  {| timestamp := t;
     text_length := String.length text;
     word_count := length (split text);
     context := ctx;
     dimension_scores := adjusted_scores;
     dimension_matches :=
       map (fun r => (fst (fst r), list_to_set (snd r) : gset string))
         (map (pure_row text) _compiled_patterns);
     dominant_emotion := fst (dominant_of adjusted_scores);
     dominant_score := snd (dominant_of adjusted_scores);
     overall_intensity := overall;
     intensity_level := _get_intensity_level overall;
     intensity_modifier := round2 (_calculate_intensity_modifier text);
     emotional_signature := _generate_signature adjusted_scores;
     sender := None;
     message_timestamp := None |}.

(** The world after one reading of the clock. *)
Definition tick (w : World) : World :=
  {| clock := clock w; ticks := S (ticks w); profiles := profiles w |}.

#[global] Instance float_eq_dec : EqDecision float.
Proof. solve_decision. Defined.

(** ** Notions used to state the properties *)

Definition REGISTRY_KEYS : list string :=
  ["WARMTH"; "RESONANCE"; "LONGING"; "FEAR"; "PEACE"; "RECOGNITION";
   "BELONGING"; "JOY"; "CURIOSITY"; "DETERMINATION"].

(** A finite float that is not negative. *)
Definition finite_nonneg (x : float) : Prop :=
  exists k, x = Fin k /\ (0 <= k)%Z.

(** The length of a CPython [str] fits a signed 64-bit size. *)
Definition fits_ssize (s : string) : Prop :=
  (Z.of_nat (String.length s) < 2 ^ 63)%Z.

(** [best] is the first entry of [d] that carries the greatest value: the
    entries before it are strictly smaller, none after it is greater. *)
Definition first_maximum (d : list (string * float)) (best : string * float)
    : Prop :=
  exists before after,
    d = before ++ best :: after /\
    Forall (fun e => fltb (snd e) (snd best) = true) before /\
    Forall (fun e => fgtb (snd e) (snd best) = false) after.

(** [a] with its [timestamp] replaced. *)
Definition with_timestamp (t : string) (a : Analysis) : Analysis :=
  {| timestamp := t;
     text_length := text_length a;
     word_count := word_count a;
     context := context a;
     dimension_scores := dimension_scores a;
     dimension_matches := dimension_matches a;
     dominant_emotion := dominant_emotion a;
     dominant_score := dominant_score a;
     overall_intensity := overall_intensity a;
     intensity_level := intensity_level a;
     intensity_modifier := intensity_modifier a;
     emotional_signature := emotional_signature a;
     sender := sender a;
     message_timestamp := message_timestamp a |}.


(** A text with a character that is not a space. *)
Definition has_token (text : string) : bool :=
  existsb (fun c => negb (isspace c)) (list_ascii_of_string text).

(** A world whose clock shows the same instant at every reading, and one
    whose clock moves on between readings. *)
Definition world0 : World :=
  {| clock := fun _ => "2026-01-30T10:00:00"%string;
     ticks := 0;
     profiles := ∅ |}.

Definition world1 : World :=
  {| clock := fun n =>
       match n with
       | O => "2026-01-30T10:00:00.000001"%string
       | S _ => "2026-01-30T10:00:00.000002"%string
       end;
     ticks := 0;
     profiles := ∅ |}.

(** [clamp x lo hi] as the specification writes it. *)
Definition clamp (x lo hi : float) : float :=
  if fltb x lo then lo else if fgtb x hi then hi else x.

(** What [analyze_messages] reads off a message. *)
Definition content_of (m : Message) : pyval :=
  default (PyStr "") (msg_content m).

Definition sender_of (m : Message) : string :=
  default "UNKNOWN"%string (msg_sender m).

Definition has_content (m : Message) : bool := truthy (content_of m).

(** The content of a message is a string, [None] or missing. *)
Definition text_content (m : Message) : Prop :=
  match msg_content m with
  | Some (PyStr _) | Some PyNone | None => True
  | Some _ => False
  end.

(** [a] is the analysis [analyze_messages] stores for the message [m]: what
    [analyze] returns for its content, with the sender as context, tagged
    with the sender and the timestamp of the message. *)
Definition scored_from (m : Message) (a : Analysis) : Prop :=
  exists a0 w0 w0',
    analyze (content_of m) (Some (sender_of m)) w0 = (Ok a0, w0') /\
    a = tag_analysis a0 (sender_of m)
          (default (PyStr "unknown") (msg_timestamp m)).

(** The analyzed messages of a batch that a sender sent. *)
Definition sent_by (who : string) (messages : list Message) : list Message :=
  List.filter (fun m => has_content m && String.eqb (sender_of m) who) messages.

(** ** Notions used in the proofs *)

(** A finite, non-negative float of value at most [2^e]. *)
Definition bounded (x : float) (e : Z) : Prop :=
  exists k, x = Fin k /\ (0 <= k <= 2 ^ e * 2 ^ 1074)%Z.

(** A float of value at least one, possibly the infinite one. *)
Definition at_least_one (y : float) : Prop :=
  (exists b, y = Fin b /\ (2 ^ 1074 <= b)%Z) \/ y = PInf.

(** The registry entry of a dimension is found under its name, with a
    weight of 1.0 or 1.2 and at most 21 patterns. *)
Definition config_ok (d : string * DimensionConfig) : bool :=
  match dict_get (fst d) EMOTIONAL_DIMENSIONS with
  | Some c =>
      (bool_decide (weight c = lit 1 1) || bool_decide (weight c = lit 12 10))
      && (length (patterns (snd d)) <=? 21)%nat
  | None => false
  end.

(** The adjusted score of a dimension, from its weight and the four counts
    it depends on: its matches, the words, the amplifier and the diminisher
    matches. *)
Definition score_of (w : float) (n wc a d : nat) : float :=
  let normalized_score :=
    if (0 <? wc)%nat
    then fmul (fdiv (fmul (of_int (Z.of_nat n)) w) (of_int (Z.of_nat wc)))
           (of_int 100)
    else Fin 0 in
  let modifier :=
    fsub (fadd (lit 1 1) (fmul (of_int (Z.of_nat a)) (lit 1 10)))
         (fmul (of_int (Z.of_nat d)) (lit 1 10)) in
  round2 (fmul (round2 normalized_score)
            (py_max (lit 5 10) (py_min (lit 2 1) modifier))).

(** The four counts of a text for the patterns [ps] of a dimension. *)
Definition counts_of (text : string) (ps : list regex)
    : nat * nat * nat * nat :=
  (length (flat_map (fun pattern => findall pattern text) ps),
   length (split text),
   count_matches _amplifiers text,
   count_matches _diminishers text).

(** The key under which the loop files an analysis in [by_sender]. *)
Definition sender_key (a : Analysis) : string := default ""%string (sender a).

(** The aggregate [analyze_messages] builds from the scanned analyses. *)
Definition batch_of (n : nat) (analyses : list Analysis)
    (by_sender : list (string * list Analysis)) : BatchResult :=
  let avg_scores :=
    map (fun e => (fst e, round2 (fdiv (py_sum (snd e)) (of_int (Z.of_nat (length (snd e)))))))
      (collect_scores analyses) in
  {| total_messages := n;
     analyzed_messages := length analyses;
     average_scores := avg_scores;
     dominant_overall :=
       match avg_scores with
       | [] => "UNKNOWN"%string
       | _ => fst (dominant_of avg_scores)
       end;
     emotional_arc :=
       map (fun a => {| arc_sender := sender a;
                        arc_dominant := dominant_emotion a;
                        arc_intensity := overall_intensity a |}) analyses;
     by_sender :=
       map (fun e =>
              (fst e,
               {| count := length (snd e);
                  avg_intensity :=
                    match snd e with
                    | [] => Fin 0
                    | _ =>
                        round2 (fdiv (py_sum (map overall_intensity (snd e)))
                                  (of_int (Z.of_nat (length (map overall_intensity (snd e))))))
                    end |})) by_sender;
     individual_analyses := analyses |}.

(** ** The statistics of a profile *)

(** [sorted(items, key=..., reverse=True)] for any key: a stable sort, the
    greater keys first; [lt x y] tells that the key of [x] is below the key
    of [y]. *)
Fixpoint insert_by {A : Type} (lt : A -> A -> bool) (x : A) (l : list A)
    : list A :=
  match l with
  | [] => [x]
  | y :: l' => if lt x y then y :: insert_by lt x l' else x :: l
  end.

Definition sorted_by {A : Type} (lt : A -> A -> bool) (l : list A) : list A :=
  foldr (insert_by lt) [] l.

(** [d[key] += 1] on a [defaultdict(int)]. *)
Fixpoint dict_incr (key : string) (d : list (string * nat))
    : list (string * nat) :=
  match d with
  | [] => [(key, 1)]
  | (k, n) :: d' =>
      if String.eqb k key then (k, S n) :: d'
      else (k, n) :: dict_incr key d'
  end.

(** [d[key] += x] on a [defaultdict(float)]. *)
Fixpoint dict_add (key : string) (x : float) (d : list (string * float))
    : list (string * float) :=
  match d with
  | [] => [(key, fadd (Fin 0) x)]
  | (k, t) :: d' =>
      if String.eqb k key then (k, fadd t x) :: d'
      else (k, t) :: dict_add key x d'
  end.

(** A snapshot of [get_emotional_arc]. *)
Record Snapshot : Type := {
  snap_timestamp : string;
  snap_dominant_emotion : string;
  snap_overall_intensity : float;
  snap_dimension_scores : list (string * float)
}.

(** [profile.get_emotional_arc()]. An [Analysis] has each of the four keys
    the snapshot reads, so the defaults of [.get] are not reached. *)
Definition get_emotional_arc (p : EmotionalProfile) : list Snapshot :=
  map (fun analysis =>
         {| snap_timestamp := timestamp analysis;
            snap_dominant_emotion := dominant_emotion analysis;
            snap_overall_intensity := overall_intensity analysis;
            snap_dimension_scores := dimension_scores analysis |})
    (analyses p).

(** [profile.get_dominant_patterns()]. *)
Definition get_dominant_patterns (p : EmotionalProfile) : list (string * nat) :=
  let frequencies :=
    fold_left (fun f analysis => dict_incr (dominant_emotion analysis) f)
      (analyses p) [] in
  sorted_by (fun x y => (snd x <? snd y)%nat) frequencies.

(** The loop of [get_average_profile] over the analyses: the totals and
    the counts. *)
Definition sum_scores (l : list Analysis)
    : list (string * float) * list (string * nat) :=
  fold_left
    (fun acc analysis =>
       fold_left
         (fun acc' ds =>
            (dict_add (fst ds) (snd ds) (fst acc'), dict_incr (fst ds) (snd acc')))
         (dimension_scores analysis) acc)
    l ([], []).

(** [profile.get_average_profile()]; [counts] is a [defaultdict(int)], which
    answers 0 for a key it does not have. *)
Definition get_average_profile (p : EmotionalProfile)
    : M (list (string * float)) :=
  match analyses p with
  | [] => ret []
  | _ =>
      let totals := fst (sum_scores (analyses p)) in
      let counts := snd (sum_scores (analyses p)) in
      averages <-
        mapM (fun e =>
                let n := default 0 (dict_get (fst e) counts) in
                avg <-
                  (if (0 <? n)%nat then
                     q <- truediv (snd e) (of_int (Z.of_nat n)) ;
                     ret (round2 q)
                   else ret (Fin 0)) ;
                ret (fst e, avg))
          totals ;
      ret (sorted_desc averages)
  end.

(** The dict of [to_dict]. *)
Record ProfileDict : Type := {
  pd_agent_name : string;
  pd_created_at : string;
  pd_last_updated : string;
  pd_total_analyses : nat;
  pd_dominant_patterns : list (string * nat);
  pd_average_profile : list (string * float);
  pd_emotional_arc : list Snapshot
}.

(** [profile.to_dict()]. *)
Definition to_dict (p : EmotionalProfile) : M ProfileDict :=
  let dominant_patterns := get_dominant_patterns p in
  average_profile <- get_average_profile p ;
  ret {| pd_agent_name := agent_name p;
         pd_created_at := created_at p;
         pd_last_updated := last_updated p;
         pd_total_analyses := length (analyses p);
         pd_dominant_patterns := dominant_patterns;
         pd_average_profile := average_profile;
         pd_emotional_arc := get_emotional_arc p |}.

(** ** The registry, as the analyzer describes it *)

Definition get_dimension_description (dimension : string) : string :=
  match dict_get dimension EMOTIONAL_DIMENSIONS with
  | Some config => description config
  | None => "Unknown dimension"
  end.

Record DimensionInfo : Type := {
  info_name : string;
  info_description : string
}.

Definition list_dimensions : list DimensionInfo :=
  map (fun e => {| info_name := fst e; info_description := description (snd e) |})
    EMOTIONAL_DIMENSIONS.

(** ** Notions used to state the further properties *)

(** [text.lower()]. *)
Definition str_lower (text : string) : string :=
  string_of_list_ascii (map lower (list_ascii_of_string text)).

(** [m in text]: the string [m] occurs in [text]. *)
Definition occurs_in (m text : string) : Prop :=
  exists before after,
    list_ascii_of_string text = before ++ list_ascii_of_string m ++ after.

(** [x <= y] on floats that are finite. *)
Definition fle (x y : float) : Prop :=
  exists a b, x = Fin a /\ y = Fin b /\ (a <= b)%Z.

(** The entries of a list of scores go from the greatest to the least: no
    entry is below a later one. *)
Definition descending (l : list (string * float)) : Prop :=
  StronglySorted (fun x y => fltb (snd x) (snd y) = false) l.

(** The test of [_generate_signature]: [score > 0]. *)
Definition positive (e : string * float) : bool := fgtb (snd e) (Fin 0).

(** What the scoring gives: an analysis without its timestamp, its context
    and its matches. *)
Definition scoring (a : Analysis) :=
  (text_length a, word_count a, dimension_scores a, dominant_emotion a,
   dominant_score a, overall_intensity a, intensity_level a,
   intensity_modifier a, emotional_signature a).

(** [a["dimension_scores"][dim]], with 0.0 for a dimension that is not
    there. *)
Definition score_at (dim : string) (a : Analysis) : float :=
  default (Fin 0) (dict_get dim (dimension_scores a)).

(** [round(sum(scores) / len(scores), 2)] for the scores of a dimension in
    some analyses: the mean that [analyze_messages] and
    [get_average_profile] compute. *)
Definition mean_score (dim : string) (l : list Analysis) : float :=
  round2 (fdiv (py_sum (map (score_at dim) l)) (of_int (Z.of_nat (length l)))).

(** [dimension_scores] as [analyze] has it before the modifier is applied:
    the scores per 100 words, rounded to two places. *)
Definition normalized_scores (text : string) : list (string * float) :=
  map (fun entry => fst (pure_row text entry)) _compiled_patterns.

(** [len(matches)] for the patterns [ps] of a dimension. *)
Definition match_count (text : string) (ps : list regex) : nat :=
  length (flat_map (fun pattern => findall pattern text) ps).

(** ** Notions used in the further proofs *)

(** A pattern that matches no empty string: every match takes a character
    at least. *)
Fixpoint consumes (r : regex) : bool :=
  match r with
  | RChar _ => true
  | RSeq r1 r2 => consumes r1 || consumes r2
  | RAlt r1 r2 => consumes r1 && consumes r2
  | RRep min _ => (0 <? min)%nat
  | REmpty | RBound | ROpt _ => false
  end.

(** A cursor on the lower-cased subject. *)
Definition lower_cursor (st : cursor) : cursor :=
  Cursor (lower <$> prev st) (map lower (rest st)).

(** [k] units make a double: [k] is in range and a multiple of the spacing
    of the doubles around it. *)
Definition representable (k : Z) : Prop :=
  (0 <= k < 2 ^ 2098)%Z /\ exists c, (0 <= c)%Z /\ k = (c * 2 ^ quantum k)%Z.

(** A float that [round(_, 2)] returned for a finite value that is not
    negative. *)
Definition rounded (x : float) : Prop :=
  exists a k, (0 <= a)%Z /\ round2 (Fin a) = x /\ x = Fin k.

(** Two finite floats in order, neither negative, the greater at most
    [2^e]. *)
Definition below (x y : float) (e : Z) : Prop :=
  exists a b, x = Fin a /\ y = Fin b /\ (0 <= a <= b)%Z /\ (b <= 2 ^ e * 2 ^ 1074)%Z.

(** ** Sample inputs *)

Definition fifteen_amplifiers : string :=
  "very very very very very very very very very very very very very very very".

Definition message (content sender : string) : Message :=
  {| msg_content := Some (PyStr content);
     msg_sender := Some sender;
     msg_timestamp := None |}.

Definition three_messages : list Message :=
  [message "I am so happy!" "FORGE";
   message "This is wonderful news." "CLIO";
   message "I feel grateful." "FORGE"].

Definition sample_analysis : Analysis :=
  record_of "2026-01-30T10:00:00" "happy" None.


Definition number_message : Message :=
  {| msg_content := Some (PyInt 123);
     msg_sender := Some "CLIO";
     msg_timestamp := None |}.

(** The entries of [WARMTH] and of [JOY] in [self._compiled_patterns]. *)
Definition warmth_entry : string * list regex :=
  nth 0 _compiled_patterns (""%string, []).

Definition joy_entry : string * list regex :=
  nth 7 _compiled_patterns (""%string, []).

(** Arithmetic goals are decided with the constant powers of two taken as
    unknowns whenever that is enough. *)
Ltac hide_powers :=
  repeat match goal with
    | |- context [Z.pow 2 (Zpos ?p)] =>
        let x := fresh "pw" in set (x := Z.pow 2 (Zpos p)) in *; clearbody x
    | H : context [Z.pow 2 (Zpos ?p)] |- _ =>
        let x := fresh "pw" in set (x := Z.pow 2 (Zpos p)) in *; clearbody x
    end.
Ltac zlia := first [ solve [hide_powers; lia] | lia ].
Ltac znia := first [ solve [hide_powers; nia] | nia ].

(** * Facts about the binary64 model *)

Section FloatFacts.
Local Open Scope Z_scope.

Lemma rhe_spec a b :
  0 < b ->
  2 * a - b <= 2 * rhe a b * b <= 2 * a + b /\
  (2 * rhe a b * b = 2 * a + b -> Z.even (rhe a b) = true) /\
  (2 * rhe a b * b = 2 * a - b -> Z.even (rhe a b) = true).
Proof.
  intros Hb. unfold rhe.
  pose proof (Z.div_mod a b ltac:(zlia)) as Hdm.
  pose proof (Z.mod_pos_bound a b Hb) as Hr.
  set (q := a / b) in *. set (r := a mod b) in *.
  destruct (Z.ltb_spec (2 * r) b) as [H1|H1].
  - repeat split; znia.
  - destruct (Z.ltb_spec b (2 * r)) as [H2|H2].
    + repeat split; znia.
    + assert (b = 2 * r) by zlia.
      destruct (Z.even q) eqn:Hev.
      * repeat split; try znia; auto.
      * assert (Z.even (q + 1) = true).
        { rewrite Z.even_add, Hev. reflexivity. }
        repeat split; try znia; auto.
Qed.

Lemma rhe_mono a1 b1 a2 b2 :
  0 < b1 -> 0 < b2 -> a1 * b2 <= a2 * b1 -> rhe a1 b1 <= rhe a2 b2.
Proof.
  intros H1 H2 Hle.
  destruct (rhe_spec a1 b1 H1) as ([_ Hu] & Hup & _).
  destruct (rhe_spec a2 b2 H2) as ([Hl _] & _ & Hdn).
  set (m1 := rhe a1 b1) in *. set (m2 := rhe a2 b2) in *.
  destruct (Z_le_gt_dec m1 m2) as [|Hgt]; [assumption|exfalso].
  assert (Hc1 : (2 * m1 - 1) * (b1 * b2) <= 2 * a1 * b2) by znia.
  assert (Hc2 : 2 * a2 * b1 <= (2 * m2 + 1) * (b1 * b2)) by znia.
  assert (Hp : 0 < b1 * b2) by znia.
  assert (Hm : m1 = m2 + 1) by znia.
  assert (He1 : 2 * m1 * b1 = 2 * a1 + b1) by znia.
  assert (He2 : 2 * m2 * b2 = 2 * a2 - b2) by znia.
  specialize (Hup He1). specialize (Hdn He2).
  rewrite Hm, Z.even_add, Hdn in Hup. discriminate.
Qed.

Lemma rhe_exact m b : 0 < b -> rhe (m * b) b = m.
Proof.
  intros Hb. unfold rhe.
  rewrite Z.div_mul by zlia. rewrite Z.mod_mul by zlia.
  destruct (Z.ltb_spec (2 * 0) b); [reflexivity|zlia].
Qed.

Lemma rhe_nonneg a b : 0 <= a -> 0 < b -> 0 <= rhe a b.
Proof.
  intros Ha Hb. rewrite <- (rhe_exact 0 b Hb) at 1.
  apply rhe_mono; zlia.
Qed.

Lemma rhe_le_int a b m : 0 < b -> a <= m * b -> rhe a b <= m.
Proof.
  intros Hb H. rewrite <- (rhe_exact m b Hb). apply rhe_mono; znia.
Qed.

Lemma rhe_ge_int a b m : 0 < b -> m * b <= a -> m <= rhe a b.
Proof.
  intros Hb H. rewrite <- (rhe_exact m b Hb) at 1. apply rhe_mono; znia.
Qed.

Lemma div_lt_inv a b q : 0 < b -> a / b < q -> a < b * q.
Proof.
  intros Hb H. destruct (Z_lt_ge_dec a (b * q)) as [|Hge]; [assumption|exfalso].
  assert (q <= a / b) by (apply Z.div_le_lower_bound; zlia). zlia.
Qed.

Lemma log2_upper q : q < 2 ^ (Z.log2 q + 1).
Proof.
  destruct (Z_lt_le_dec 0 q) as [Hq|Hq].
  - pose proof (Z.log2_spec q Hq). replace (Z.log2 q + 1) with (Z.succ (Z.log2 q)) by zlia. zlia.
  - pose proof (Z.log2_nonneg q).
    assert (0 < 2 ^ (Z.log2 q + 1)) by (apply Z.pow_pos_nonneg; zlia). zlia.
Qed.

Lemma rnd_int_unfold n d :
  rnd_int n d = rhe (n * 2 ^ 1074) (d * 2 ^ quantum (n * 2 ^ 1074 / d)) * 2 ^ quantum (n * 2 ^ 1074 / d).
Proof. reflexivity. Qed.

Lemma rnd_int_upper n d :
  0 < d -> rnd_int n d <= 2 ^ (Z.log2 (n * 2 ^ 1074 / d) + 1).
Proof.
  intros Hd. rewrite rnd_int_unfold.
  set (N := n * 2 ^ 1074). set (q := N / d). unfold quantum.
  set (L := Z.log2 q). set (g := Z.max 0 (L - 52)).
  pose proof (Z.log2_nonneg q) as HL. fold L in HL.
  assert (Hg : 0 <= g <= L) by zlia.
  pose proof (log2_upper q) as Hq. fold L in Hq.
  assert (HN : N < d * 2 ^ (L + 1)) by (apply div_lt_inv; assumption).
  assert (Hpg : 0 < 2 ^ g) by (apply Z.pow_pos_nonneg; zlia).
  assert (Hsplit : 2 ^ (L + 1) = 2 ^ (L + 1 - g) * 2 ^ g).
  { rewrite <- Z.pow_add_r by zlia. f_equal. zlia. }
  assert (rhe N (d * 2 ^ g) <= 2 ^ (L + 1 - g)).
  { apply rhe_le_int; [znia|]. rewrite Hsplit in HN. znia. }
  rewrite Hsplit. znia.
Qed.

Lemma rnd_int_lower n d :
  0 < d -> 0 < n * 2 ^ 1074 / d ->
  2 ^ Z.log2 (n * 2 ^ 1074 / d) <= rnd_int n d.
Proof.
  intros Hd Hq0. rewrite rnd_int_unfold.
  set (N := n * 2 ^ 1074) in *. set (q := N / d) in *. unfold quantum.
  set (L := Z.log2 q). set (g := Z.max 0 (L - 52)).
  pose proof (Z.log2_nonneg q) as HL. fold L in HL.
  assert (Hg : 0 <= g <= L) by zlia.
  pose proof (Z.log2_spec q Hq0) as [Hq _]. fold L in Hq.
  assert (HN : d * q <= N) by (apply Z.mul_div_le; zlia).
  assert (Hpg : 0 < 2 ^ g) by (apply Z.pow_pos_nonneg; zlia).
  assert (Hsplit : 2 ^ L = 2 ^ (L - g) * 2 ^ g).
  { rewrite <- Z.pow_add_r by zlia. f_equal. zlia. }
  assert (2 ^ (L - g) <= rhe N (d * 2 ^ g)).
  { apply rhe_ge_int; [znia|]. rewrite Hsplit in Hq. znia. }
  rewrite Hsplit. znia.
Qed.

Lemma div_mono_cross n1 d1 n2 d2 :
  0 < d1 -> 0 < d2 -> n1 * d2 <= n2 * d1 -> n1 / d1 <= n2 / d2.
Proof.
  intros H1 H2 H. apply Z.div_le_lower_bound; [zlia|].
  pose proof (Z.mul_div_le n1 d1 H1). znia.
Qed.

Lemma rnd_int_mono n1 d1 n2 d2 :
  0 < d1 -> 0 < d2 -> n1 * d2 <= n2 * d1 -> rnd_int n1 d1 <= rnd_int n2 d2.
Proof.
  intros H1 H2 Hle.
  assert (Hu : 0 < 2 ^ 1074) by (apply Z.pow_pos_nonneg; zlia).
  assert (HN : n1 * 2 ^ 1074 * d2 <= n2 * 2 ^ 1074 * d1) by znia.
  pose proof (div_mono_cross _ _ _ _ H1 H2 HN) as Hq.
  pose proof (Z.log2_le_mono _ _ Hq) as HL.
  destruct (Z.eq_dec (quantum (n1 * 2 ^ 1074 / d1)) (quantum (n2 * 2 ^ 1074 / d2))) as [Heq|Hne].
  - rewrite !rnd_int_unfold, Heq.
    set (g := quantum (n2 * 2 ^ 1074 / d2)).
    assert (Hpg : 0 < 2 ^ g) by (apply Z.pow_pos_nonneg; unfold g, quantum; zlia).
    apply Z.mul_le_mono_nonneg_r; [zlia|].
    apply rhe_mono; znia.
  - unfold quantum in Hne.
    assert (Hlt : Z.log2 (n1 * 2 ^ 1074 / d1) < Z.log2 (n2 * 2 ^ 1074 / d2)) by zlia.
    pose proof (Z.log2_nonneg (n1 * 2 ^ 1074 / d1)).
    assert (Hq2 : 0 < n2 * 2 ^ 1074 / d2).
    { destruct (Z_lt_le_dec 0 (n2 * 2 ^ 1074 / d2)); [assumption|].
      rewrite (Z.log2_nonpos (n2 * 2 ^ 1074 / d2)) in Hlt by assumption. zlia. }
    pose proof (rnd_int_upper n1 d1 H1). pose proof (rnd_int_lower n2 d2 H2 Hq2).
    assert (2 ^ (Z.log2 (n1 * 2 ^ 1074 / d1) + 1) <= 2 ^ Z.log2 (n2 * 2 ^ 1074 / d2)).
    { apply Z.pow_le_mono_r; zlia. }
    zlia.
Qed.

Lemma rnd_int_error n d g :
  0 < d -> quantum (n * 2 ^ 1074 / d) <= g ->
  2 * Z.abs (rnd_int n d * d - n * 2 ^ 1074) <= d * 2 ^ g.
Proof.
  intros Hd Hg. rewrite rnd_int_unfold.
  set (N := n * 2 ^ 1074) in *. set (g0 := quantum (N / d)) in *.
  assert (0 <= g0) by (unfold g0, quantum; zlia).
  assert (Hp : 0 < 2 ^ g0) by (apply Z.pow_pos_nonneg; zlia).
  assert (2 ^ g0 <= 2 ^ g) by (apply Z.pow_le_mono_r; zlia).
  destruct (rhe_spec N (d * 2 ^ g0) ltac:(znia)) as [Hb _].
  znia.
Qed.

Lemma rnd_int_exact z j d :
  0 <= z < 2 ^ 53 -> 0 <= j -> 0 < d ->
  rnd_int (z * 2 ^ j * d) d = z * 2 ^ j * 2 ^ 1074.
Proof.
  intros Hz Hj Hd. rewrite rnd_int_unfold.
  assert (Hpj : 0 < 2 ^ j) by (apply Z.pow_pos_nonneg; zlia).
  assert (Hu : 0 < 2 ^ 1074) by (apply Z.pow_pos_nonneg; zlia).
  replace (z * 2 ^ j * d * 2 ^ 1074 / d) with (z * 2 ^ (j + 1074)).
  2:{ replace (z * 2 ^ j * d * 2 ^ 1074) with (z * 2 ^ (j + 1074) * d).
      - rewrite Z.div_mul by zlia. reflexivity.
      - rewrite Z.pow_add_r by zlia. ring. }
  set (g := quantum (z * 2 ^ (j + 1074))).
  assert (Hg : 0 <= g <= j + 1074).
  { unfold g, quantum. destruct (Z.eq_dec z 0) as [->|Hz0]; [simpl; zlia|].
    assert (Z.log2 (z * 2 ^ (j + 1074)) = Z.log2 z + (j + 1074)).
    { rewrite <- Z.shiftl_mul_pow2 by zlia. apply Z.log2_shiftl; zlia. }
    assert (Z.log2 z < 53) by (apply Z.log2_lt_pow2; zlia).
    pose proof (Z.log2_nonneg z). zlia. }
  assert (Hpg : 0 < 2 ^ g) by (apply Z.pow_pos_nonneg; zlia).
  assert (Hs : 2 ^ j * 2 ^ 1074 = 2 ^ (j + 1074 - g) * 2 ^ g).
  { rewrite <- !Z.pow_add_r by zlia. f_equal. zlia. }
  replace (z * 2 ^ j * d * 2 ^ 1074) with (z * 2 ^ (j + 1074 - g) * (d * 2 ^ g)).
  2:{ transitivity (z * d * (2 ^ j * 2 ^ 1074)); [rewrite Hs|]; ring. }
  rewrite rhe_exact by znia.
  transitivity (z * (2 ^ j * 2 ^ 1074)); [rewrite Hs|]; ring.
Qed.

Lemma rnd_int_nonneg n d : 0 <= n -> 0 < d -> 0 <= rnd_int n d.
Proof.
  intros Hn Hd. rewrite rnd_int_unfold.
  set (g := quantum (n * 2 ^ 1074 / d)).
  assert (0 <= g) by (unfold g, quantum; zlia).
  assert (0 < 2 ^ g) by (apply Z.pow_pos_nonneg; zlia).
  assert (0 < 2 ^ 1074) by (apply Z.pow_pos_nonneg; zlia).
  assert (0 <= rhe (n * 2 ^ 1074) (d * 2 ^ g)) by (apply rhe_nonneg; znia).
  znia.
Qed.

Lemma rnd_int_pow2 e : 0 <= e -> rnd_int (2 ^ e) 1 = 2 ^ e * 2 ^ 1074.
Proof.
  intros He.
  pose proof (rnd_int_exact 1 e 1 ltac:(zlia) He ltac:(zlia)) as H.
  replace (1 * 2 ^ e * 1) with (2 ^ e) in H by ring.
  rewrite H. ring.
Qed.

Lemma pow2_lt_top e : 0 <= e <= 1023 -> 2 ^ e * 2 ^ 1074 < 2 ^ 2098.
Proof.
  intros He. rewrite <- Z.pow_add_r by zlia. apply Z.pow_lt_mono_r; zlia.
Qed.

Lemma rnd_bounded n d e :
  0 <= n -> 0 < d -> n <= 2 ^ e * d -> 0 <= e <= 1023 -> bounded (rnd n d) e.
Proof.
  intros Hn Hd Hle He. unfold rnd, rnd_pos.
  destruct (Z.ltb_spec n 0) as [?|_]; [zlia|].
  pose proof (rnd_int_nonneg n d Hn Hd) as H0.
  assert (Hk : rnd_int n d <= 2 ^ e * 2 ^ 1074).
  { rewrite <- rnd_int_pow2 by zlia. apply rnd_int_mono; zlia. }
  pose proof (pow2_lt_top e He).
  destruct (Z.ltb_spec (rnd_int n d) (2 ^ 2098)) as [_|?]; [|zlia].
  exists (rnd_int n d). auto.
Qed.

Lemma bounded_weaken x e e' : bounded x e -> e <= e' -> bounded x e'.
Proof.
  intros (k & -> & Hk) Hle. exists k. split; [reflexivity|].
  assert (2 ^ e <= 2 ^ e').
  { destruct (Z_lt_le_dec e 0).
    - rewrite (Z.pow_neg_r 2 e) by zlia. apply Z.pow_nonneg; zlia.
    - apply Z.pow_le_mono_r; zlia. }
  assert (0 < 2 ^ 1074) by (apply Z.pow_pos_nonneg; zlia). znia.
Qed.

Lemma of_int_bounded z e :
  0 <= z <= 2 ^ e -> 0 <= e <= 1023 -> bounded (of_int z) e.
Proof. intros Hz He. apply rnd_bounded; zlia. Qed.

Lemma fmul_bounded x y a b :
  bounded x a -> bounded y b -> 0 <= a -> 0 <= b -> a + b <= 1023 ->
  bounded (fmul x y) (a + b).
Proof.
  intros (k1 & -> & H1) (k2 & -> & H2) Ha Hb Hab. simpl.
  assert (Hu : 0 < 2 ^ 1074) by (apply Z.pow_pos_nonneg; zlia).
  assert (Hpa : 0 < 2 ^ a) by (apply Z.pow_pos_nonneg; zlia).
  assert (Hpb : 0 < 2 ^ b) by (apply Z.pow_pos_nonneg; zlia).
  apply rnd_bounded; [znia | apply Z.pow_pos_nonneg; zlia | | zlia].
  replace (2 ^ 2148) with (2 ^ 1074 * 2 ^ 1074) by (rewrite <- Z.pow_add_r by zlia; reflexivity).
  rewrite Z.pow_add_r by zlia.
  transitivity ((2 ^ a * 2 ^ 1074) * (2 ^ b * 2 ^ 1074)); [|zlia].
  apply Z.mul_le_mono_nonneg; zlia.
Qed.

Lemma of_int_at_least_one z : 1 <= z -> at_least_one (of_int z).
Proof.
  intros Hz. unfold at_least_one, of_int, rnd, rnd_pos.
  destruct (Z.ltb_spec z 0) as [?|_]; [zlia|].
  destruct (Z.ltb_spec (rnd_int z 1) (2 ^ 2098)) as [_|_]; [left|right; reflexivity].
  exists (rnd_int z 1). split; [reflexivity|].
  pose proof (rnd_int_pow2 0 ltac:(zlia)) as H1. simpl (2 ^ 0) in H1.
  rewrite Z.mul_1_l in H1. rewrite <- H1. apply rnd_int_mono; zlia.
Qed.

Lemma at_least_one_nonzero y : at_least_one y -> is_zero y = false.
Proof.
  intros [(b & -> & Hb)| ->]; [|reflexivity].
  assert (0 < 2 ^ 1074) by (apply Z.pow_pos_nonneg; zlia).
  destruct b; simpl; try reflexivity; zlia.
Qed.

Lemma fdiv_bounded x y e :
  bounded x e -> at_least_one y -> 0 <= e <= 1023 -> bounded (fdiv x y) e.
Proof.
  intros (a & -> & Ha) [(b & -> & Hb)| ->] He.
  - assert (Hu : 0 < 2 ^ 1074) by (apply Z.pow_pos_nonneg; zlia).
    assert (Hp : 0 < 2 ^ e) by (apply Z.pow_pos_nonneg; zlia).
    simpl. destruct (Z.ltb_spec 0 b) as [_|?]; [|zlia].
    apply rnd_bounded; [zlia | zlia | znia | zlia].
  - simpl. exists 0. split; [reflexivity|].
    assert (0 < 2 ^ 1074) by (apply Z.pow_pos_nonneg; zlia).
    assert (0 < 2 ^ e) by (apply Z.pow_pos_nonneg; zlia). znia.
Qed.

Lemma round2_bounded x e : bounded x e -> 0 <= e <= 1023 -> bounded (round2 x) e.
Proof.
  intros (a & -> & Ha) He. simpl.
  assert (Hu : 0 < 2 ^ 1074) by (apply Z.pow_pos_nonneg; zlia).
  assert (Hp : 0 < 2 ^ e) by (apply Z.pow_pos_nonneg; zlia).
  apply rnd_bounded; [apply rhe_nonneg; zlia | zlia | | zlia].
  apply rhe_le_int; [zlia|]. znia.
Qed.

Lemma fmul_comm x y : fmul x y = fmul y x.
Proof.
  destruct x, y; simpl; try reflexivity.
  - rewrite Z.mul_comm. reflexivity.
  - rewrite Z.mul_comm. reflexivity.
  - rewrite Z.mul_comm. reflexivity.
  - rewrite Z.mul_comm. reflexivity.
  - rewrite Z.mul_comm. reflexivity.
Qed.

End FloatFacts.

Section ModifierFacts.
Local Open Scope Z_scope.

Lemma lit_one : lit 1 1 = Fin (2 ^ 1074).
Proof. vm_compute. reflexivity. Qed.

Lemma lit_two : lit 2 1 = Fin (2 * 2 ^ 1074).
Proof. vm_compute. reflexivity. Qed.

Lemma lit_half : lit 5 10 = Fin (2 ^ 1073).
Proof. vm_compute. reflexivity. Qed.

Lemma lit_tenth : lit 1 10 = Fin (3602879701896397 * 2 ^ 1019).
Proof. vm_compute. reflexivity. Qed.

Lemma of_int_exact z : 0 <= z < 2 ^ 53 -> of_int z = Fin (z * 2 ^ 1074).
Proof.
  intros Hz. unfold of_int, rnd, rnd_pos.
  destruct (Z.ltb_spec z 0) as [?|_]; [zlia|].
  pose proof (rnd_int_exact z 0 1 Hz ltac:(zlia) ltac:(zlia)) as H.
  replace (z * 2 ^ 0 * 1) with z in H by (simpl; ring).
  rewrite H. simpl (2 ^ 0). rewrite Z.mul_1_r.
  assert (z * 2 ^ 1074 < 2 ^ 2098).
  { assert (0 < 2 ^ 1074) by (apply Z.pow_pos_nonneg; zlia).
    replace (2 ^ 2098) with (2 ^ 1024 * 2 ^ 1074) by (rewrite <- Z.pow_add_r by zlia; reflexivity).
    apply Z.mul_lt_mono_pos_r; [zlia|].
    assert (2 ^ 53 < 2 ^ 1024) by (apply Z.pow_lt_mono_r; zlia). zlia. }
  destruct (Z.ltb_spec (z * 2 ^ 1074) (2 ^ 2098)); [reflexivity|zlia].
Qed.

Lemma quantum_le q e : 0 <= e -> q < 2 ^ (e + 53) -> quantum q <= e.
Proof.
  intros He Hq. unfold quantum.
  destruct (Z_lt_le_dec 0 q) as [H0|H0].
  - assert (Z.log2 q < e + 53) by (apply Z.log2_lt_pow2; zlia). zlia.
  - rewrite Z.log2_nonpos by zlia. zlia.
Qed.

(** The rounding error of [rnd_pos] on a value below [2^(e+53)] units is at
    most half of [2^e] units. *)
Lemma rnd_pos_error n d e :
  0 <= n -> 0 < d -> 0 <= e <= 2000 -> n * 2 ^ 1074 < 2 ^ (e + 53) * d ->
  exists k, rnd_pos n d = Fin k /\ 0 <= k /\
            2 * Z.abs (k * d - n * 2 ^ 1074) <= d * 2 ^ e.
Proof.
  intros Hn Hd He Hlt. unfold rnd_pos.
  assert (Hq : n * 2 ^ 1074 / d < 2 ^ (e + 53)).
  { apply Z.div_lt_upper_bound; [zlia | rewrite (Z.mul_comm d); exact Hlt]. }
  pose proof (rnd_int_error n d e Hd (quantum_le _ e (proj1 He) Hq)) as Herr.
  pose proof (rnd_int_nonneg n d Hn Hd) as H0.
  pose proof (rnd_int_upper n d Hd) as Hup.
  assert (Hk : rnd_int n d < 2 ^ 2098).
  { assert (2 ^ (Z.log2 (n * 2 ^ 1074 / d) + 1) <= 2 ^ (e + 53)).
    { apply Z.pow_le_mono_r; [zlia|].
      destruct (Z_lt_le_dec 0 (n * 2 ^ 1074 / d)).
      - assert (Z.log2 (n * 2 ^ 1074 / d) < e + 53) by (apply Z.log2_lt_pow2; zlia). zlia.
      - rewrite Z.log2_nonpos by zlia. zlia. }
    assert (2 ^ (e + 53) < 2 ^ 2098) by (apply Z.pow_lt_mono_r; zlia). zlia. }
  destruct (Z.ltb_spec (rnd_int n d) (2 ^ 2098)); [|zlia].
  exists (rnd_int n d). auto.
Qed.

Lemma scaled_error U k t g :
  0 < U -> 2 * Z.abs (k * U - t * U) <= U * g -> 2 * Z.abs (k - t) <= g.
Proof.
  intros HU H. replace (k * U - t * U) with ((k - t) * U) in H by ring.
  rewrite Z.abs_mul, (Z.abs_eq U) in H by zlia. znia.
Qed.

(** [n * 0.1] for a count [n] below [2^50]: finite, within [2^-7] of
    [n * c], where [c] is the double nearest to one tenth. *)
Lemma tenth_of_count z :
  0 <= z < 2 ^ 50 ->
  exists k, fmul (of_int z) (lit 1 10) = Fin k /\ 0 <= k /\
            Z.abs (k - z * (3602879701896397 * 2 ^ 1019)) <= 2 ^ 1067.
Proof.
  intros Hz.
  rewrite of_int_exact by (split; [zlia|]; assert (2 ^ 50 < 2 ^ 53) by (apply Z.pow_lt_mono_r; zlia); zlia).
  rewrite lit_tenth. unfold fmul, rnd.
  set (c := 3602879701896397 * 2 ^ 1019).
  assert (Hc : 0 < c < 2 ^ 1071).
  { unfold c. split; [apply Z.mul_pos_pos; [zlia | apply Z.pow_pos_nonneg; zlia]|].
    replace (2 ^ 1071) with (2 ^ 52 * 2 ^ 1019) by (rewrite <- Z.pow_add_r by zlia; reflexivity).
    apply Z.mul_lt_mono_pos_r; [apply Z.pow_pos_nonneg; zlia | reflexivity]. }
  clearbody c.
  assert (HU : 0 < 2 ^ 1074) by (apply Z.pow_pos_nonneg; zlia).
  assert (HUU : 2 ^ 2148 = 2 ^ 1074 * 2 ^ 1074) by (rewrite <- Z.pow_add_r by zlia; reflexivity).
  destruct (Z.ltb_spec (z * 2 ^ 1074 * c) 0) as [?|_]; [znia|].
  destruct (rnd_pos_error (z * 2 ^ 1074 * c) (2 ^ 2148) 1068) as (k & Hk & Hk0 & Herr).
  - apply Z.mul_nonneg_nonneg; [apply Z.mul_nonneg_nonneg|]; zlia.
  - apply Z.pow_pos_nonneg; zlia.
  - zlia.
  - rewrite HUU.
    replace (z * 2 ^ 1074 * c * 2 ^ 1074) with (z * c * (2 ^ 1074 * 2 ^ 1074)) by ring.
    apply Z.mul_lt_mono_pos_r; [znia|].
    replace (2 ^ (1068 + 53)) with (2 ^ 50 * 2 ^ 1071) by (rewrite <- Z.pow_add_r by zlia; reflexivity).
    apply Z.le_lt_trans with (z * 2 ^ 1071); [znia|].
    apply Z.mul_lt_mono_pos_r; [apply Z.pow_pos_nonneg|]; zlia.
  - exists k. split; [exact Hk|]. split; [exact Hk0|].
    rewrite HUU in Herr.
    replace (z * 2 ^ 1074 * c * 2 ^ 1074) with (z * c * (2 ^ 1074 * 2 ^ 1074)) in Herr by ring.
    apply scaled_error in Herr; [|znia].
    replace (2 ^ 1068) with (2 * 2 ^ 1067) in Herr by (change 1068 with (Z.succ 1067); rewrite Z.pow_succ_r by zlia; reflexivity).
    zlia.
Qed.

Lemma rnd_not_nan n d : rnd n d <> NaN.
Proof.
  unfold rnd, rnd_pos.
  destruct (n <? 0); [destruct (rnd_int (- n) d <? 2 ^ 2098) | destruct (rnd_int n d <? 2 ^ 2098)];
    discriminate.
Qed.

(** [1.0 + a * 0.1] and [d * 0.1] for counts below [2^50]. *)
Lemma modifier_terms a d :
  0 <= a < 2 ^ 50 -> 0 <= d < 2 ^ 50 ->
  exists ks kd,
    fadd (lit 1 1) (fmul (of_int a) (lit 1 10)) = Fin ks /\
    fmul (of_int d) (lit 1 10) = Fin kd /\
    Z.abs (ks - (2 ^ 1074 + a * (3602879701896397 * 2 ^ 1019))) <= 3 * 2 ^ 1067 /\
    Z.abs (kd - d * (3602879701896397 * 2 ^ 1019)) <= 2 ^ 1067.
Proof.
  intros Ha Hd.
  destruct (tenth_of_count a Ha) as (ka & Hka & Hka0 & Hea).
  destruct (tenth_of_count d Hd) as (kd & Hkd & Hkd0 & Hed).
  rewrite Hka, Hkd, lit_one. unfold fadd, rnd.
  set (c := 3602879701896397 * 2 ^ 1019) in *.
  assert (Hc : 0 < c < 2 ^ 1071).
  { unfold c. split; [apply Z.mul_pos_pos; [zlia | apply Z.pow_pos_nonneg; zlia]|].
    replace (2 ^ 1071) with (2 ^ 52 * 2 ^ 1019) by (rewrite <- Z.pow_add_r by zlia; reflexivity).
    apply Z.mul_lt_mono_pos_r; [apply Z.pow_pos_nonneg; zlia | reflexivity]. }
  clearbody c.
  assert (HU : 0 < 2 ^ 1074) by (apply Z.pow_pos_nonneg; zlia).
  assert (Hac : a * c < 2 ^ 50 * 2 ^ 1071).
  { apply Z.le_lt_trans with (a * 2 ^ 1071); [znia|].
    apply Z.mul_lt_mono_pos_r; [apply Z.pow_pos_nonneg|]; zlia. }
  assert (Hp1 : 2 ^ 50 * 2 ^ 1071 = 2 ^ 1121) by (rewrite <- Z.pow_add_r by zlia; reflexivity).
  assert (Hp2 : 2 ^ 1067 < 2 ^ 1121) by (apply Z.pow_lt_mono_r; zlia).
  assert (Hp3 : 2 ^ 1074 < 2 ^ 1121) by (apply Z.pow_lt_mono_r; zlia).
  assert (Hp4 : 2 ^ (1069 + 53) = 2 * 2 ^ 1121).
  { change (1069 + 53) with (Z.succ 1121). rewrite Z.pow_succ_r by zlia. reflexivity. }
  assert (Hp5 : 2 ^ 1069 = 4 * 2 ^ 1067).
  { change 4 with (2 ^ 2). rewrite <- Z.pow_add_r by zlia. reflexivity. }
  destruct (Z.ltb_spec (2 ^ 1074 + ka) 0) as [?|_]; [zlia|].
  destruct (rnd_pos_error (2 ^ 1074 + ka) (2 ^ 1074) 1069) as (ks & Hks & Hks0 & Hes).
  - zlia.
  - zlia.
  - zlia.
  - rewrite Hp4. apply Z.mul_lt_mono_pos_r; [zlia|]. zlia.
  - exists ks, kd. split; [exact Hks|]. split; [reflexivity|]. split; [|exact Hed].
    apply scaled_error in Hes; [|zlia]. zlia.
Qed.

Lemma rnd_between n d z e :
  0 <= z < 2 ^ 53 -> 0 < d -> z * d <= n -> n <= 2 ^ e * d -> 0 <= e <= 1023 ->
  exists k, rnd n d = Fin k /\ z * 2 ^ 1074 <= k <= 2 ^ e * 2 ^ 1074.
Proof.
  intros Hz Hd Hlo Hhi He.
  assert (Hn : 0 <= n) by znia.
  destruct (rnd_bounded n d e Hn Hd Hhi He) as (k & Hk & Hk0 & Hk1).
  exists k. split; [exact Hk|]. split; [|exact Hk1].
  unfold rnd, rnd_pos in Hk.
  destruct (Z.ltb_spec n 0) as [?|_]; [zlia|].
  destruct (rnd_int n d <? 2 ^ 2098); [|discriminate].
  injection Hk as <-.
  pose proof (rnd_int_exact z 0 d Hz ltac:(zlia) Hd) as Hx.
  simpl (2 ^ 0) in Hx. rewrite !Z.mul_1_r in Hx.
  rewrite <- Hx. apply rnd_int_mono; znia.
Qed.

Lemma rnd_negative n d :
  n < 0 -> 0 < d -> (exists k, rnd n d = Fin k /\ k <= 0) \/ rnd n d = NInf.
Proof.
  intros Hn Hd. unfold rnd, rnd_pos.
  destruct (Z.ltb_spec n 0) as [_|?]; [|zlia].
  pose proof (rnd_int_nonneg (- n) d ltac:(zlia) Hd).
  destruct (rnd_int (- n) d <? 2 ^ 2098); simpl; [left|right; reflexivity].
  eexists. split; [reflexivity|zlia].
Qed.

Lemma modifier_high a d :
  0 <= d -> d + 15 <= a -> a < 2 ^ 50 ->
  exists m,
    fsub (fadd (lit 1 1) (fmul (of_int a) (lit 1 10))) (fmul (of_int d) (lit 1 10)) = Fin m /\
    2 * 2 ^ 1074 <= m.
Proof.
  intros Hd Hda Ha.
  destruct (modifier_terms a d) as (ks & kd & -> & -> & Hes & Hed); [zlia|zlia|].
  unfold fsub, fopp, fadd.
  assert (HV : 0 < 2 ^ 1019) by (apply Z.pow_pos_nonneg; zlia).
  assert (HU : 2 ^ 1074 = 36028797018963968 * 2 ^ 1019).
  { change 36028797018963968 with (2 ^ 55). rewrite <- Z.pow_add_r by zlia. reflexivity. }
  assert (HE : 2 ^ 1067 = 281474976710656 * 2 ^ 1019).
  { change 281474976710656 with (2 ^ 48). rewrite <- Z.pow_add_r by zlia. reflexivity. }
  assert (HT : 2 ^ 48 * 2 ^ 1074 = 10141204801825835211973625643008 * 2 ^ 1019).
  { change 10141204801825835211973625643008 with (2 ^ 103).
    rewrite <- !Z.pow_add_r by zlia. reflexivity. }
  assert (Ha50 : a <= 1125899906842624) by (change 1125899906842624 with (2 ^ 50); zlia).
  destruct (rnd_between (ks + - kd) (2 ^ 1074) 2 48) as (m & Hm & Hm2 & _).
  - zlia.
  - zlia.
  - rewrite HU, HE in *. set (V := 2 ^ 1019) in *. clearbody V.
    assert (15 * (3602879701896397 * V) <= (a - d) * (3602879701896397 * V)) by znia.
    zlia.
  - rewrite HT. rewrite HU, HE in *. set (V := 2 ^ 1019) in *. clearbody V.
    assert (a * (3602879701896397 * V) <= 1125899906842624 * (3602879701896397 * V)) by znia.
    assert (0 <= d * (3602879701896397 * V)) by znia.
    znia.
  - zlia.
  - exists m. split; [exact Hm | exact Hm2].
Qed.

Lemma modifier_low a d :
  0 <= a -> a + 15 <= d -> d < 2 ^ 50 ->
  (exists m,
     fsub (fadd (lit 1 1) (fmul (of_int a) (lit 1 10))) (fmul (of_int d) (lit 1 10)) = Fin m /\
     m <= 0) \/
  fsub (fadd (lit 1 1) (fmul (of_int a) (lit 1 10))) (fmul (of_int d) (lit 1 10)) = NInf.
Proof.
  intros Ha Had Hd.
  destruct (modifier_terms a d) as (ks & kd & -> & -> & Hes & Hed); [zlia|zlia|].
  unfold fsub, fopp, fadd.
  apply rnd_negative; [|apply Z.pow_pos_nonneg; zlia].
  assert (HV : 0 < 2 ^ 1019) by (apply Z.pow_pos_nonneg; zlia).
  assert (HU : 2 ^ 1074 = 36028797018963968 * 2 ^ 1019).
  { change 36028797018963968 with (2 ^ 55). rewrite <- Z.pow_add_r by zlia. reflexivity. }
  assert (HE : 2 ^ 1067 = 281474976710656 * 2 ^ 1019).
  { change 281474976710656 with (2 ^ 48). rewrite <- Z.pow_add_r by zlia. reflexivity. }
  rewrite HU, HE in *. set (V := 2 ^ 1019) in *. clearbody V.
  assert (15 * (3602879701896397 * V) <= (d - a) * (3602879701896397 * V)) by znia.
  zlia.
Qed.

Lemma modifier_finite a d :
  0 <= a < 2 ^ 50 -> 0 <= d < 2 ^ 50 ->
  fsub (fadd (lit 1 1) (fmul (of_int a) (lit 1 10))) (fmul (of_int d) (lit 1 10)) <> NaN.
Proof.
  intros Ha Hd.
  destruct (modifier_terms a d) as (ks & kd & -> & -> & _); [zlia|zlia|].
  unfold fsub, fopp, fadd. apply rnd_not_nan.
Qed.

Lemma clamp_max_min x :
  x <> NaN -> py_max (lit 5 10) (py_min (lit 2 1) x) = clamp x (lit 5 10) (lit 2 1).
Proof.
  intros Hx. rewrite lit_half, lit_two. unfold py_max, py_min, clamp, fgtb.
  assert (H1 : 2 ^ 1073 < 2 * 2 ^ 1074).
  { assert (2 ^ 1073 < 2 ^ 1074) by (apply Z.pow_lt_mono_r; zlia). zlia. }
  destruct x as [k| | |]; simpl; [| | |congruence].
  - destruct (Z.ltb_spec k (2 * 2 ^ 1074)); simpl.
    + destruct (Z.ltb_spec (2 ^ 1073) k), (Z.ltb_spec k (2 ^ 1073)); try reflexivity; try zlia.
      all: destruct (Z.ltb_spec (2 * 2 ^ 1074) k); [zlia|]; try reflexivity; f_equal; zlia.
    + destruct (Z.ltb_spec (2 ^ 1073) (2 * 2 ^ 1074)); [|zlia].
      destruct (Z.ltb_spec k (2 ^ 1073)); [zlia|].
      destruct (Z.ltb_spec (2 * 2 ^ 1074) k); [reflexivity|]. f_equal. zlia.
  - destruct (Z.ltb_spec (2 ^ 1073) (2 * 2 ^ 1074)); [reflexivity|zlia].
  - reflexivity.
Qed.

Lemma modifier_range x :
  exists k, py_max (lit 5 10) (py_min (lit 2 1) x) = Fin k /\
            2 ^ 1073 <= k <= 2 * 2 ^ 1074.
Proof.
  rewrite lit_half, lit_two. unfold py_max, py_min, fgtb.
  assert (H1 : 2 ^ 1073 < 2 * 2 ^ 1074).
  { assert (2 ^ 1073 < 2 ^ 1074) by (apply Z.pow_lt_mono_r; zlia). zlia. }
  destruct x as [k| | |]; simpl.
  - destruct (Z.ltb_spec k (2 * 2 ^ 1074)); simpl.
    + destruct (Z.ltb_spec (2 ^ 1073) k); eexists; (split; [reflexivity|zlia]).
    + destruct (Z.ltb_spec (2 ^ 1073) (2 * 2 ^ 1074)); eexists; (split; [reflexivity|zlia]).
  - destruct (Z.ltb_spec (2 ^ 1073) (2 * 2 ^ 1074)); eexists; (split; [reflexivity|zlia]).
  - eexists; (split; [reflexivity|zlia]).
  - destruct (Z.ltb_spec (2 ^ 1073) (2 * 2 ^ 1074)); eexists; (split; [reflexivity|zlia]).
Qed.

End ModifierFacts.

(** * Facts about the matcher *)

Lemma length_list_ascii (s : string) :
  length (list_ascii_of_string s) = String.length s.
Proof. induction s as [|c s IH]; simpl; [reflexivity | rewrite IH; reflexivity]. Qed.

Lemma findall_at_length r p l skip :
  length (findall_at r p l skip) <= S (length l).
Proof.
  revert p skip. induction l as [|x xs IH]; intros p skip; simpl.
  - destruct skip; [destruct (rmatch r _)|]; simpl; lia.
  - rewrite length_app.
    destruct skip; [destruct (rmatch r _)|]; simpl;
      match goal with
      | |- context [findall_at r (Some x) xs ?k] => specialize (IH (Some x) k)
      end; lia.
Qed.

Lemma findall_length r text : length (findall r text) <= S (String.length text).
Proof. unfold findall. rewrite <- length_list_ascii. apply findall_at_length. Qed.

Lemma matches_length ps text :
  length (flat_map (fun p => findall p text) ps) <= length ps * S (String.length text).
Proof.
  induction ps as [|p ps IH]; cbn [flat_map length]; [lia|].
  rewrite length_app. pose proof (findall_length p text). nia.
Qed.

Lemma compile_all_length ps : length (compile_all ps) <= length ps.
Proof.
  unfold compile_all. induction ps as [|p ps IH]; [reflexivity|].
  cbn [omap list_omap length]. destruct (re_compile p); cbn [length]; lia.
Qed.

(** * Facts about the monad *)

Lemma mapM_ok {A B : Type} (f : A -> M B) (g : A -> B) (l : list A) (w : World) :
  (forall x, In x l -> f x w = (Ok (g x), w)) ->
  mapM f l w = (Ok (map g l), w).
Proof.
  induction l as [|x l IH]; intros H; simpl; [reflexivity|].
  unfold bind. rewrite (H x) by (left; reflexivity).
  rewrite IH by (intros y Hy; apply H; right; exact Hy). reflexivity.
Qed.

Lemma max_entry_ok d w : d <> [] -> max_entry d w = (Ok (dominant_of d), w).
Proof. destruct d; [congruence | reflexivity]. Qed.

Lemma truediv_ok x y w : at_least_one y -> truediv x y w = (Ok (fdiv x y), w).
Proof. intros H. unfold truediv. rewrite (at_least_one_nonzero y H). reflexivity. Qed.

(** * Facts about the registry *)

Lemma registry_ok : forallb config_ok EMOTIONAL_DIMENSIONS = true.
Proof. vm_compute. reflexivity. Qed.

Lemma weight_bounded (dim : string) (ps : list regex) :
  In (dim, ps) _compiled_patterns ->
  (exists config, dict_get dim EMOTIONAL_DIMENSIONS = Some config) /\
  bounded (weight_of dim) 1 /\ length ps <= 21.
Proof.
  unfold _compiled_patterns. rewrite in_map_iff.
  intros ([d config] & Heq & Hin). injection Heq as <- <-.
  pose proof registry_ok as Hok. rewrite forallb_forall in Hok.
  specialize (Hok _ Hin). unfold config_ok in Hok. cbn [fst snd] in Hok.
  unfold weight_of. destruct (dict_get d EMOTIONAL_DIMENSIONS) as [c|]; [|discriminate].
  apply andb_prop in Hok as [Hw Hl]. apply Nat.leb_le in Hl.
  split; [eauto|]. split.
  - apply orb_prop in Hw as [Hw|Hw]; apply bool_decide_eq_true in Hw; rewrite Hw;
      apply rnd_bounded; simpl; lia.
  - pose proof (compile_all_length (patterns config)). lia.
Qed.

Lemma compiled_length : length _compiled_patterns = 10.
Proof. unfold _compiled_patterns. rewrite length_map. reflexivity. Qed.

Lemma compiled_keys :
  map fst _compiled_patterns =
  ["WARMTH"; "RESONANCE"; "LONGING"; "FEAR"; "PEACE"; "RECOGNITION";
   "BELONGING"; "JOY"; "CURIOSITY"; "DETERMINATION"].
Proof.
  unfold _compiled_patterns. rewrite map_map.
  transitivity (map fst EMOTIONAL_DIMENSIONS); [|reflexivity].
  apply map_ext. intros [d c]. reflexivity.
Qed.

(** * [analyze] on a string *)

Lemma score_dimension_ok text entry w :
  In entry _compiled_patterns ->
  score_dimension text entry w = (Ok (pure_row text entry), w).
Proof.
  intros Hin. destruct entry as [dim ps].
  destruct (weight_bounded dim ps Hin) as ((config & Hc) & _ & _).
  unfold score_dimension, pure_row, weight_of, dict_item, bind. cbn [fst snd].
  rewrite Hc. cbn [ret].
  destruct (Nat.ltb_spec 0 (length (split text))) as [Hwc|Hwc].
  - rewrite truediv_ok by (apply of_int_at_least_one; lia). reflexivity.
  - reflexivity.
Qed.

Lemma adjusted_length text : length (adjusted_of text) = 10.
Proof. unfold adjusted_of. rewrite !length_map. apply compiled_length. Qed.

Lemma truthy_str s : s <> ""%string -> truthy (PyStr s) = true.
Proof.
  intros Hs. simpl. destruct (String.eqb_spec s ""); [congruence|reflexivity].
Qed.

Lemma analyze_str s ctx w :
  s <> ""%string ->
  analyze (PyStr s) ctx w = (Ok (record_of (clock w (ticks w)) s ctx), tick w).
Proof.
  intros Hs. unfold analyze. rewrite (truthy_str s Hs). cbn [negb orb isinstance_str str_of].
  unfold bind at 1.
  rewrite (mapM_ok _ (pure_row s)) by (intros x Hx; apply score_dimension_ok; exact Hx).
  fold (adjusted_of s).
  unfold bind at 1. rewrite max_entry_ok.
  2:{ intros H. pose proof (adjusted_length s) as HL. rewrite H in HL. discriminate. }
  unfold bind at 1. rewrite truediv_ok.
  2:{ rewrite adjusted_length. apply of_int_at_least_one. lia. }
  reflexivity.
Qed.

Lemma bounded_finite_nonneg x e : bounded x e -> finite_nonneg x.
Proof. intros (k & -> & Hk). exists k. split; [reflexivity|lia]. Qed.

Lemma modifier_bounded text : bounded (_calculate_intensity_modifier text) 1.
Proof.
  unfold _calculate_intensity_modifier.
  destruct (modifier_range
    (fsub (fadd (lit 1 1) (fmul (of_int (Z.of_nat (count_matches _amplifiers text))) (lit 1 10)))
       (fmul (of_int (Z.of_nat (count_matches _diminishers text))) (lit 1 10))))
    as (k & -> & Hk).
  exists k. split; [reflexivity|].
  assert (0 < 2 ^ 1073)%Z by (apply Z.pow_pos_nonneg; lia).
  change (2 ^ 1)%Z with 2%Z. lia.
Qed.

(** Every adjusted score of a text of feasible length is finite, not
    negative and below [2^77]. *)
Lemma adjusted_bounded text entry :
  fits_ssize text -> In entry _compiled_patterns ->
  bounded
    (round2 (fmul (snd (fst (pure_row text entry))) (_calculate_intensity_modifier text)))
    77.
Proof.
  intros Hfit Hin. destruct entry as [dim ps].
  destruct (weight_bounded dim ps Hin) as (_ & Hw & Hps).
  unfold pure_row. cbn [fst snd].
  set (matches := flat_map (fun pattern => findall pattern text) ps).
  assert (Hn : (0 <= Z.of_nat (length matches) <= 2 ^ 68)%Z).
  { pose proof (matches_length ps text) as Hm. fold matches in Hm.
    unfold fits_ssize in Hfit. split; [lia|].
    assert (length matches <= 21 * S (String.length text)) by nia.
    change (2 ^ 68)%Z with (32 * 2 ^ 63)%Z. lia. }
  assert (Hraw : bounded (fmul (of_int (Z.of_nat (length matches))) (weight_of dim)) 69).
  { change 69%Z with (68 + 1)%Z. apply fmul_bounded; [|exact Hw|lia|lia|lia].
    apply of_int_bounded; lia. }
  assert (Hnorm : bounded
    (if (0 <? length (split text))%nat
     then fmul (fdiv (fmul (of_int (Z.of_nat (length matches))) (weight_of dim))
                  (of_int (Z.of_nat (length (split text))))) (of_int 100)
     else Fin 0) 76).
  { destruct (Nat.ltb_spec 0 (length (split text))) as [Hwc|Hwc].
    - change 76%Z with (69 + 7)%Z. apply fmul_bounded; [| |lia|lia|lia].
      + apply fdiv_bounded; [exact Hraw | apply of_int_at_least_one; lia | lia].
      + apply of_int_bounded; [|lia]. change (2 ^ 7)%Z with 128%Z. lia.
    - exists 0%Z. split; [reflexivity|].
      assert (0 < 2 ^ 76 * 2 ^ 1074)%Z by (apply Z.mul_pos_pos; apply Z.pow_pos_nonneg; lia).
      lia. }
  apply round2_bounded; [|lia].
  change 77%Z with (76 + 1)%Z. apply fmul_bounded; [| |lia|lia|lia].
  - apply round2_bounded; [exact Hnorm|lia].
  - apply modifier_bounded.
Qed.

Lemma adjusted_keys text : map fst (adjusted_of text) = REGISTRY_KEYS.
Proof.
  unfold adjusted_of. rewrite !map_map. cbn [fst snd].
  unfold REGISTRY_KEYS. rewrite <- compiled_keys. apply map_ext. intros e. reflexivity.
Qed.

Lemma adjusted_values text :
  fits_ssize text ->
  Forall (fun ds => exists e, bounded (snd ds) e) (adjusted_of text).
Proof.
  intros Hfit. unfold adjusted_of. rewrite !map_map. rewrite Forall_map.
  apply Forall_forall. intros entry Hin. cbn [fst snd].
  exists 77%Z. apply adjusted_bounded; [exact Hfit|].
  apply list_elem_of_In. exact Hin.
Qed.

(** ** The first maximum *)

Lemma max_from_split (before : list (string * float)) best middle l :
  Forall (fun e => exists k, snd e = Fin k) (before ++ best :: middle ++ l) ->
  Forall (fun e => fltb (snd e) (snd best) = true) before ->
  Forall (fun e => fgtb (snd e) (snd best) = false) middle ->
  first_maximum (before ++ best :: middle ++ l) (max_from best l).
Proof.
  revert before best middle.
  induction l as [|x l IH]; intros before best middle Hfin Hb Hm.
  - simpl. rewrite app_nil_r. exists before, middle. auto.
  - cbn [max_from].
    assert (Hx : exists k, snd x = Fin k).
    { rewrite Forall_forall in Hfin. apply Hfin.
      rewrite !elem_of_app, !elem_of_cons, elem_of_app, elem_of_cons. auto. }
    assert (Hbest : exists k, snd best = Fin k).
    { rewrite Forall_forall in Hfin. apply Hfin.
      rewrite !elem_of_app, !elem_of_cons. auto. }
    destruct Hx as (kx & Hkx). destruct Hbest as (kb & Hkb).
    destruct (fgtb (snd x) (snd best)) eqn:Hgt.
    + replace (before ++ best :: middle ++ x :: l)
        with ((before ++ best :: middle) ++ x :: [] ++ l)
        by (rewrite <- !app_assoc; reflexivity).
      apply IH.
      * rewrite <- !app_assoc. exact Hfin.
      * unfold fgtb in Hgt. rewrite Hkx, Hkb in Hgt. simpl in Hgt.
        apply Z.ltb_lt in Hgt.
        apply Forall_app. split; [|apply Forall_cons; split].
        -- eapply Forall_impl; [exact Hb|]. intros e He. rewrite Hkx.
           rewrite Hkb in He. destruct (snd e); simpl in *; try discriminate; try reflexivity.
           apply Z.ltb_lt in He. apply Z.ltb_lt. lia.
        -- rewrite Hkx, Hkb. simpl. apply Z.ltb_lt. exact Hgt.
        -- assert (Hmf : Forall (fun e => exists k, snd e = Fin k) middle).
           { rewrite Forall_forall in Hfin. apply Forall_forall. intros e He. apply Hfin.
             rewrite !elem_of_app, !elem_of_cons, elem_of_app. auto. }
           rewrite Forall_forall in Hm, Hmf. apply Forall_forall. intros e He.
           specialize (Hm e He). destruct (Hmf e He) as (ke & Hke).
           unfold fgtb in Hm. rewrite Hke, Hkb in Hm. rewrite Hke, Hkx. simpl in *.
           apply Z.ltb_ge in Hm. apply Z.ltb_lt. lia.
      * constructor.
    + replace (before ++ best :: middle ++ x :: l)
        with (before ++ best :: (middle ++ [x]) ++ l)
        by (rewrite <- !app_assoc; reflexivity).
      apply IH.
      * rewrite <- !app_assoc. exact Hfin.
      * exact Hb.
      * apply Forall_app. split; [exact Hm|]. apply Forall_cons. split; [exact Hgt|constructor].
Qed.

Lemma dominant_first_maximum d :
  d <> [] -> Forall (fun e => exists k, snd e = Fin k) d ->
  first_maximum d (dominant_of d).
Proof.
  intros Hne Hfin. destruct d as [|x l]; [congruence|].
  apply (max_from_split [] x [] l); [exact Hfin|constructor|constructor].
Qed.

(** * Facts about the dicts of [analyze_messages] *)

Lemma dict_get_cons {V : Type} (k key : string) (v : V) (d : list (string * V)) :
  dict_get key ((k, v) :: d) = if String.eqb k key then Some v else dict_get key d.
Proof. unfold dict_get. cbn [find fst]. destruct (String.eqb k key); reflexivity. Qed.

Lemma dict_get_append_eq {V : Type} (key : string) (v : V) (d : list (string * list V)) :
  dict_get key (dict_append key v d) = Some (default [] (dict_get key d) ++ [v]).
Proof.
  induction d as [|[k vs] d IH]; cbn [dict_append].
  - rewrite dict_get_cons, String.eqb_refl. reflexivity.
  - destruct (String.eqb k key) eqn:E.
    + rewrite !dict_get_cons, E. reflexivity.
    + rewrite !dict_get_cons, E. exact IH.
Qed.

Lemma dict_get_append_ne {V : Type} (key key' : string) (v : V) (d : list (string * list V)) :
  key <> key' -> dict_get key' (dict_append key v d) = dict_get key' d.
Proof.
  intros Hne. induction d as [|[k vs] d IH]; cbn [dict_append].
  - rewrite dict_get_cons. destruct (String.eqb_spec key key'); [congruence|reflexivity].
  - destruct (String.eqb k key) eqn:E.
    + rewrite !dict_get_cons. apply String.eqb_eq in E. subst k.
      destruct (String.eqb_spec key key'); [congruence|reflexivity].
    + rewrite !dict_get_cons. destruct (String.eqb k key'); [reflexivity|exact IH].
Qed.

Lemma dict_append_nonempty {V : Type} (key : string) (v : V) (d : list (string * list V)) :
  Forall (fun e => snd e <> []) d ->
  Forall (fun e => snd e <> []) (dict_append key v d).
Proof.
  induction d as [|[k vs] d IH]; intros H; cbn [dict_append].
  - constructor; [discriminate|constructor].
  - inversion H as [|? ? Hh Ht]; subst. destruct (String.eqb k key).
    + constructor; [|exact Ht]. cbn. destruct vs; discriminate.
    + constructor; [exact Hh|apply IH; exact Ht].
Qed.

Lemma dict_get_map_values {A B : Type} (f : string * A -> B) key (d : list (string * A)) :
  dict_get key (map (fun e => (fst e, f e)) d) =
  match find (fun kv => String.eqb (fst kv) key) d with
  | Some e => Some (f e)
  | None => None
  end.
Proof.
  unfold dict_get. induction d as [|[k v] d IH]; [reflexivity|].
  cbn [map find fst]. destruct (String.eqb k key); [reflexivity|exact IH].
Qed.

Lemma mean2_ok xs w : xs <> [] -> mean2 xs w = (Ok (round2 (fdiv (py_sum xs) (of_int (Z.of_nat (length xs))))), w).
Proof.
  intros Hne. unfold mean2, bind. rewrite truediv_ok; [reflexivity|].
  apply of_int_at_least_one. destruct xs; [congruence|]. cbn [length]. lia.
Qed.

Lemma collect_scores_nonempty analyses :
  Forall (fun e => snd e <> []) (collect_scores analyses).
Proof.
  unfold collect_scores.
  assert (H : forall l (acc : list (string * list float)),
             Forall (fun e => snd e <> []) acc ->
             Forall (fun e => snd e <> [])
               (fold_left (fun acc' ds => dict_append (fst ds) (snd ds) acc') l acc)).
  { induction l as [|x l IH]; intros acc Hacc; [exact Hacc|].
    cbn [fold_left]. apply IH. apply dict_append_nonempty. exact Hacc. }
  assert (G : forall l (acc : list (string * list float)),
             Forall (fun e => snd e <> []) acc ->
             Forall (fun e => snd e <> [])
               (fold_left
                  (fun acc a =>
                     fold_left (fun acc' ds => dict_append (fst ds) (snd ds) acc')
                       (dimension_scores a) acc) l acc)).
  { induction l as [|x l IH]; intros acc Hacc; [exact Hacc|].
    cbn [fold_left]. apply IH. apply H. exact Hacc. }
  apply G. constructor.
Qed.

Lemma analyze_messages_scan messages w analyses by_sender w' :
  messages <> [] ->
  scan_messages messages [] [] w = (Ok (analyses, by_sender), w') ->
  analyze_messages messages w = (Ok (batch_of (length messages) analyses by_sender), w').
Proof.
  intros Hne Hscan. unfold analyze_messages.
  destruct messages as [|m ms]; [congruence|].
  unfold bind at 1. rewrite Hscan. cbn [fst snd].
  unfold bind at 1.
  rewrite (mapM_ok _ (fun e => (fst e, round2 (fdiv (py_sum (snd e)) (of_int (Z.of_nat (length (snd e)))))))).
  2:{ intros e He. unfold bind. rewrite mean2_ok; [reflexivity|].
      pose proof (collect_scores_nonempty analyses) as Hc.
      rewrite Forall_forall in Hc. apply Hc. apply list_elem_of_In. exact He. }
  unfold bind at 1.
  set (avg := map _ (collect_scores analyses)).
  assert (Hdom : forall w0,
    (match avg with
     | [] => ret "UNKNOWN"%string
     | _ => (fun w1 => match max_entry avg w1 with
                       | (Ok a, w2) => ret (fst a) w2
                       | (Raise e, w2) => (Raise e, w2)
                       end)
     end) w0 = (Ok (match avg with [] => "UNKNOWN"%string | _ => fst (dominant_of avg) end), w0)).
  { intros w0. destruct avg as [|x l] eqn:E; [reflexivity|].
    rewrite max_entry_ok by discriminate. reflexivity. }
  unfold bind in Hdom |- *. rewrite Hdom.
  rewrite (mapM_ok _ (fun e =>
              (fst e,
               {| count := length (snd e);
                  avg_intensity :=
                    match snd e with
                    | [] => Fin 0
                    | _ =>
                        round2 (fdiv (py_sum (map overall_intensity (snd e)))
                                  (of_int (Z.of_nat (length (map overall_intensity (snd e))))))
                    end |}))).
  2:{ intros e He. destruct (snd e) as [|a l] eqn:E; [reflexivity|].
      rewrite mean2_ok by discriminate. reflexivity. }
  reflexivity.
Qed.

Lemma has_content_str m :
  text_content m -> has_content m = true ->
  exists s, content_of m = PyStr s /\ s <> ""%string.
Proof.
  unfold text_content, has_content, content_of.
  destruct (msg_content m) as [[| b | z | s | b]|]; cbn; try contradiction; try discriminate.
  intros _ H. exists s. split; [reflexivity|].
  intros ->. discriminate H.
Qed.

Lemma scan_messages_spec messages :
  Forall text_content messages ->
  forall analyses by_sender w,
  exists new w',
    scan_messages messages analyses by_sender w =
      (Ok (analyses ++ new,
           fold_left (fun b a => dict_append (sender_key a) a b) new by_sender), w') /\
    Forall2 scored_from (List.filter has_content messages) new.
Proof.
  induction 1 as [|m ms Hm Hms IH]; intros analyses by_sender w.
  - exists [], w. cbn. rewrite app_nil_r. split; [reflexivity|constructor].
  - cbn [scan_messages List.filter]. fold (content_of m). fold (sender_of m).
    fold (has_content m).
    destruct (has_content m) eqn:Hc.
    + destruct (has_content_str m Hm Hc) as (s & Hs & Hne).
      unfold bind. rewrite Hs. rewrite (analyze_str s _ w Hne).
      set (a := tag_analysis _ _ _).
      destruct (IH (analyses ++ [a]) (dict_append (sender_of m) a by_sender) (tick w))
        as (new & w' & Hscan & Hall).
      exists (a :: new), w'. split.
      * rewrite Hscan. rewrite <- app_assoc. reflexivity.
      * constructor; [|exact Hall].
        exists (record_of (clock w (ticks w)) s (Some (sender_of m))), w, (tick w).
        rewrite Hs. split; [apply analyze_str; exact Hne | reflexivity].
    + apply IH.
Qed.

Lemma fold_by_sender new by_sender who :
  dict_get who (fold_left (fun b a => dict_append (sender_key a) a b) new by_sender) =
  match List.filter (fun a => String.eqb (sender_key a) who) new with
  | [] => dict_get who by_sender
  | l => Some (default [] (dict_get who by_sender) ++ l)
  end.
Proof.
  revert by_sender. induction new as [|a new IH]; intros by_sender; [reflexivity|].
  cbn [fold_left List.filter]. rewrite IH.
  destruct (String.eqb_spec (sender_key a) who) as [->|Hne].
  - rewrite dict_get_append_eq.
    destruct (List.filter _ new); simpl; rewrite <- ?app_assoc; reflexivity.
  - rewrite dict_get_append_ne by exact Hne. reflexivity.
Qed.

Lemma scored_sender_key m a : scored_from m a -> sender_key a = sender_of m.
Proof. intros (a0 & w0 & w0' & _ & ->). reflexivity. Qed.

Lemma filter_scored who ms new :
  Forall2 scored_from ms new ->
  length (List.filter (fun a => String.eqb (sender_key a) who) new) =
  length (List.filter (fun m => String.eqb (sender_of m) who) ms).
Proof.
  induction 1 as [|m a ms new Hma Hall IH]; [reflexivity|].
  cbn [List.filter]. rewrite (scored_sender_key m a Hma).
  destruct (String.eqb (sender_of m) who); cbn [length]; rewrite IH; reflexivity.
Qed.

Lemma filter_filter_sent who messages :
  List.filter (fun m => String.eqb (sender_of m) who) (List.filter has_content messages) =
  sent_by who messages.
Proof.
  unfold sent_by. induction messages as [|m ms IH]; [reflexivity|].
  cbn [List.filter]. destruct (has_content m); cbn [andb List.filter]; rewrite IH; reflexivity.
Qed.

Lemma analyze_messages_spec (messages : list Message) (w : World) :
  messages <> [] -> Forall text_content messages ->
  exists r w',
    analyze_messages messages w = (Ok r, w') /\
    total_messages r = length messages /\
    analyzed_messages r = length (List.filter has_content messages) /\
    Forall2 scored_from (List.filter has_content messages) (individual_analyses r) /\
    (forall who,
       count <$> dict_get who (by_sender r) =
       match length (sent_by who messages) with
       | O => None
       | S n => Some (S n)
       end).
Proof.
  intros Hne Htyped.
  destruct (scan_messages_spec messages Htyped [] [] w) as (new & w' & Hscan & Hall).
  cbn [app] in Hscan.
  rewrite (analyze_messages_scan messages w _ _ w' Hne Hscan).
  eexists _, _. split; [reflexivity|].
  cbn [total_messages analyzed_messages individual_analyses by_sender batch_of].
  split; [reflexivity|].
  split; [symmetry; eapply Forall2_length; exact Hall|].
  split; [exact Hall|].
  intros who. rewrite dict_get_map_values.
  pose proof (fold_by_sender new [] who) as Hget.
  unfold dict_get in Hget at 1.
  rewrite <- filter_filter_sent, <- (filter_scored who _ _ Hall).
  destruct (find _ _) as [e|]; cbn in Hget |- *.
  - destruct (List.filter _ new) as [|a l]; [discriminate Hget|].
    cbn in Hget. injection Hget as ->. reflexivity.
  - destruct (List.filter _ new) as [|a l]; [reflexivity|discriminate Hget].
Qed.

(** * Tokens *)

Lemma split_at_zero l cur :
  length (split_at l cur) = 0 <->
  cur = [] /\ existsb (fun c => negb (isspace c)) l = false.
Proof.
  revert cur. induction l as [|c l IH]; intros cur; cbn [split_at existsb].
  - destruct cur; cbn; split; [auto | auto | discriminate | intros [H _]; discriminate H].
  - destruct (isspace c); cbn [negb orb].
    + destruct cur as [|x cur].
      * rewrite IH. tauto.
      * cbn [length]. split; [discriminate | intros [H _]; discriminate H].
    + rewrite IH. split; [intros [H _]; discriminate H | intros [_ H]; discriminate H].
Qed.

Lemma word_count_positive text : 1 <= length (split text) <-> has_token text = true.
Proof.
  unfold split, has_token.
  destruct (split_at_zero (list_ascii_of_string text) []) as [H1 H2].
  destruct (existsb _ _).
  - split; [reflexivity|]. intros _.
    destruct (length (split_at (list_ascii_of_string text) [])); [|lia].
    destruct (H1 eq_refl) as [_ E]. discriminate E.
  - split; [|discriminate]. intros G.
    rewrite (H2 (conj eq_refl eq_refl)) in G. lia.
Qed.

Lemma round2_zero : round2 (Fin 0) = Fin 0.
Proof. vm_compute. reflexivity. Qed.

Lemma fmul_zero_l k : fmul (Fin 0) (Fin k) = Fin 0.
Proof. unfold fmul. rewrite Z.mul_0_l. vm_compute. reflexivity. Qed.

Lemma adjusted_zero text :
  length (split text) = 0 ->
  Forall (fun ds => snd ds = Fin 0) (adjusted_of text).
Proof.
  intros Hwc. unfold adjusted_of. rewrite !map_map. rewrite Forall_map.
  apply Forall_forall. intros entry _. cbn [fst snd pure_row].
  rewrite Hwc. cbn [Nat.ltb Nat.leb]. rewrite round2_zero.
  destruct (modifier_bounded text) as (k & -> & _).
  rewrite fmul_zero_l. apply round2_zero.
Qed.

Lemma with_timestamp_record_of t t' s ctx :
  with_timestamp t' (record_of t s ctx) = record_of t' s ctx.
Proof.
  unfold with_timestamp.
  cbn [record_of timestamp text_length word_count context dimension_scores
       dimension_matches dominant_emotion dominant_score overall_intensity
       intensity_level intensity_modifier emotional_signature sender
       message_timestamp].
  reflexivity.
Qed.

(** * The score of one dimension *)

Lemma adjusted_score text dim :
  dict_get dim (adjusted_of text) =
  (fun ps =>
     match counts_of text ps with
     | (n, wc, a, d) => score_of (weight_of dim) n wc a d
     end) <$> dict_get dim _compiled_patterns.
Proof.
  unfold adjusted_of. rewrite !map_map.
  rewrite (dict_get_map_values
             (fun e => round2 (fmul (snd (fst (pure_row text e)))
                                 (_calculate_intensity_modifier text)))).
  unfold dict_get.
  induction _compiled_patterns as [|[k ps] l IH]; [reflexivity|].
  cbn [find fst]. destruct (String.eqb_spec k dim) as [->|Hne]; [reflexivity|exact IH].
Qed.

Lemma joy_score text :
  counts_of text <$> dict_get "JOY" _compiled_patterns = Some (1, 3, 0, 0) ->
  dict_get "JOY" (adjusted_of text) = Some (score_of (weight_of "JOY") 1 3 0 0).
Proof.
  intros H. rewrite adjusted_score.
  destruct (dict_get "JOY" _compiled_patterns) as [ps|]; [|discriminate H].
  cbn [fmap option_fmap option_map] in H |- *.
  assert (E : counts_of text ps = (1, 3, 0, 0)) by congruence.
  rewrite E. reflexivity.
Qed.

(** * The model on sample inputs *)

(** The float operations against the Standard Library's specification of
    binary64 ([prec = 53], [emax = 1024]). *)
Example float_operations_match_spec :
  to_spec (lit 1 10) = S754_finite false 7205759403792794 (-56) /\
  to_spec (fmul (of_int 3) (lit 1 10)) =
    SFmul 53 1024 (to_spec (of_int 3)) (to_spec (lit 1 10)) /\
  to_spec (fadd (lit 1 1) (lit 3 10)) =
    SFadd 53 1024 (to_spec (lit 1 1)) (to_spec (lit 3 10)) /\
  to_spec (fdiv (lit 12 10) (of_int 7)) =
    SFdiv 53 1024 (to_spec (lit 12 10)) (to_spec (of_int 7)).
Proof. vm_compute. repeat split; reflexivity. Qed.

(** [round(0.125, 2)] is 0.12 (the tie goes to the even digit), and
    [round(0.15 * 1.1, 2)] is 0.17 (the product lies above the tie). *)
Example round2_samples :
  round2 (lit 125 1000) = lit 12 100 /\
  round2 (fmul (lit 15 100) (lit 11 10)) = lit 17 100.
Proof. vm_compute. repeat split; reflexivity. Qed.

(** Every pattern of the registry is in the syntax [re_compile] reads. *)
Example registry_compiles :
  map (fun e => length (snd e)) _compiled_patterns =
    map (fun e => length (patterns (snd e))) EMOTIONAL_DIMENSIONS /\
  length _amplifiers = length INTENSITY_AMPLIFIERS /\
  length _diminishers = length INTENSITY_DIMINISHERS.
Proof. vm_compute. repeat split; reflexivity. Qed.

Example findall_samples :
  (fun r => findall r "I aM HaPpY, happily unhappy happy.happiness")
    <$> re_compile "\bhapp(?:y|iness|ily)\b" =
    Some ["HaPpY"; "happily"; "happy"; "happiness"] /\
  (fun r => findall r "yes!!a yes! Yes!!!b") <$> re_compile "\byes[!]+\b" =
    Some ["yes!!"; "Yes!!!"] /\
  (fun r => findall r "That's it. thats right that it thatright")
    <$> re_compile "\bthat'?s? (?:it|right)\b" =
    Some ["That's it"; "thats right"; "that it"] /\
  (fun r => findall r "so  much soo much so very")
    <$> re_compile "\bso\s+(?:much|very)\b" =
    Some ["so  much"; "so very"].
Proof. vm_compute. repeat split; reflexivity. Qed.

(** A message with nothing to score is skipped: it counts in
    [total_messages] only. *)
Example skipped_message :
  exists r w',
    analyze_messages
      [message "I am so happy!" "FORGE"; message "" "CLIO";
       {| msg_content := None; msg_sender := Some "CLIO"; msg_timestamp := None |};
       message "I feel grateful." "FORGE"] world0 = (Ok r, w') /\
    total_messages r = 4 /\ analyzed_messages r = 2 /\
    count <$> dict_get "FORGE" (by_sender r) = Some 2 /\
    count <$> dict_get "CLIO" (by_sender r) = None.
Proof.
  match goal with
  | |- context [analyze_messages ?ms world0] =>
      destruct (analyze_messages_spec ms world0)
        as (r & w' & Hrun & Htot & Han & _ & Hcount);
      [discriminate | repeat constructor |]
  end.
  exists r, w'. split; [exact Hrun|].
  split; [rewrite Htot; reflexivity|].
  split; [rewrite Han; reflexivity|].
  split; rewrite Hcount; reflexivity.
Qed.

(** A content that is neither a string nor false makes [analyze] raise, and
    the batch with it. *)
Example non_text_content_raises :
  analyze_messages
    [{| msg_content := Some (PyInt 123); msg_sender := Some "FORGE";
        msg_timestamp := None |}] world0 =
  (Raise (ValueError "Text must be a non-empty string"), world0).
Proof. reflexivity. Qed.

(** * The claims *)

(** C1. For a non-empty text that [analyze] accepts, the returned
    [dimension_scores] has exactly the ten registry keys, in registry order,
    and every value is a finite float that is not negative. *)
Theorem C1_ten_keys_finite_nonneg (s : string) (ctx : option string) (w : World) :
  s <> ""%string -> fits_ssize s ->
  exists a w',
    analyze (PyStr s) ctx w = (Ok a, w') /\
    map fst (dimension_scores a) = REGISTRY_KEYS /\
    Forall (fun ds => finite_nonneg (snd ds)) (dimension_scores a).
Proof.
  intros Hs Hfit. rewrite (analyze_str s ctx w Hs).
  eexists _, _. split; [reflexivity|]. cbn [dimension_scores record_of].
  split; [apply adjusted_keys|].
  eapply Forall_impl; [apply adjusted_values; exact Hfit|].
  intros ds (e & Hb). eapply bounded_finite_nonneg. exact Hb.
Qed.

Lemma C1_witness :
  "i am happy"%string <> ""%string /\ fits_ssize "i am happy" /\
  exists a w',
    analyze (PyStr "i am happy") None world0 = (Ok a, w') /\
    map fst (dimension_scores a) = REGISTRY_KEYS /\
    Forall (fun ds => finite_nonneg (snd ds)) (dimension_scores a).
Proof.
  split; [discriminate|]. split; [reflexivity|].
  apply C1_ten_keys_finite_nonneg; [discriminate | reflexivity].
Defined.

(** C2, as stated: two calls of [analyze] on the same text return the same
    record. The clock of [world1] moves between the calls, and the two
    records differ in [timestamp]. *)
Lemma C2_counterexample :
  exists a1 a2 w1 w2,
    analyze (PyStr "happy") None world1 = (Ok a1, w1) /\
    analyze (PyStr "happy") None w1 = (Ok a2, w2) /\
    a1 <> a2.
Proof.
  rewrite (analyze_str "happy" None world1) by discriminate.
  eexists _, _, _, _. split; [reflexivity|].
  rewrite analyze_str by discriminate. split; [reflexivity|].
  intros H. apply (f_equal timestamp) in H. discriminate H.
Qed.

(** C2, amended. Two calls of [analyze] on the same non-empty text, from
    any two worlds, return records that agree in every field other than
    [timestamp]; the [timestamp] of each is the clock reading of its call. *)
Theorem C2_same_but_timestamp (s : string) (ctx : option string) (w1 w2 : World) :
  s <> ""%string ->
  exists a1 a2 w1' w2',
    analyze (PyStr s) ctx w1 = (Ok a1, w1') /\
    analyze (PyStr s) ctx w2 = (Ok a2, w2') /\
    timestamp a1 = clock w1 (ticks w1) /\
    timestamp a2 = clock w2 (ticks w2) /\
    a2 = with_timestamp (timestamp a2) a1.
Proof.
  intros Hs. rewrite !analyze_str by exact Hs.
  eexists _, _, _, _.
  split; [reflexivity|]. split; [reflexivity|].
  split; [reflexivity|]. split; [reflexivity|].
  symmetry. apply with_timestamp_record_of.
Qed.

Lemma C2_witness :
  "happy"%string <> ""%string /\
  exists a1 a2 w1' w2',
    analyze (PyStr "happy") None world0 = (Ok a1, w1') /\
    analyze (PyStr "happy") None world1 = (Ok a2, w2') /\
    timestamp a1 = clock world0 (ticks world0) /\
    timestamp a2 = clock world1 (ticks world1) /\
    a2 = with_timestamp (timestamp a2) a1.
Proof.
  split; [discriminate|].
  apply C2_same_but_timestamp. discriminate.
Defined.

(** C3, as stated: a text that passes the validation of [analyze] has at
    least one token. A single space passes it and has none. *)
Lemma C3_counterexample :
  exists a w',
    analyze (PyStr " ") None world0 = (Ok a, w') /\ word_count a = 0.
Proof.
  rewrite analyze_str by discriminate.
  eexists _, _. split; reflexivity.
Qed.

(** C3, amended. A text that passes the validation has a token exactly
    when it has a character that is not a space; a text of spaces only
    passes too, with [word_count] 0, and then every dimension score is 0. *)
Theorem C3_tokens_need_non_space (s : string) (ctx : option string) (w : World) :
  s <> ""%string ->
  exists a w',
    analyze (PyStr s) ctx w = (Ok a, w') /\
    (1 <= word_count a <-> has_token s = true) /\
    (word_count a = 0 -> Forall (fun ds => snd ds = Fin 0) (dimension_scores a)).
Proof.
  intros Hs. rewrite (analyze_str s ctx w Hs).
  eexists _, _. split; [reflexivity|].
  cbn [word_count dimension_scores record_of].
  split; [apply word_count_positive | apply adjusted_zero].
Qed.

Lemma C3_witness :
  " "%string <> ""%string /\
  exists a w',
    analyze (PyStr " ") None world0 = (Ok a, w') /\
    (1 <= word_count a <-> has_token " " = true) /\
    (word_count a = 0 -> Forall (fun ds => snd ds = Fin 0) (dimension_scores a)).
Proof.
  split; [discriminate|].
  apply C3_tokens_need_non_space. discriminate.
Defined.

(** C4. With [A] amplifier matches and [D] diminisher matches, both below
    [2^50], the modifier is [clamp(1.0 + 0.1*A - 0.1*D, 0.5, 2.0)] in float
    arithmetic; it is exactly 2.0 when the amplifiers exceed the diminishers
    by 15 or more, and exactly 0.5 when the diminishers exceed the
    amplifiers by 15 or more. *)
Theorem C4_intensity_modifier_clamp (text : string) :
  let A := Z.of_nat (count_matches _amplifiers text) in
  let D := Z.of_nat (count_matches _diminishers text) in
  (A < 2 ^ 50)%Z -> (D < 2 ^ 50)%Z ->
  _calculate_intensity_modifier text =
    clamp (fsub (fadd (lit 1 1) (fmul (lit 1 10) (of_int A)))
                (fmul (lit 1 10) (of_int D)))
          (lit 5 10) (lit 2 1) /\
  ((D + 15 <= A)%Z -> _calculate_intensity_modifier text = lit 2 1) /\
  ((A + 15 <= D)%Z -> _calculate_intensity_modifier text = lit 5 10).
Proof.
  intros A D HA HD. unfold _calculate_intensity_modifier. fold A D.
  assert (HA0 : (0 <= A)%Z) by (unfold A; lia).
  assert (HD0 : (0 <= D)%Z) by (unfold D; lia).
  clearbody A D.
  split; [|split].
  - rewrite (fmul_comm (lit 1 10) (of_int A)), (fmul_comm (lit 1 10) (of_int D)).
    apply clamp_max_min. apply modifier_finite; lia.
  - intros H. destruct (modifier_high A D HD0 H HA) as (m & -> & Hm).
    rewrite lit_half, lit_two. unfold py_max, py_min, fgtb, fltb.
    destruct (Z.ltb_spec m (2 * 2 ^ 1074)) as [?|_]; [lia|].
    destruct (Z.ltb_spec (2 ^ 1073) (2 * 2 ^ 1074)) as [_|Hc]; [reflexivity|].
    exfalso. assert (2 ^ 1073 < 2 ^ 1074)%Z by (apply Z.pow_lt_mono_r; lia). lia.
  - intros H. rewrite lit_half, lit_two.
    assert (Hp : (0 < 2 ^ 1073)%Z) by (apply Z.pow_pos_nonneg; lia).
    assert (Hq : (0 < 2 ^ 1074)%Z) by (apply Z.pow_pos_nonneg; lia).
    destruct (modifier_low A D HA0 H HD) as [(m & -> & Hm) | ->].
    + unfold py_max, py_min, fgtb, fltb.
      destruct (Z.ltb_spec m (2 * 2 ^ 1074)) as [_|?]; [|lia].
      destruct (Z.ltb_spec (2 ^ 1073) m) as [?|_]; [lia|reflexivity].
    + reflexivity.
Qed.

Lemma C4_witness :
  (Z.of_nat (count_matches _amplifiers fifteen_amplifiers) < 2 ^ 50)%Z /\
  (Z.of_nat (count_matches _diminishers fifteen_amplifiers) < 2 ^ 50)%Z /\
  _calculate_intensity_modifier fifteen_amplifiers = lit 2 1.
Proof.
  assert (H1 : (Z.of_nat (count_matches _amplifiers fifteen_amplifiers) < 2 ^ 50)%Z)
    by (vm_compute; reflexivity).
  assert (H2 : (Z.of_nat (count_matches _diminishers fifteen_amplifiers) < 2 ^ 50)%Z)
    by (vm_compute; reflexivity).
  split; [exact H1|]. split; [exact H2|].
  apply (C4_intensity_modifier_clamp fifteen_amplifiers H1 H2).
  vm_compute. discriminate.
Defined.

(** C5. The dominant dimension of an accepted text carries the greatest
    adjusted score, and of the dimensions that share it, it is the first in
    registry order. *)
Theorem C5_dominant_first_maximum (s : string) (ctx : option string) (w : World) :
  s <> ""%string -> fits_ssize s ->
  exists a w',
    analyze (PyStr s) ctx w = (Ok a, w') /\
    map fst (dimension_scores a) = REGISTRY_KEYS /\
    first_maximum (dimension_scores a) (dominant_emotion a, dominant_score a).
Proof.
  intros Hs Hfit. rewrite (analyze_str s ctx w Hs).
  eexists _, _. split; [reflexivity|].
  cbn [dimension_scores dominant_emotion dominant_score record_of].
  split; [apply adjusted_keys|].
  rewrite <- surjective_pairing. apply dominant_first_maximum.
  - intros H. pose proof (adjusted_length s) as HL. rewrite H in HL. discriminate.
  - eapply Forall_impl; [apply adjusted_values; exact Hfit|].
    intros ds (e & k & Hk & _). exists k. exact Hk.
Qed.

Lemma C5_witness :
  "i am happy"%string <> ""%string /\ fits_ssize "i am happy" /\
  exists a w',
    analyze (PyStr "i am happy") None world0 = (Ok a, w') /\
    map fst (dimension_scores a) = REGISTRY_KEYS /\
    first_maximum (dimension_scores a) (dominant_emotion a, dominant_score a).
Proof.
  split; [discriminate|]. split; [reflexivity|].
  apply C5_dominant_first_maximum; [discriminate | reflexivity].
Defined.



(** C7. On a batch that is not empty, whose contents are strings, [None] or
    missing, [analyze_messages] returns: every message counts in
    [total_messages]; the messages whose content is empty, [None] or missing
    are skipped; each of the others is scored, in order; and [by_sender]
    gives every sender the number of its scored messages. *)
Theorem C7_batch_skips_empty_content (messages : list Message) (w : World) :
  messages <> [] -> Forall text_content messages ->
  exists r w',
    analyze_messages messages w = (Ok r, w') /\
    total_messages r = length messages /\
    analyzed_messages r = length (List.filter has_content messages) /\
    Forall2 scored_from (List.filter has_content messages) (individual_analyses r) /\
    (forall who,
       count <$> dict_get who (by_sender r) =
       match length (sent_by who messages) with
       | O => None
       | S n => Some (S n)
       end).
Proof. apply analyze_messages_spec. Qed.

Lemma C7_witness :
  three_messages <> [] /\ Forall text_content three_messages /\
  exists r w',
    analyze_messages three_messages world0 = (Ok r, w') /\
    total_messages r = 3 /\ analyzed_messages r = 3 /\
    count <$> dict_get "FORGE" (by_sender r) = Some 2 /\
    count <$> dict_get "CLIO" (by_sender r) = Some 1.
Proof.
  assert (H1 : three_messages <> []) by discriminate.
  assert (H2 : Forall text_content three_messages) by (repeat constructor).
  split; [exact H1|]. split; [exact H2|].
  destruct (C7_batch_skips_empty_content three_messages world0 H1 H2)
    as (r & w' & Hrun & Htot & Han & _ & Hcount).
  exists r, w'. split; [exact Hrun|].
  split; [rewrite Htot; reflexivity|].
  split; [rewrite Han; reflexivity|].
  split; rewrite Hcount; reflexivity.
Defined.

(** C8. The three spellings of the same words get the same [JOY] score,
    and it is positive. *)
Theorem C8_case_insensitive_joy (c1 c2 c3 : option string) (w1 w2 w3 : World) :
  exists a1 a2 a3 w1' w2' w3' x,
    analyze (PyStr "i am happy") c1 w1 = (Ok a1, w1') /\
    analyze (PyStr "I AM HAPPY") c2 w2 = (Ok a2, w2') /\
    analyze (PyStr "I aM HaPpY") c3 w3 = (Ok a3, w3') /\
    dict_get "JOY" (dimension_scores a1) = Some x /\
    dict_get "JOY" (dimension_scores a2) = Some x /\
    dict_get "JOY" (dimension_scores a3) = Some x /\
    x = lit 3333 100 /\
    fgtb x (Fin 0) = true.
Proof.
  rewrite !analyze_str by discriminate.
  exists (record_of (clock w1 (ticks w1)) "i am happy" c1).
  exists (record_of (clock w2 (ticks w2)) "I AM HAPPY" c2).
  exists (record_of (clock w3 (ticks w3)) "I aM HaPpY" c3).
  exists (tick w1), (tick w2), (tick w3), (score_of (weight_of "JOY") 1 3 0 0).
  split; [reflexivity|]. split; [reflexivity|]. split; [reflexivity|].
  cbn [dimension_scores record_of].
  split; [apply joy_score; vm_compute; reflexivity|].
  split; [apply joy_score; vm_compute; reflexivity|].
  split; [apply joy_score; vm_compute; reflexivity|].
  assert (Hx : score_of (weight_of "JOY") 1 3 0 0 = lit 3333 100)
    by (vm_compute; reflexivity).
  rewrite Hx. split; [reflexivity | vm_compute; reflexivity].
Qed.

(** C9, as stated: the text of 23 characters is given a [text_length] of
    25. The code returns 23. *)
Lemma C9_counterexample :
  exists a w',
    analyze (PyStr "One two three four five") None world0 = (Ok a, w') /\
    word_count a = 5 /\ text_length a = 23 /\ text_length a <> 25.
Proof.
  rewrite analyze_str by discriminate.
  eexists _, _. split; [reflexivity|]. cbn [word_count text_length record_of].
  split; [vm_compute; reflexivity|]. split; [reflexivity|].
  vm_compute. discriminate.
Qed.

(** C9, amended. For that text [analyze] returns [word_count] 5 and
    [text_length] 23. *)
Theorem C9_word_count_and_length (ctx : option string) (w : World) :
  exists a w',
    analyze (PyStr "One two three four five") ctx w = (Ok a, w') /\
    word_count a = 5 /\ text_length a = 23.
Proof.
  rewrite analyze_str by discriminate.
  eexists _, _. split; [reflexivity|]. cbn [word_count text_length record_of].
  split; [vm_compute; reflexivity | reflexivity].
Qed.

(** C10. [add_to_profile] appends the analysis to the profile of the named
    agent, which it creates first when the agent is unknown, and sets
    [last_updated] to the clock reading; [agent_name], [created_at] and the
    analyses stored before stay as they were, and so does the profile of
    every other agent. *)
Theorem C10_add_to_profile_frame (name : string) (analysis : Analysis) (w : World) :
  exists p' w',
    add_to_profile name analysis w = (Ok p', w') /\
    profiles w' !! name = Some p' /\
    match profiles w !! name with
    | Some p =>
        analyses p' = analyses p ++ [analysis] /\
        agent_name p' = agent_name p /\
        created_at p' = created_at p /\
        last_updated p' = clock w (ticks w)
    | None =>
        analyses p' = [analysis] /\
        agent_name p' = name /\
        created_at p' = clock w (ticks w) /\
        last_updated p' = clock w (S (ticks w))
    end /\
    (forall other, other <> name -> profiles w' !! other = profiles w !! other) /\
    clock w' = clock w.
Proof.
  unfold add_to_profile, bind, get_profiles. cbn [profiles].
  destruct (profiles w !! name) as [p|] eqn:Hp.
  - cbn [ret]. rewrite Hp.
    unfold add_analysis, bind, now, set_profiles, ret. cbn.
    eexists _, _. split; [reflexivity|]. cbn.
    split; [apply lookup_insert_eq|].
    split; [auto|].
    split; [|reflexivity].
    intros other Hne. apply lookup_insert_ne. congruence.
  - unfold new_profile, bind, now, set_profiles, ret. cbn.
    rewrite lookup_insert_eq.
    unfold add_analysis, bind, now, set_profiles, ret. cbn.
    eexists _, _. split; [reflexivity|]. cbn.
    split; [apply lookup_insert_eq|].
    split; [auto|].
    split; [|reflexivity].
    intros other Hne. rewrite !lookup_insert_ne by congruence. reflexivity.
Qed.

(** * Further facts about the binary64 model *)

Section OrderFacts.
Local Open Scope Z_scope.

Lemma rnd_fle n1 d1 n2 d2 e :
  0 <= n1 -> 0 < d1 -> 0 < d2 -> n1 * d2 <= n2 * d1 -> n2 <= 2 ^ e * d2 ->
  0 <= e <= 1023 -> fle (rnd n1 d1) (rnd n2 d2).
Proof.
  intros Hn1 Hd1 Hd2 Hle Hhi He.
  assert (Hn2 : 0 <= n2) by znia.
  destruct (rnd_bounded n2 d2 e Hn2 Hd2 Hhi He) as (k2 & Hk2 & _ & Hb2).
  pose proof (rnd_int_mono n1 d1 n2 d2 Hd1 Hd2 Hle) as Hmono.
  pose proof (pow2_lt_top e He) as Htop.
  unfold rnd, rnd_pos in *.
  destruct (Z.ltb_spec n1 0) as [?|_]; [zlia|].
  destruct (Z.ltb_spec n2 0) as [?|_]; [zlia|].
  destruct (Z.ltb_spec (rnd_int n2 d2) (2 ^ 2098)) as [H2|H2]; [|discriminate].
  injection Hk2 as <-.
  destruct (Z.ltb_spec (rnd_int n1 d1) (2 ^ 2098)) as [H1|H1]; [|zlia].
  exists (rnd_int n1 d1), (rnd_int n2 d2). auto.
Qed.

Lemma round2_fle a b e :
  0 <= a <= b -> b <= 2 ^ e * 2 ^ 1074 -> 0 <= e <= 1023 ->
  fle (round2 (Fin a)) (round2 (Fin b)).
Proof.
  intros Hab Hb He. cbn [round2].
  assert (Hu : 0 < 2 ^ 1074) by (apply Z.pow_pos_nonneg; zlia).
  assert (Hp : 0 < 2 ^ e) by (apply Z.pow_pos_nonneg; zlia).
  apply (rnd_fle _ _ _ _ e); [apply rhe_nonneg; zlia | zlia | zlia | | | zlia].
  - apply Z.mul_le_mono_nonneg_r; [zlia|]. apply rhe_mono; zlia.
  - apply rhe_le_int; [zlia|]. znia.
Qed.

Lemma fle_trans x y z : fle x y -> fle y z -> fle x z.
Proof.
  intros (a & b & -> & -> & H1) (b' & c & E & -> & H2). injection E as <-.
  exists a, c. repeat split; zlia.
Qed.

Lemma round2_half : round2 (lit 5 10) = lit 5 10.
Proof. vm_compute. reflexivity. Qed.

Lemma round2_two : round2 (lit 2 1) = lit 2 1.
Proof. vm_compute. reflexivity. Qed.

End OrderFacts.

Lemma modifier_fle text :
  fle (lit 5 10) (_calculate_intensity_modifier text) /\
  fle (_calculate_intensity_modifier text) (lit 2 1) /\
  fle (lit 5 10) (round2 (_calculate_intensity_modifier text)) /\
  fle (round2 (_calculate_intensity_modifier text)) (lit 2 1).
Proof.
  unfold _calculate_intensity_modifier.
  destruct (modifier_range
    (fsub (fadd (lit 1 1) (fmul (of_int (Z.of_nat (count_matches _amplifiers text))) (lit 1 10)))
       (fmul (of_int (Z.of_nat (count_matches _diminishers text))) (lit 1 10))))
    as (k & -> & Hk).
  assert (H0 : (0 < 2 ^ 1073)%Z) by (apply Z.pow_pos_nonneg; zlia).
  assert (H2 : (2 * 2 ^ 1074 = 2 ^ 1 * 2 ^ 1074)%Z) by reflexivity.
  split; [|split; [|split]].
  - rewrite lit_half. exists (2 ^ 1073)%Z, k. repeat split; zlia.
  - rewrite lit_two. exists k, (2 * 2 ^ 1074)%Z. repeat split; zlia.
  - rewrite <- round2_half at 1. rewrite lit_half.
    apply (round2_fle _ _ 1); zlia.
  - rewrite <- round2_two. rewrite lit_two.
    apply (round2_fle _ _ 1); zlia.
Qed.

(** * Tokens and characters *)

Lemma split_at_bound l cur :
  2 * length (split_at l cur) <=
  length l + match cur with [] => 1 | _ => 2 end.
Proof.
  revert cur. induction l as [|c l IH]; intros cur; cbn [split_at length].
  - destruct cur; cbn [length]; zlia.
  - destruct (isspace c).
    + destruct cur as [|x cur]; cbn [length]; specialize (IH []); cbn in IH; zlia.
    + specialize (IH (c :: cur)). cbn in IH. destruct cur; zlia.
Qed.

Lemma analyze_raises v ctx w :
  truthy v = false \/ isinstance_str v = false ->
  analyze v ctx w = (Raise (ValueError "Text must be a non-empty string"), w).
Proof.
  intros [H|H]; unfold analyze; rewrite H; cbn [negb orb]; rewrite ?orb_true_r; reflexivity.
Qed.

(** * Matches *)

Lemma rep_ends_shorter cs p l min e :
  In e (rep_ends cs p l min) -> length (rest e) + min <= length l.
Proof.
  revert p min. induction l as [|x xs IH]; intros p min; cbn [rep_ends].
  - destruct min; cbn; [|tauto]. intros [<-|[]]. cbn. zlia.
  - assert (Hhere : In e (match min with 0 => [Cursor p (x :: xs)] | S _ => [] end) ->
                    length (rest e) + min <= length (x :: xs)).
    { destruct min; cbn; [|tauto]. intros [<-|[]]. cbn. zlia. }
    destruct (char_matches cs x); [|exact Hhere].
    rewrite in_app_iff. intros [H|H]; [|exact (Hhere H)].
    apply IH in H. cbn [length]. zlia.
Qed.

Lemma rmatch_shorter r st e :
  In e (rmatch r st) ->
  length (rest e) <= length (rest st) /\
  (consumes r = true -> length (rest e) < length (rest st)).
Proof.
  revert st e. induction r as [| cs | | r1 IH1 r2 IH2 | r1 IH1 r2 IH2 | r IH | min cs];
    intros st e; cbn [rmatch consumes].
  - intros [<-|[]]. split; [zlia|discriminate].
  - destruct (rest st) as [|x xs] eqn:E; [intros []|].
    destruct (char_matches cs x); [|intros []].
    intros [<-|[]]. cbn. split; zlia.
  - destruct (at_boundary st); [|intros []]. intros [<-|[]]. split; [zlia|discriminate].
  - rewrite in_flat_map. intros (m & Hm & He).
    destruct (IH1 _ _ Hm) as [H1 H1']. destruct (IH2 _ _ He) as [H2 H2'].
    split; [zlia|]. intros H. apply orb_prop in H as [H|H]; [specialize (H1' H)|specialize (H2' H)]; zlia.
  - rewrite in_app_iff. intros [H|H].
    + destruct (IH1 _ _ H) as [H1 H1']. split; [exact H1|].
      intros Hc. apply andb_prop in Hc as [Hc _]. auto.
    + destruct (IH2 _ _ H) as [H1 H1']. split; [exact H1|].
      intros Hc. apply andb_prop in Hc as [_ Hc]. auto.
  - rewrite in_app_iff. intros [H|[<-|[]]].
    + destruct (IH _ _ H) as [H1 _]. split; [exact H1|discriminate].
    + split; [zlia|discriminate].
  - intros H. apply rep_ends_shorter in H. split; [zlia|].
    intros Hm. apply Nat.ltb_lt in Hm. zlia.
Qed.

Lemma string_of_list_nonempty (l : list ascii) :
  l <> [] -> string_of_list_ascii l <> ""%string.
Proof. destruct l; [congruence|discriminate]. Qed.

Lemma findall_at_occurs r p l skip :
  Forall (fun m =>
            (consumes r = true -> m <> ""%string) /\
            exists before after, l = before ++ list_ascii_of_string m ++ after)
    (findall_at r p l skip).
Proof.
  revert p skip. induction l as [|x xs IH]; intros p skip.
  - cbn [findall_at]. destruct skip; [|constructor].
    destruct (rmatch r (Cursor p [])) as [|e es] eqn:E; [constructor|].
    constructor; [|constructor]. cbn. split.
    + intros Hc. exfalso.
      assert (Hin : In e (rmatch r (Cursor p []))) by (rewrite E; left; reflexivity).
      apply rmatch_shorter in Hin as [_ Hlt]. specialize (Hlt Hc). cbn in Hlt. zlia.
    + exists [], []. reflexivity.
  - cbn [findall_at].
    assert (Htail : forall k,
      Forall (fun m =>
                (consumes r = true -> m <> ""%string) /\
                exists before after, x :: xs = before ++ list_ascii_of_string m ++ after)
        (findall_at r (Some x) xs k)).
    { intros k. eapply Forall_impl; [apply IH|].
      intros m (Hne & before & after & Heq). split; [exact Hne|].
      exists (x :: before), after. rewrite Heq. reflexivity. }
    destruct skip as [|k]; [|apply Htail].
    destruct (rmatch r (Cursor p (x :: xs))) as [|e es] eqn:E; [apply Htail|].
    apply Forall_app. split; [|apply Htail].
    constructor; [|constructor].
    assert (Hin : In e (rmatch r (Cursor p (x :: xs)))) by (rewrite E; left; reflexivity).
    apply rmatch_shorter in Hin as [Hle Hlt]. cbn [rest] in Hle, Hlt.
    split.
    + intros Hc. specialize (Hlt Hc). apply string_of_list_nonempty.
      destruct (length (x :: xs) - length (rest e)) eqn:En; [zlia|]. discriminate.
    + exists [], (drop (length (x :: xs) - length (rest e)) (x :: xs)).
      rewrite list_ascii_of_string_of_list_ascii. cbn [app].
      symmetry. apply take_drop.
Qed.

Lemma findall_occurs r text :
  Forall (fun m => (consumes r = true -> m <> ""%string) /\ occurs_in m text)
    (findall r text).
Proof. apply findall_at_occurs. Qed.

Lemma registry_consumes :
  forallb (fun e => forallb consumes (snd e)) _compiled_patterns = true.
Proof. vm_compute. reflexivity. Qed.

(** * Scores *)

Lemma rnd_zero d : (0 < d)%Z -> rnd 0 d = Fin 0.
Proof.
  intros Hd. unfold rnd, rnd_pos, rnd_int. cbn [Z.ltb Z.compare Z.mul].
  rewrite Z.div_0_l by zlia. cbn [quantum Z.log2 Z.sub Z.max Z.compare Z.pow Z.opp Z.add].
  change (2 ^ 0)%Z with 1%Z. rewrite !Z.mul_1_r.
  unfold rhe. rewrite Z.div_0_l, Z.mod_0_l by zlia.
  destruct (Z.ltb_spec (2 * 0) d); [|zlia]. reflexivity.
Qed.

Lemma fdiv_zero y : at_least_one y -> fdiv (Fin 0) y = Fin 0.
Proof.
  intros [(b & -> & Hb)| ->]; [|reflexivity].
  assert (0 < 2 ^ 1074)%Z by (apply Z.pow_pos_nonneg; zlia).
  cbn [fdiv]. destruct (Z.ltb_spec 0 b); [|zlia]. apply rnd_zero. zlia.
Qed.

Lemma of_int_zero : of_int 0 = Fin 0.
Proof. apply rnd_zero. zlia. Qed.

Lemma of_int_hundred : exists k, of_int 100 = Fin k.
Proof. eexists. vm_compute. reflexivity. Qed.

(** The score of a dimension without a match is zero. *)
Lemma pure_row_zero text entry :
  In entry _compiled_patterns ->
  snd (pure_row text entry) = [] ->
  round2 (fmul (snd (fst (pure_row text entry))) (_calculate_intensity_modifier text)) = Fin 0.
Proof.
  intros Hin. destruct entry as [dim ps].
  destruct (weight_bounded dim ps Hin) as (_ & (kw & Hw & _) & _).
  unfold pure_row. cbn [fst snd]. intros ->. cbn [length]. change (Z.of_nat 0) with 0%Z.
  rewrite of_int_zero, Hw, fmul_zero_l.
  destruct (modifier_bounded text) as (k & -> & _).
  assert (Hz : forall x, x = Fin 0 -> round2 (fmul (round2 x) (Fin k)) = Fin 0).
  { intros x ->.
    assert (E : fmul (round2 (Fin 0)) (Fin k) = Fin 0)
      by (rewrite round2_zero; apply fmul_zero_l).
    rewrite E. apply round2_zero. }
  apply Hz.
  destruct (Nat.ltb_spec 0 (length (split text))) as [Hwc|Hwc]; [|reflexivity].
  rewrite fdiv_zero by (apply of_int_at_least_one; zlia).
  destruct of_int_hundred as (h & ->). apply fmul_zero_l.
Qed.

Lemma list_to_set_empty (l : list string) :
  (list_to_set l : gset string) = ∅ -> l = [].
Proof.
  destruct l as [|x l]; [reflexivity|]. intros H. exfalso.
  assert (Hx : x ∈ (list_to_set (x :: l) : gset string)) by set_solver.
  rewrite H in Hx. set_solver.
Qed.

(** * Letter case *)

Lemma lower_lower c : lower (lower c) = lower c.
Proof. destruct c as [[] [] [] [] [] [] [] []]; reflexivity. Qed.

Lemma isspace_lower c : isspace (lower c) = isspace c.
Proof. destruct c as [[] [] [] [] [] [] [] []]; reflexivity. Qed.

Lemma isword_lower c : isword (lower c) = isword c.
Proof. destruct c as [[] [] [] [] [] [] [] []]; reflexivity. Qed.

Lemma char_matches_lower cs x : char_matches cs (lower x) = char_matches cs x.
Proof.
  destruct cs as [c | l |]; cbn [char_matches].
  - rewrite lower_lower. reflexivity.
  - induction l as [|c l IH]; [reflexivity|].
    cbn [existsb]. rewrite IH, lower_lower. reflexivity.
  - apply isspace_lower.
Qed.

Lemma at_boundary_lower st : at_boundary (lower_cursor st) = at_boundary st.
Proof.
  destruct st as [[p|] [|x l]]; unfold at_boundary, lower_cursor;
    cbn [prev rest fmap option_fmap option_map map]; rewrite ?isword_lower; reflexivity.
Qed.

Lemma rep_ends_lower cs p l min :
  rep_ends cs (lower <$> p) (map lower l) min = map lower_cursor (rep_ends cs p l min).
Proof.
  revert p min. induction l as [|x xs IH]; intros p min; cbn [rep_ends map].
  - destruct min; reflexivity.
  - rewrite char_matches_lower. destruct (char_matches cs x).
    + rewrite map_app. rewrite <- IH. destruct min; reflexivity.
    + destruct min; reflexivity.
Qed.

Lemma rmatch_lower r st :
  rmatch r (lower_cursor st) = map lower_cursor (rmatch r st).
Proof.
  revert st. induction r as [| cs | | r1 IH1 r2 IH2 | r1 IH1 r2 IH2 | r IH | min cs];
    intros st; cbn [rmatch].
  - reflexivity.
  - destruct st as [p [|x xs]]; cbn; [reflexivity|].
    rewrite char_matches_lower. destruct (char_matches cs x); reflexivity.
  - rewrite at_boundary_lower. destruct (at_boundary st); reflexivity.
  - rewrite IH1. induction (rmatch r1 st) as [|e es IHes]; [reflexivity|].
    cbn [map flat_map]. rewrite map_app, IH2, IHes. reflexivity.
  - rewrite map_app, IH1, IH2. reflexivity.
  - rewrite map_app, IH. reflexivity.
  - destruct st as [p l]. apply rep_ends_lower.
Qed.

Lemma str_lower_of_list l :
  str_lower (string_of_list_ascii l) = string_of_list_ascii (map lower l).
Proof. unfold str_lower. rewrite list_ascii_of_string_of_list_ascii. reflexivity. Qed.

Lemma findall_at_lower r p l skip :
  findall_at r (lower <$> p) (map lower l) skip =
  map str_lower (findall_at r p l skip).
Proof.
  revert p skip. induction l as [|x xs IH]; intros p skip.
  - cbn [findall_at map]. destruct skip; [|reflexivity].
    change (Cursor (lower <$> p) []) with (lower_cursor (Cursor p [])).
    rewrite rmatch_lower. destruct (rmatch r (Cursor p [])); reflexivity.
  - cbn [findall_at map].
    change (Cursor (lower <$> p) (lower x :: map lower xs))
      with (lower_cursor (Cursor p (x :: xs))).
    rewrite rmatch_lower.
    change (Some (lower x)) with (lower <$> Some x).
    destruct skip as [|k].
    + destruct (rmatch r (Cursor p (x :: xs))) as [|e es]; cbn [map].
      * rewrite IH. reflexivity.
      * cbn [lower_cursor rest length]. rewrite !length_map.
        rewrite map_app, IH. cbn [map]. f_equal. f_equal.
        rewrite str_lower_of_list.
        change (lower x :: map lower xs) with (map lower (x :: xs)).
        rewrite <- fmap_take. reflexivity.
    + rewrite IH. reflexivity.
Qed.

Lemma list_of_str_lower s :
  list_ascii_of_string (str_lower s) = map lower (list_ascii_of_string s).
Proof. unfold str_lower. apply list_ascii_of_string_of_list_ascii. Qed.

Lemma findall_lower r s : findall r (str_lower s) = map str_lower (findall r s).
Proof.
  unfold findall. rewrite list_of_str_lower. apply (findall_at_lower r None).
Qed.

Lemma split_at_lower l cur :
  length (split_at (map lower l) (map lower cur)) = length (split_at l cur).
Proof.
  revert cur. induction l as [|c l IH]; intros cur; cbn [split_at map].
  - destruct cur; reflexivity.
  - rewrite isspace_lower. destruct (isspace c).
    + pose proof (IH []) as IH0. cbn [map] in IH0.
      destruct cur; cbn [map length]; rewrite IH0; reflexivity.
    + apply (IH (c :: cur)).
Qed.

Lemma split_lower s : length (split (str_lower s)) = length (split s).
Proof. unfold split. rewrite list_of_str_lower. apply (split_at_lower _ []). Qed.

Lemma matches_lower ps s :
  flat_map (fun pattern => findall pattern (str_lower s)) ps =
  map str_lower (flat_map (fun pattern => findall pattern s) ps).
Proof.
  induction ps as [|p ps IH]; [reflexivity|].
  cbn [flat_map]. rewrite map_app, findall_lower, IH. reflexivity.
Qed.

Lemma count_matches_lower ps s : count_matches ps (str_lower s) = count_matches ps s.
Proof.
  unfold count_matches. f_equal. apply map_ext. intros p.
  rewrite findall_lower. apply length_map.
Qed.

Lemma modifier_lower s :
  _calculate_intensity_modifier (str_lower s) = _calculate_intensity_modifier s.
Proof. unfold _calculate_intensity_modifier. rewrite !count_matches_lower. reflexivity. Qed.

Lemma pure_row_lower s entry :
  pure_row (str_lower s) entry =
  (fst (fst (pure_row s entry)), snd (fst (pure_row s entry)),
   map str_lower (snd (pure_row s entry))).
Proof.
  unfold pure_row. cbn [fst snd]. rewrite matches_lower, split_lower, length_map.
  reflexivity.
Qed.

Lemma adjusted_lower s : adjusted_of (str_lower s) = adjusted_of s.
Proof.
  unfold adjusted_of. rewrite modifier_lower. f_equal.
  rewrite !map_map. apply map_ext. intros e. rewrite pure_row_lower. reflexivity.
Qed.

Lemma length_str_lower s : String.length (str_lower s) = String.length s.
Proof. rewrite <- !length_list_ascii, list_of_str_lower. apply length_map. Qed.

Lemma str_lower_nonempty s : s <> ""%string -> str_lower s <> ""%string.
Proof. destruct s; [congruence|discriminate]. Qed.

Lemma list_to_set_lower (l : list string) :
  (list_to_set (map str_lower l) : gset string) = set_map str_lower (list_to_set l : gset string).
Proof.
  apply set_eq. intros x. rewrite elem_of_list_to_set, elem_of_map.
  change (map str_lower l) with (str_lower <$> l). rewrite list_elem_of_fmap.
  split; intros (y & -> & Hy); exists y; (split; [reflexivity|]);
    [apply elem_of_list_to_set | apply elem_of_list_to_set in Hy]; exact Hy.
Qed.

(** * Sorting *)

Lemma insert_by_perm {A : Type} (lt : A -> A -> bool) x l :
  insert_by lt x l ≡ₚ x :: l.
Proof.
  induction l as [|y l IH]; cbn [insert_by]; [reflexivity|].
  destruct (lt x y); [|reflexivity].
  rewrite IH. apply Permutation_swap.
Qed.

Lemma sorted_by_perm {A : Type} (lt : A -> A -> bool) l : sorted_by lt l ≡ₚ l.
Proof.
  induction l as [|x l IH]; [reflexivity|].
  cbn [sorted_by foldr]. fold (sorted_by lt l). rewrite insert_by_perm, IH. reflexivity.
Qed.

Section SortedBy.
Context {A : Type} (lt : A -> A -> bool).
Hypothesis lt_asym : forall x y, lt x y = true -> lt y x = false.
Hypothesis ge_trans : forall x y z, lt y x = false -> lt z y = false -> lt z x = false.

Lemma insert_by_sorted x l :
  StronglySorted (fun a b => lt a b = false) l ->
  StronglySorted (fun a b => lt a b = false) (insert_by lt x l).
Proof.
  induction 1 as [|y l Hl IH Hy]; cbn [insert_by].
  - repeat constructor.
  - destruct (lt x y) eqn:E.
    + constructor; [exact IH|].
      rewrite (insert_by_perm lt x l). constructor; [apply lt_asym; exact E | exact Hy].
    + constructor; [constructor; assumption|].
      constructor; [exact E|].
      eapply Forall_impl; [exact Hy|]. intros z Hz. cbn in Hz.
      eapply ge_trans; [exact Hz | exact E].
Qed.

Lemma sorted_by_sorted l :
  StronglySorted (fun a b => lt a b = false) (sorted_by lt l).
Proof.
  induction l as [|x l IH]; [constructor|].
  cbn [sorted_by foldr]. apply insert_by_sorted. exact IH.
Qed.

End SortedBy.

Lemma sorted_desc_by l :
  sorted_desc l = sorted_by (fun x y => fltb (snd x) (snd y)) l.
Proof.
  unfold sorted_desc, sorted_by. induction l as [|x l IH]; [reflexivity|].
  cbn [foldr]. rewrite IH.
  generalize (foldr (insert_by (fun x y => fltb (snd x) (snd y))) [] l). intros L.
  induction L as [|y L IHL]; [reflexivity|].
  cbn [insert_desc insert_by]. rewrite IHL. reflexivity.
Qed.

Lemma sorted_desc_perm l : sorted_desc l ≡ₚ l.
Proof. rewrite sorted_desc_by. apply sorted_by_perm. Qed.

(** Sorting keeps the entries finite. *)
Lemma insert_desc_finite x l :
  (exists k, snd x = Fin k) -> Forall (fun e => exists k, snd e = Fin k) l ->
  Forall (fun e => exists k, snd e = Fin k) (insert_desc x l).
Proof.
  intros Hx Hl. induction Hl as [|y l Hy Hl IH]; cbn [insert_desc].
  - repeat constructor. exact Hx.
  - destruct (fltb (snd x) (snd y)); repeat constructor; assumption.
Qed.

Lemma sorted_desc_finite l :
  Forall (fun e => exists k, snd e = Fin k) l ->
  Forall (fun e => exists k, snd e = Fin k) (sorted_desc l).
Proof.
  induction 1 as [|x l Hx Hl IH]; [constructor|].
  cbn [sorted_desc foldr]. apply insert_desc_finite; assumption.
Qed.

Lemma insert_desc_descending x l :
  (exists k, snd x = Fin k) -> Forall (fun e => exists k, snd e = Fin k) l ->
  descending l -> descending (insert_desc x l).
Proof.
  intros (kx & Hx) Hfin Hs. unfold descending in *.
  induction Hs as [|y l Hl IH Hy]; cbn [insert_desc].
  - repeat constructor.
  - inversion Hfin as [|? ? (ky & Hky) Hfl]; subst.
    destruct (fltb (snd x) (snd y)) eqn:E.
    + constructor; [apply IH; exact Hfl|].
      assert (Hp : insert_desc x l ≡ₚ x :: l).
      { clear. induction l as [|z l IHl]; cbn [insert_desc]; [reflexivity|].
        destruct (fltb (snd x) (snd z)); [|reflexivity].
        rewrite IHl. apply Permutation_swap. }
      rewrite Hp. constructor; [|exact Hy].
      rewrite Hx, Hky in E |- *. cbn in *. apply Z.ltb_lt in E. apply Z.ltb_ge. lia.
    + constructor; [constructor; assumption|].
      constructor; [exact E|].
      rewrite Forall_forall in Hy, Hfl. apply Forall_forall. intros z Hz.
      specialize (Hy z Hz). destruct (Hfl z Hz) as (kz & Hkz).
      rewrite Hx, Hky in E. rewrite Hky, Hkz in Hy. rewrite Hx, Hkz.
      cbn in *. apply Z.ltb_ge in E, Hy. apply Z.ltb_ge. lia.
Qed.

Lemma sorted_desc_descending l :
  Forall (fun e => exists k, snd e = Fin k) l -> descending (sorted_desc l).
Proof.
  induction 1 as [|x l Hx Hl IH]; [constructor|].
  cbn [sorted_desc foldr]. apply insert_desc_descending; [exact Hx | | exact IH].
  apply sorted_desc_finite. exact Hl.
Qed.

(** The first entry of the sorted scores is the one [max] picks. *)
Lemma max_from_cons x y l :
  Forall (fun e => exists k, snd e = Fin k) (x :: y :: l) ->
  max_from x (y :: l) =
  if fltb (snd x) (snd (max_from y l)) then max_from y l else x.
Proof.
  revert x y. induction l as [|z l IH]; intros x y Hfin.
  - cbn [max_from]. unfold fgtb. reflexivity.
  - inversion Hfin as [|? ? (kx & Hx) Hfin1]; subst.
    inversion Hfin1 as [|? ? (ky & Hy) Hfin2]; subst.
    assert (HM : exists km, snd (max_from z l) = Fin km).
    { clear - Hfin2. revert z Hfin2. induction l as [|u l IHl]; intros z Hfin2.
      - inversion Hfin2; subst. assumption.
      - cbn [max_from]. apply IHl.
        inversion Hfin2 as [|? ? Hz Hr]; subst. inversion Hr as [|? ? Hu Hr']; subst.
        constructor; [|exact Hr']. destruct (fgtb (snd u) (snd z)); assumption. }
    destruct HM as (km & HM).
    change (max_from x (y :: z :: l))
      with (max_from (if fgtb (snd y) (snd x) then y else x) (z :: l)).
    rewrite (IH y z Hfin1).
    unfold fgtb.
    destruct (fltb (snd x) (snd y)) eqn:Exy.
    + rewrite (IH y z Hfin1).
      rewrite Hx, Hy, HM in *. cbn in *.
      destruct (Z.ltb_spec ky km) as [H1|H1].
      * rewrite HM. cbn. apply Z.ltb_lt in Exy.
        destruct (Z.ltb_spec kx km); [reflexivity|lia].
      * rewrite Hy. cbn. rewrite Exy. reflexivity.
    + assert (Hfx : Forall (fun e => exists k, snd e = Fin k) (x :: z :: l)).
      { constructor; [eauto|exact Hfin2]. }
      rewrite (IH x z Hfx).
      rewrite Hx, Hy, HM in *. cbn in *. apply Z.ltb_ge in Exy.
      destruct (Z.ltb_spec ky km) as [H1|H1].
      * rewrite HM. cbn. reflexivity.
      * rewrite Hy. cbn.
        destruct (Z.ltb_spec kx km); [lia|].
        destruct (Z.ltb_spec kx ky); [lia|]. reflexivity.
Qed.

Lemma head_insert_desc x l :
  head (insert_desc x l) =
  match head l with
  | Some y => Some (if fltb (snd x) (snd y) then y else x)
  | None => Some x
  end.
Proof. destruct l as [|y l]; cbn; [reflexivity|]. destruct (fltb (snd x) (snd y)); reflexivity. Qed.

Lemma head_sorted_desc d :
  d <> [] -> Forall (fun e => exists k, snd e = Fin k) d ->
  head (sorted_desc d) = Some (dominant_of d).
Proof.
  induction d as [|x l IH]; [congruence|]. intros _ Hfin.
  cbn [sorted_desc foldr]. fold (sorted_desc l). rewrite head_insert_desc.
  destruct l as [|y l]; [reflexivity|].
  inversion Hfin as [|? ? Hx Hfl]; subst.
  rewrite (IH ltac:(discriminate) Hfl). cbn [dominant_of].
  rewrite (max_from_cons x y l Hfin). reflexivity.
Qed.

(** In a descending list the positive entries come first. *)
Lemma descending_positive_prefix l :
  Forall (fun e => exists k, snd e = Fin k) l -> descending l ->
  exists P N, l = P ++ N /\ Forall (fun e => positive e = true) P /\
              Forall (fun e => positive e = false) N.
Proof.
  intros Hfin Hs. unfold descending in Hs.
  induction Hs as [|x l Hl IH Hx]; [exists [], []; auto|].
  inversion Hfin as [|? ? (kx & Hkx) Hfl]; subst.
  destruct (positive x) eqn:E.
  - destruct (IH Hfl) as (P & N & -> & HP & HN).
    exists (x :: P), N. auto.
  - exists [], (x :: l). split; [reflexivity|]. split; [constructor|].
    constructor; [exact E|].
    rewrite Forall_forall in Hx, Hfl. apply Forall_forall. intros y Hy.
    specialize (Hx y Hy). destruct (Hfl y Hy) as (ky & Hky).
    unfold positive, fgtb in *. rewrite Hkx in E, Hx. rewrite Hky in Hx |- *.
    cbn in *. apply Z.ltb_ge in E, Hx. apply Z.ltb_ge. lia.
Qed.

Lemma filter_all {A : Type} (f : A -> bool) l :
  Forall (fun e => f e = true) l -> List.filter f l = l.
Proof.
  induction 1 as [|x l Hx Hl IH]; [reflexivity|].
  cbn [List.filter]. rewrite Hx, IH. reflexivity.
Qed.

Lemma filter_none {A : Type} (f : A -> bool) l :
  Forall (fun e => f e = false) l -> List.filter f l = [].
Proof.
  induction 1 as [|x l Hx Hl IH]; [reflexivity|].
  cbn [List.filter]. rewrite Hx, IH. reflexivity.
Qed.

Lemma filter_length_perm {A : Type} (f : A -> bool) l l' :
  l ≡ₚ l' -> length (List.filter f l) = length (List.filter f l').
Proof.
  induction 1 as [|x l l' Hp IH|x y l|l l' l'' H1 IH1 H2 IH2]; cbn [List.filter].
  - reflexivity.
  - destruct (f x); cbn [length]; rewrite IH; reflexivity.
  - destruct (f x), (f y); reflexivity.
  - congruence.
Qed.

(** The signature of finite scores. *)
Lemma signature_spec d :
  d <> [] -> Forall (fun e => exists k, snd e = Fin k) d ->
  length (_generate_signature d) = min 3 (length (List.filter positive d)) /\
  Forall (fun e => e ∈ d /\ positive e = true) (_generate_signature d) /\
  descending (_generate_signature d) /\
  head (_generate_signature d) =
    (if positive (dominant_of d) then Some (dominant_of d) else None).
Proof.
  intros Hne Hfin. unfold _generate_signature. fold positive.
  pose proof (sorted_desc_descending d Hfin) as Hs.
  pose proof (sorted_desc_finite d Hfin) as Hsf.
  pose proof (sorted_desc_perm d) as Hp.
  pose proof (head_sorted_desc d Hne Hfin) as Hh.
  destruct (descending_positive_prefix _ Hsf Hs) as (P & N & HL & HP & HN).
  assert (Hsig : List.filter positive (take 3 (sorted_desc d)) = take 3 P).
  { rewrite HL, take_app. rewrite List.filter_app.
    rewrite (filter_all positive (take 3 P)) by (apply Forall_take; exact HP).
    rewrite (filter_none positive (take (3 - length P) N)) by (apply Forall_take; exact HN).
    apply app_nil_r. }
  assert (HlenP : length (List.filter positive d) = length P).
  { rewrite <- (filter_length_perm positive _ _ Hp), HL, List.filter_app.
    rewrite (filter_all positive P HP), (filter_none positive N HN), app_nil_r.
    reflexivity. }
  rewrite Hsig. split; [|split; [|split]].
  - rewrite length_take, HlenP. reflexivity.
  - apply Forall_take. rewrite Forall_forall in HP |- *. intros e He.
    split; [|apply HP; exact He].
    rewrite <- Hp, HL. apply elem_of_app. left. exact He.
  - unfold descending in *. rewrite HL in Hs.
    assert (HsP : StronglySorted (fun x y => fltb (snd x) (snd y) = false) P).
    { clear - Hs. induction P as [|x P IH]; [constructor|].
      cbn in Hs. inversion Hs as [|? ? Hs' Hx]; subst.
      constructor; [apply IH; exact Hs'|].
      apply Forall_app in Hx as [Hx _]. exact Hx. }
    clear - HsP. revert HsP. generalize 3. intros n. revert P.
    induction n as [|n IH]; intros P HsP; [constructor|].
    destruct P as [|x P]; [constructor|]. cbn [take].
    inversion HsP as [|? ? Hs' Hx]; subst.
    constructor; [apply IH; exact Hs'|]. apply Forall_take. exact Hx.
  - rewrite HL in Hh. destruct P as [|x P].
    + cbn [app] in Hh. destruct N as [|y N]; [discriminate Hh|].
      cbn [head] in Hh. injection Hh as Hd. rewrite <- Hd.
      inversion HN as [|? ? Hy _]; subst. rewrite Hy. reflexivity.
    + cbn [app head] in Hh. injection Hh as Hd. rewrite <- Hd.
      inversion HP as [|? ? Hx _]; subst. rewrite Hx. reflexivity.
Qed.

(** * A text without emotion *)

Lemma adjusted_all_zero s :
  Forall (fun ds => snd ds = Fin 0) (adjusted_of s) ->
  adjusted_of s = map (fun k => (k, Fin 0)) REGISTRY_KEYS.
Proof.
  intros Hz. rewrite <- (adjusted_keys s). rewrite map_map.
  induction (adjusted_of s) as [|[k v] l IH]; [reflexivity|].
  inversion Hz as [|? ? Hv Hl]; subst. cbn in Hv. subst v.
  cbn [map fst]. rewrite <- IH by exact Hl. reflexivity.
Qed.

(** * Batches *)

Lemma scan_messages_skip messages analyses by_sender w :
  Forall (fun m => has_content m = false) messages ->
  scan_messages messages analyses by_sender w = (Ok (analyses, by_sender), w).
Proof.
  induction 1 as [|m ms Hm Hms IH]; [reflexivity|].
  cbn [scan_messages]. fold (content_of m). fold (has_content m).
  rewrite Hm. exact IH.
Qed.

(** The scan of a batch: the analyses it adds, the senders it files them
    under, and the clock readings it takes. *)
Lemma scan_messages_world messages :
  Forall text_content messages ->
  forall analyses by_sender w,
  exists new,
    scan_messages messages analyses by_sender w =
      (Ok (analyses ++ new,
           fold_left (fun b a => dict_append (sender_key a) a b) new by_sender),
       Nat.iter (length new) tick w) /\
    Forall2 scored_from (List.filter has_content messages) new.
Proof.
  induction 1 as [|m ms Hm Hms IH]; intros analyses by_sender w.
  - exists []. cbn. rewrite app_nil_r. split; [reflexivity|constructor].
  - cbn [scan_messages List.filter]. fold (content_of m). fold (sender_of m).
    fold (has_content m).
    destruct (has_content m) eqn:Hc.
    + destruct (has_content_str m Hm Hc) as (s & Hs & Hne).
      unfold bind. rewrite Hs. rewrite (analyze_str s _ w Hne).
      set (a := tag_analysis _ _ _).
      destruct (IH (analyses ++ [a]) (dict_append (sender_of m) a by_sender) (tick w))
        as (new & Hscan & Hall).
      exists (a :: new). split.
      * rewrite Hscan. rewrite <- app_assoc. cbn [length].
        rewrite Nat.iter_succ_r. reflexivity.
      * constructor; [|exact Hall].
        exists (record_of (clock w (ticks w)) s (Some (sender_of m))), w, (tick w).
        rewrite Hs. split; [apply analyze_str; exact Hne | reflexivity].
    + apply IH.
Qed.

Lemma iter_tick n w :
  profiles (Nat.iter n tick w) = profiles w /\
  clock (Nat.iter n tick w) = clock w /\
  ticks (Nat.iter n tick w) = n + ticks w.
Proof.
  induction n as [|n IH]; [auto|].
  change (Nat.iter (S n) tick w) with (tick (Nat.iter n tick w)).
  revert IH. generalize (Nat.iter n tick w). intros w1 (H1 & H2 & H3).
  unfold tick. cbn [profiles clock ticks]. rewrite H3. auto.
Qed.

(** The keys and the sizes of a dict of lists under [append]. *)
Lemma dict_append_keys {V : Type} (key : string) (v : V) (d : list (string * list V)) :
  map fst (dict_append key v d) =
  if bool_decide (key ∈ map fst d) then map fst d else map fst d ++ [key].
Proof.
  induction d as [|[k vs] d IH]; cbn [dict_append map fst].
  - rewrite bool_decide_eq_false_2 by (apply not_elem_of_nil). reflexivity.
  - destruct (String.eqb_spec k key) as [->|Hne].
    + rewrite bool_decide_eq_true_2 by (apply elem_of_cons; left; reflexivity).
      reflexivity.
    + cbn [map fst]. rewrite IH.
      destruct (decide (key ∈ map fst d)) as [Hin|Hin].
      * rewrite !bool_decide_eq_true_2; [reflexivity | apply elem_of_cons; right; exact Hin | exact Hin].
      * rewrite !bool_decide_eq_false_2; [reflexivity | | exact Hin].
        rewrite elem_of_cons. intros [->|H]; [congruence|contradiction].
Qed.

Lemma dict_append_NoDup {V : Type} (key : string) (v : V) (d : list (string * list V)) :
  NoDup (map fst d) -> NoDup (map fst (dict_append key v d)).
Proof.
  intros H. rewrite dict_append_keys.
  destruct (decide (key ∈ map fst d)) as [Hin|Hin].
  - rewrite bool_decide_eq_true_2 by exact Hin. exact H.
  - rewrite bool_decide_eq_false_2 by exact Hin.
    apply NoDup_app. split; [exact H|]. split.
    + intros x Hx Hk. apply list_elem_of_singleton in Hk. subst x. contradiction.
    + apply NoDup_singleton.
Qed.

Lemma dict_append_size {V : Type} (key : string) (v : V) (d : list (string * list V)) :
  sum_list (map (fun e => length (snd e)) (dict_append key v d)) =
  S (sum_list (map (fun e => length (snd e)) d)).
Proof.
  induction d as [|[k vs] d IH]; cbn [dict_append]; [reflexivity|].
  destruct (String.eqb k key); cbn [map snd sum_list_with id].
  - rewrite length_app. cbn [length]. lia.
  - rewrite IH. lia.
Qed.

Lemma fold_by_sender_invariant (new : list Analysis) by_sender :
  NoDup (map fst by_sender) ->
  NoDup (map fst (fold_left (fun b a => dict_append (sender_key a) a b) new by_sender)) /\
  sum_list (map (fun e => length (snd e))
              (fold_left (fun b a => dict_append (sender_key a) a b) new by_sender)) =
  length new + sum_list (map (fun e => length (snd e)) by_sender).
Proof.
  revert by_sender. induction new as [|a new IH]; intros by_sender Hnd.
  - cbn. auto.
  - cbn [fold_left length].
    destruct (IH (dict_append (sender_key a) a by_sender)
                (dict_append_NoDup _ _ _ Hnd)) as [H1 H2].
    split; [exact H1|]. rewrite H2, dict_append_size. lia.
Qed.


(** ** The columns of scores *)

Lemma registry_keys_NoDup : NoDup REGISTRY_KEYS.
Proof. apply (bool_decide_unpack _). vm_compute. exact I. Qed.

(** An association list is given by its keys and its lookups when no key
    comes twice. *)
Lemma dict_from_lookups {V : Type} (v0 : V) (d : list (string * V)) :
  NoDup (map fst d) ->
  d = map (fun k => (k, default v0 (dict_get k d))) (map fst d).
Proof.
  induction d as [|[k v] d IH]; intros Hnd; [reflexivity|].
  cbn [map fst] in Hnd |- *. apply NoDup_cons in Hnd as [Hk Hnd].
  rewrite dict_get_cons, String.eqb_refl. cbn [default]. f_equal.
  rewrite (IH Hnd) at 1. apply map_ext_in. intros k' Hk'.
  rewrite dict_get_cons.
  destruct (String.eqb_spec k k') as [->|_]; [|reflexivity].
  exfalso. apply Hk. apply list_elem_of_In. exact Hk'.
Qed.

Lemma dict_get_in_keys {V : Type} key (d : list (string * V)) :
  key ∈ map fst d -> exists v, dict_get key d = Some v.
Proof.
  induction d as [|[k v] d IH]; cbn [map fst].
  - intros H. apply elem_of_nil in H. contradiction.
  - rewrite dict_get_cons. destruct (String.eqb_spec k key) as [->|Hne]; [eauto|].
    rewrite elem_of_cons. intros [->|H]; [congruence|auto].
Qed.

Lemma dict_get_not_in_keys {V : Type} key (d : list (string * V)) :
  key ∉ map fst d -> dict_get key d = None.
Proof.
  induction d as [|[k v] d IH]; cbn [map fst]; [reflexivity|].
  rewrite dict_get_cons, not_elem_of_cons. intros [Hne H].
  destruct (String.eqb_spec k key) as [->|_]; [congruence|auto].
Qed.

(** The entries of one analysis go to the columns of their dimensions. *)
Lemma append_scores_keys (ds : list (string * float)) acc :
  NoDup (map fst ds) ->
  (acc = [] \/ map fst acc = map fst ds) ->
  map fst (fold_left (fun acc' e => dict_append (fst e) (snd e) acc') ds acc) =
  map fst ds.
Proof.
  intros Hnd [->|Hacc].
  - assert (G : forall (done todo : list (string * float)) (acc : list (string * list float)),
               NoDup (map fst (done ++ todo)) -> map fst acc = map fst done ->
               map fst (fold_left (fun acc' e => dict_append (fst e) (snd e) acc') todo acc) =
               map fst (done ++ todo)).
    { intros done todo. revert done. induction todo as [|e todo IH]; intros done acc Hn Ha.
      - rewrite app_nil_r. exact Ha.
      - cbn [fold_left]. replace (done ++ e :: todo) with ((done ++ [e]) ++ todo) in *
          by (rewrite <- app_assoc; reflexivity).
        apply IH; [exact Hn|].
        rewrite dict_append_keys, Ha, map_app. cbn [map].
        rewrite bool_decide_eq_false_2; [reflexivity|].
        rewrite !map_app in Hn. apply NoDup_app in Hn as [Hn _].
        apply NoDup_app in Hn as (_ & Hn & _).
        intros Hin. apply (Hn _ Hin). cbn. apply elem_of_cons. left. reflexivity. }
    apply (G [] ds []); [exact Hnd|reflexivity].
  - assert (G : forall (todo : list (string * float)) (acc : list (string * list float)),
               (forall e, e ∈ todo -> fst e ∈ map fst acc) ->
               map fst (fold_left (fun acc' e => dict_append (fst e) (snd e) acc') todo acc) =
               map fst acc).
    { induction todo as [|e todo IH]; intros acc0 Hin; [reflexivity|].
      cbn [fold_left].
      assert (He : map fst (dict_append (fst e) (snd e) acc0) = map fst acc0).
      { rewrite dict_append_keys, bool_decide_eq_true_2; [reflexivity|].
        apply Hin. apply elem_of_cons. left. reflexivity. }
      rewrite IH; [exact He|].
      intros e' He'. rewrite He. apply Hin. apply elem_of_cons. right. exact He'. }
    rewrite G; [exact Hacc|].
    intros e He. rewrite Hacc. apply list_elem_of_fmap. exists e. auto.
Qed.

Lemma append_scores_get (ds : list (string * float)) acc key :
  NoDup (map fst ds) ->
  dict_get key (fold_left (fun acc' e => dict_append (fst e) (snd e) acc') ds acc) =
  match dict_get key ds with
  | Some v => Some (default [] (dict_get key acc) ++ [v])
  | None => dict_get key acc
  end.
Proof.
  revert acc. induction ds as [|[k v] ds IH]; intros acc Hnd; [reflexivity|].
  cbn [map fst] in Hnd. apply NoDup_cons in Hnd as [Hk Hnd].
  cbn [fold_left fst snd]. rewrite (IH _ Hnd), dict_get_cons.
  destruct (String.eqb_spec k key) as [->|Hne].
  - rewrite (dict_get_not_in_keys key ds Hk). apply dict_get_append_eq.
  - rewrite (dict_get_append_ne k key v acc Hne). reflexivity.
Qed.

Lemma collect_scores_fold (analyses : list Analysis) acc :
  Forall (fun a => map fst (dimension_scores a) = REGISTRY_KEYS) analyses ->
  (acc = [] \/ map fst acc = REGISTRY_KEYS) ->
  let result :=
    fold_left
      (fun acc a =>
         fold_left (fun acc' ds => dict_append (fst ds) (snd ds) acc')
           (dimension_scores a) acc)
      analyses acc in
  (analyses <> [] -> map fst result = REGISTRY_KEYS) /\
  (forall key, key ∈ REGISTRY_KEYS ->
     default [] (dict_get key result) =
     default [] (dict_get key acc) ++ map (score_at key) analyses).
Proof.
  intros Hall. revert acc. induction Hall as [|a l Ha Hl IH]; intros acc Hacc.
  - cbn [fold_left map]. split; [congruence|]. intros key _.
    rewrite app_nil_r. reflexivity.
  - cbn [fold_left].
    assert (Hnd : NoDup (map fst (dimension_scores a))).
    { rewrite Ha. apply registry_keys_NoDup. }
    set (acc1 := fold_left _ (dimension_scores a) acc).
    assert (Hk1 : map fst acc1 = REGISTRY_KEYS).
    { unfold acc1. rewrite append_scores_keys; [exact Ha | exact Hnd |].
      destruct Hacc as [->|Hacc]; [left; reflexivity | right; congruence]. }
    destruct (IH acc1 (or_intror Hk1)) as [IH1 IH2]. cbv zeta in IH1, IH2.
    split.
    + intros _. destruct l as [|b l]; [exact Hk1 | apply IH1; discriminate].
    + intros key Hkey. rewrite (IH2 key Hkey).
      assert (Hin : key ∈ map fst (dimension_scores a)) by (rewrite Ha; exact Hkey).
      destruct (dict_get_in_keys key _ Hin) as (v & Hv).
      assert (H1 : dict_get key acc1 = Some (default [] (dict_get key acc) ++ [v])).
      { unfold acc1. rewrite (append_scores_get _ acc key Hnd), Hv. reflexivity. }
      rewrite H1. cbn [default map]. unfold score_at at 2. rewrite Hv. cbn [default].
      unfold id. rewrite <- app_assoc. reflexivity.
Qed.

Lemma collect_scores_columns (analyses : list Analysis) :
  analyses <> [] ->
  Forall (fun a => map fst (dimension_scores a) = REGISTRY_KEYS) analyses ->
  collect_scores analyses =
  map (fun k => (k, map (score_at k) analyses)) REGISTRY_KEYS.
Proof.
  intros Hne Hall.
  destruct (collect_scores_fold analyses [] Hall (or_introl eq_refl)) as [H1 H2].
  cbv zeta in H1, H2. fold (collect_scores analyses) in H1, H2.
  specialize (H1 Hne).
  rewrite (dict_from_lookups [] (collect_scores analyses))
    by (rewrite H1; apply registry_keys_NoDup).
  rewrite H1. apply map_ext_in. intros k Hk. apply list_elem_of_In in Hk.
  rewrite (H2 k Hk). reflexivity.
Qed.

Lemma max_from_in (l : list (string * float)) x : max_from x l ∈ x :: l.
Proof.
  revert x. induction l as [|y l IH]; intros x; cbn [max_from].
  - apply elem_of_cons. left. reflexivity.
  - specialize (IH (if fgtb (snd y) (snd x) then y else x)).
    apply elem_of_cons in IH as [->|IH].
    + destruct (fgtb (snd y) (snd x)); set_solver.
    + set_solver.
Qed.

Lemma dominant_of_in (d : list (string * float)) : d <> [] -> dominant_of d ∈ d.
Proof. destruct d as [|x l]; [congruence|]. intros _. apply max_from_in. Qed.

(** * Profiles *)

Lemma add_to_profile_run name analysis w :
  add_to_profile name analysis w =
  match profiles w !! name with
  | Some p =>
      let p' := {| agent_name := agent_name p;
                   analyses := analyses p ++ [analysis];
                   created_at := created_at p;
                   last_updated := clock w (ticks w) |} in
      (Ok p', {| clock := clock w; ticks := S (ticks w);
                 profiles := <[name := p']> (profiles w) |})
  | None =>
      let p' := {| agent_name := name;
                   analyses := [analysis];
                   created_at := clock w (ticks w);
                   last_updated := clock w (S (ticks w)) |} in
      (Ok p', {| clock := clock w; ticks := S (S (ticks w));
                 profiles := <[name := p']> (profiles w) |})
  end.
Proof.
  unfold add_to_profile, bind, get_profiles. cbn [profiles].
  destruct (profiles w !! name) as [p|] eqn:Hp.
  - cbn [ret]. rewrite Hp.
    unfold add_analysis, bind, now, set_profiles, ret. cbn. reflexivity.
  - unfold new_profile, bind, now, set_profiles, ret. cbn.
    rewrite lookup_insert_eq.
    unfold add_analysis, bind, now, set_profiles, ret. cbn.
    rewrite insert_insert_eq. reflexivity.
Qed.

(** ** Frequencies *)

Lemma dict_get_incr_eq key d :
  dict_get key (dict_incr key d) = Some (S (default 0 (dict_get key d))).
Proof.
  induction d as [|[k n] d IH]; cbn [dict_incr].
  - rewrite dict_get_cons, String.eqb_refl. reflexivity.
  - destruct (String.eqb k key) eqn:E; rewrite !dict_get_cons, E; [reflexivity|exact IH].
Qed.

Lemma dict_get_incr_ne key key' d :
  key <> key' -> dict_get key' (dict_incr key d) = dict_get key' d.
Proof.
  intros Hne. induction d as [|[k n] d IH]; cbn [dict_incr].
  - rewrite dict_get_cons. destruct (String.eqb_spec key key'); [congruence|reflexivity].
  - destruct (String.eqb k key) eqn:E.
    + rewrite !dict_get_cons. apply String.eqb_eq in E. subst k.
      destruct (String.eqb_spec key key'); [congruence|reflexivity].
    + rewrite !dict_get_cons. destruct (String.eqb k key'); [reflexivity|exact IH].
Qed.

Lemma dict_incr_keys key d :
  map fst (dict_incr key d) =
  if bool_decide (key ∈ map fst d) then map fst d else map fst d ++ [key].
Proof.
  induction d as [|[k n] d IH]; cbn [dict_incr map fst].
  - rewrite bool_decide_eq_false_2 by (apply not_elem_of_nil). reflexivity.
  - destruct (String.eqb_spec k key) as [->|Hne].
    + rewrite bool_decide_eq_true_2 by (apply elem_of_cons; left; reflexivity).
      reflexivity.
    + cbn [map fst]. rewrite IH.
      destruct (decide (key ∈ map fst d)) as [Hin|Hin].
      * rewrite !bool_decide_eq_true_2; [reflexivity | apply elem_of_cons; right; exact Hin | exact Hin].
      * rewrite !bool_decide_eq_false_2; [reflexivity | | exact Hin].
        rewrite elem_of_cons. intros [->|H]; [congruence|contradiction].
Qed.

Lemma dict_incr_NoDup key d : NoDup (map fst d) -> NoDup (map fst (dict_incr key d)).
Proof.
  intros H. rewrite dict_incr_keys.
  destruct (decide (key ∈ map fst d)) as [Hin|Hin].
  - rewrite bool_decide_eq_true_2 by exact Hin. exact H.
  - rewrite bool_decide_eq_false_2 by exact Hin.
    apply NoDup_app. split; [exact H|]. split.
    + intros x Hx Hk. apply list_elem_of_singleton in Hk. subst x. contradiction.
    + apply NoDup_singleton.
Qed.

Lemma dict_incr_sum key d :
  sum_list (map snd (dict_incr key d)) = S (sum_list (map snd d)).
Proof.
  induction d as [|[k n] d IH]; cbn [dict_incr]; [reflexivity|].
  destruct (String.eqb k key); cbn [map snd sum_list_with id]; [|rewrite IH]; lia.
Qed.

Lemma frequencies_spec (l : list Analysis) (f : list (string * nat)) :
  NoDup (map fst f) ->
  let f' := fold_left (fun f a => dict_incr (dominant_emotion a) f) l f in
  NoDup (map fst f') /\
  sum_list (map snd f') = length l + sum_list (map snd f) /\
  (forall e, default 0 (dict_get e f') =
             length (List.filter (fun a => String.eqb (dominant_emotion a) e) l) +
             default 0 (dict_get e f)) /\
  (Forall (fun x => 1 <= snd x) f -> Forall (fun x => 1 <= snd x) f').
Proof.
  revert f. induction l as [|a l IH]; intros f Hnd; cbv zeta.
  - cbn. auto.
  - cbn [fold_left length List.filter].
    destruct (IH (dict_incr (dominant_emotion a) f) (dict_incr_NoDup _ _ Hnd))
      as (H1 & H2 & H3 & H4). cbv zeta in H1, H2, H3, H4.
    split; [exact H1|]. split; [rewrite H2, dict_incr_sum; lia|]. split.
    + intros e. rewrite H3.
      destruct (String.eqb_spec (dominant_emotion a) e) as [->|Hne].
      * rewrite dict_get_incr_eq. cbn [default length]. unfold id. lia.
      * rewrite dict_get_incr_ne by exact Hne. reflexivity.
    + intros Hpos. apply H4. clear - Hpos.
      induction Hpos as [|[k n] d Hx Hd IHd]; cbn [dict_incr].
      * repeat constructor.
      * destruct (String.eqb k (dominant_emotion a)); constructor; cbn in *; auto; lia.
Qed.

(** A lookup does not depend on the order of a dict. *)
Lemma dict_get_elem {V : Type} key (v : V) (d : list (string * V)) :
  NoDup (map fst d) -> (dict_get key d = Some v <-> (key, v) ∈ d).
Proof.
  induction d as [|[k x] d IH]; cbn [map fst]; intros Hnd.
  - split; [discriminate|]. intros H. apply elem_of_nil in H. contradiction.
  - apply NoDup_cons in Hnd as [Hk Hnd]. rewrite dict_get_cons, elem_of_cons.
    destruct (String.eqb_spec k key) as [->|Hne].
    + split.
      * intros H. injection H as ->. left. reflexivity.
      * intros [H|H]; [injection H as ->; reflexivity|].
        exfalso. apply Hk. apply (list_elem_of_fmap_2 fst) in H. exact H.
    + rewrite (IH Hnd). split; [auto|]. intros [H|H]; [|exact H].
      injection H as -> ->. congruence.
Qed.

Lemma dict_get_perm {V : Type} key (d d' : list (string * V)) :
  NoDup (map fst d) -> d ≡ₚ d' -> dict_get key d = dict_get key d'.
Proof.
  intros Hnd Hp.
  assert (Hnd' : NoDup (map fst d')).
  { assert (Hm : map fst d ≡ₚ map fst d') by (apply Permutation_map; exact Hp).
    rewrite <- Hm. exact Hnd. }
  destruct (dict_get key d) as [v|] eqn:E.
  - symmetry. apply (dict_get_elem key v d' Hnd'). rewrite <- Hp.
    apply (dict_get_elem key v d Hnd). exact E.
  - destruct (dict_get key d') as [v|] eqn:E'; [|reflexivity].
    apply (dict_get_elem key v d' Hnd') in E'. rewrite <- Hp in E'.
    apply (dict_get_elem key v d Hnd) in E'. congruence.
Qed.

Lemma dominant_patterns_spec (p : EmotionalProfile) :
  NoDup (map fst (get_dominant_patterns p)) /\
  (forall e,
     dict_get e (get_dominant_patterns p) =
     match length (List.filter (fun a => String.eqb (dominant_emotion a) e) (analyses p)) with
     | O => None
     | S n => Some (S n)
     end) /\
  StronglySorted (fun x y => snd y <= snd x) (get_dominant_patterns p) /\
  sum_list (map snd (get_dominant_patterns p)) = length (analyses p).
Proof.
  unfold get_dominant_patterns.
  destruct (frequencies_spec (analyses p) [] (NoDup_nil_2)) as (H1 & H2 & H3 & H4).
  cbv zeta in H1, H2, H3, H4.
  set (f := fold_left _ (analyses p) []) in *.
  set (lt := fun x y : string * nat => (snd x <? snd y)%nat).
  pose proof (sorted_by_perm lt f) as Hp.
  assert (Hnd : NoDup (map fst (sorted_by lt f))).
  { assert (Hm : map fst (sorted_by lt f) ≡ₚ map fst f) by (apply Permutation_map; exact Hp).
    rewrite Hm. exact H1. }
  split; [exact Hnd|]. split; [|split].
  - intros e. rewrite (dict_get_perm e _ f Hnd Hp).
    specialize (H3 e). cbn [dict_get default] in H3. rewrite Nat.add_0_r in H3.
    specialize (H4 (Forall_nil_2 _)).
    destruct (dict_get e f) as [n|] eqn:E.
    + cbn [default] in H3. rewrite <- H3.
      assert (Hin : (e, n) ∈ f) by (apply (dict_get_elem e n f H1); exact E).
      rewrite Forall_forall in H4. specialize (H4 _ Hin). cbn in H4.
      destruct n; [lia|reflexivity].
    + cbn [default] in H3. rewrite <- H3. reflexivity.
  - assert (Hs : StronglySorted (fun a b => lt a b = false) (sorted_by lt f)).
    { apply sorted_by_sorted; unfold lt.
      - intros x y H. apply Nat.ltb_lt in H. apply Nat.ltb_ge. lia.
      - intros x y z Hyx Hzy. apply Nat.ltb_ge in Hyx, Hzy. apply Nat.ltb_ge. lia. }
    clear - Hs. induction Hs as [|x l Hl IH Hx]; constructor; [exact IH|].
    eapply Forall_impl; [exact Hx|]. intros y Hy. cbn in Hy.
    unfold lt in Hy. apply Nat.ltb_ge in Hy. exact Hy.
  - cbn [map sum_list_with] in H2. rewrite Nat.add_0_r in H2. rewrite <- H2.
    assert (Hm : map snd (sorted_by lt f) ≡ₚ map snd f) by (apply Permutation_map; exact Hp).
    rewrite Hm. reflexivity.
Qed.

(** ** Averages of a profile *)

Lemma dict_add_sums key x (d : list (string * list float)) :
  dict_add key x (map (fun e => (fst e, py_sum (snd e))) d) =
  map (fun e => (fst e, py_sum (snd e))) (dict_append key x d).
Proof.
  induction d as [|[k vs] d IH]; cbn [dict_append dict_add map fst snd]; [reflexivity|].
  destruct (String.eqb k key); cbn [map fst snd].
  - unfold py_sum. rewrite fold_left_app. reflexivity.
  - rewrite IH. reflexivity.
Qed.

Lemma dict_incr_lengths key (x : float) (d : list (string * list float)) :
  dict_incr key (map (fun e => (fst e, length (snd e))) d) =
  map (fun e => (fst e, length (snd e))) (dict_append key x d).
Proof.
  induction d as [|[k vs] d IH]; cbn [dict_append dict_incr map fst snd]; [reflexivity|].
  destruct (String.eqb k key); cbn [map fst snd].
  - rewrite length_app, Nat.add_1_r. reflexivity.
  - rewrite IH. reflexivity.
Qed.

Lemma sum_scores_collect (l : list Analysis) :
  sum_scores l =
  (map (fun e => (fst e, py_sum (snd e))) (collect_scores l),
   map (fun e => (fst e, length (snd e))) (collect_scores l)).
Proof.
  unfold sum_scores, collect_scores.
  change (@nil (string * float), @nil (string * nat))
    with (map (fun e : string * list float => (fst e, py_sum (snd e))) [],
          map (fun e : string * list float => (fst e, length (snd e))) []).
  generalize (@nil (string * list float)). induction l as [|a l IH]; intros acc.
  - reflexivity.
  - cbn [fold_left]. rewrite <- IH. f_equal.
    generalize (dimension_scores a). clear. intros ds. revert acc.
    induction ds as [|e ds IH]; intros acc; [reflexivity|].
    cbn [fold_left fst snd]. rewrite dict_add_sums, (dict_incr_lengths (fst e) (snd e)).
    apply IH.
Qed.

Lemma collect_scores_NoDup (l : list Analysis) : NoDup (map fst (collect_scores l)).
Proof.
  unfold collect_scores.
  assert (G : forall acc : list (string * list float),
             NoDup (map fst acc) ->
             NoDup (map fst (fold_left
               (fun acc a =>
                  fold_left (fun acc' ds => dict_append (fst ds) (snd ds) acc')
                    (dimension_scores a) acc) l acc))).
  { induction l as [|a l IH]; intros acc Hacc; [exact Hacc|].
    cbn [fold_left]. apply IH. revert acc Hacc.
    induction (dimension_scores a) as [|e ds IHd]; intros acc Hacc; [exact Hacc|].
    cbn [fold_left]. apply IHd. apply dict_append_NoDup. exact Hacc. }
  apply G. constructor.
Qed.

Lemma get_average_profile_run (p : EmotionalProfile) (w : World) :
  get_average_profile p w =
  (Ok (match analyses p with
       | [] => []
       | _ =>
           sorted_desc
             (map (fun e =>
                     (fst e, round2 (fdiv (py_sum (snd e))
                                       (of_int (Z.of_nat (length (snd e)))))))
                (collect_scores (analyses p)))
       end), w).
Proof.
  unfold get_average_profile. destruct (analyses p) as [|a l] eqn:E; [reflexivity|].
  rewrite <- E. clear E a l. rewrite sum_scores_collect. cbn [fst snd].
  set (C := collect_scores (analyses p)).
  unfold bind at 1.
  rewrite (mapM_ok _ (fun e => (fst e, round2 (fdiv (snd e)
             (of_int (Z.of_nat (default 0 (dict_get (fst e)
                (map (fun e => (fst e, length (snd e))) C))))))))).
  2:{ intros e He. apply in_map_iff in He as ([k vs] & <- & Hin). cbn [fst snd].
      apply list_elem_of_In in Hin.
      assert (Hget : dict_get k (map (fun e => (fst e, length (snd e))) C) = Some (length vs)).
      { apply dict_get_elem.
        - rewrite map_map. cbn [fst]. apply collect_scores_NoDup.
        - apply (list_elem_of_fmap_2 (fun e => (fst e, length (snd e))) C (k, vs)). exact Hin. }
      rewrite Hget. cbn [default]. unfold id.
      pose proof (collect_scores_nonempty (analyses p)) as Hne.
      rewrite Forall_forall in Hne. specialize (Hne _ Hin). cbn [snd] in Hne.
      assert (Hlen : 0 < length vs) by (destruct vs; [congruence | cbn; lia]).
      destruct (Nat.ltb_spec 0 (length vs)) as [_|?]; [|lia].
      unfold bind. rewrite truediv_ok by (apply of_int_at_least_one; lia).
      reflexivity. }
  unfold ret. f_equal. f_equal. f_equal. rewrite map_map. cbn [fst snd].
  apply map_ext_in. intros [k vs] Hin. cbn [fst snd]. apply list_elem_of_In in Hin.
  assert (Hget : dict_get k (map (fun e => (fst e, length (snd e))) C) = Some (length vs)).
  { apply dict_get_elem.
    - rewrite map_map. cbn [fst]. apply collect_scores_NoDup.
    - apply (list_elem_of_fmap_2 (fun e => (fst e, length (snd e))) C (k, vs)). exact Hin. }
  rewrite Hget. reflexivity.
Qed.

Lemma average_profile_means (p : EmotionalProfile) (w : World) :
  analyses p <> [] ->
  Forall (fun a => map fst (dimension_scores a) = REGISTRY_KEYS) (analyses p) ->
  get_average_profile p w =
  (Ok (sorted_desc
         (map (fun dim => (dim, mean_score dim (analyses p))) REGISTRY_KEYS)), w).
Proof.
  intros Hne Hkeys. rewrite get_average_profile_run.
  destruct (analyses p) as [|a l] eqn:E; [congruence|]. rewrite <- E in *. clear E a l.
  rewrite (collect_scores_columns _ Hne Hkeys), map_map. cbn [fst snd].
  f_equal. f_equal. f_equal. apply map_ext. intros k.
  unfold mean_score. rewrite length_map. reflexivity.
Qed.

(** * The descriptions of the dimensions *)

Lemma registry_names : map fst EMOTIONAL_DIMENSIONS = REGISTRY_KEYS.
Proof. reflexivity. Qed.

(** * Rounding twice *)

Section RoundingTwice.
Local Open Scope Z_scope.

Lemma rhe_unique a b m : 0 < b -> 2 * Z.abs (a - m * b) < b -> rhe a b = m.
Proof.
  intros Hb H. destruct (rhe_spec a b Hb) as [Hs _].
  set (r := rhe a b) in *. clearbody r. znia.
Qed.

Lemma pow2_split a b : 0 <= b <= a -> 2 ^ a = 2 ^ (a - b) * 2 ^ b.
Proof. intros H. rewrite <- Z.pow_add_r by zlia. f_equal. zlia. Qed.

(** What [rnd_int] returns is a double. *)
Lemma rnd_int_multiple n d :
  0 <= n -> 0 < d ->
  exists c, 0 <= c /\ rnd_int n d = c * 2 ^ quantum (rnd_int n d).
Proof.
  intros Hn Hd.
  pose proof (rnd_int_upper n d Hd) as Hup.
  pose proof (rnd_int_nonneg n d Hn Hd) as H0.
  rewrite rnd_int_unfold in *.
  set (N := n * 2 ^ 1074) in *. set (q := N / d) in *.
  set (g := quantum q) in *.
  set (r := rhe N (d * 2 ^ g)) in *.
  assert (Hg0 : 0 <= g) by (unfold g, quantum; zlia).
  assert (Hpg : 0 < 2 ^ g) by (apply Z.pow_pos_nonneg; zlia).
  assert (Hr0 : 0 <= r) by (clearbody r; znia).
  set (k := r * 2 ^ g) in *.
  pose proof (Z.log2_nonneg q) as HLq.
  destruct (Z_lt_le_dec k (2 ^ (Z.log2 q + 1))) as [Hlt|Hge].
  - assert (Hq : quantum k <= g).
    { unfold quantum at 1. unfold g, quantum.
      destruct (Z_lt_le_dec 0 k) as [Hk|Hk].
      - assert (Z.log2 k < Z.log2 q + 1) by (apply Z.log2_lt_pow2; zlia). zlia.
      - rewrite (Z.log2_nonpos k) by zlia. zlia. }
    assert (Hq0 : 0 <= quantum k) by (unfold quantum; zlia).
    exists (r * 2 ^ (g - quantum k)). split.
    + apply Z.mul_nonneg_nonneg; [exact Hr0|]. apply Z.pow_nonneg. zlia.
    + unfold k at 1. rewrite (pow2_split g (quantum k)) by zlia. ring.
  - assert (Hk : k = 2 ^ (Z.log2 q + 1)) by zlia.
    assert (Hq : quantum k <= Z.log2 q + 1).
    { unfold quantum. rewrite Hk, Z.log2_pow2 by zlia. zlia. }
    assert (Hq0 : 0 <= quantum k) by (unfold quantum; zlia).
    exists (2 ^ (Z.log2 q + 1 - quantum k)). split.
    + apply Z.pow_nonneg. zlia.
    + rewrite Hk at 1. apply pow2_split. zlia.
Qed.

Lemma rnd_pos_representable n d k :
  0 <= n -> 0 < d -> rnd_pos n d = Fin k -> representable k.
Proof.
  intros Hn Hd. unfold rnd_pos.
  destruct (Z.ltb_spec (rnd_int n d) (2 ^ 2098)) as [Hlt|]; [|discriminate].
  intros H. injection H as <-. split.
  - split; [apply rnd_int_nonneg; assumption | exact Hlt].
  - apply rnd_int_multiple; assumption.
Qed.

(** A double is the double nearest to itself. *)
Lemma rnd_int_fixed k : representable k -> rnd_int k (2 ^ 1074) = k.
Proof.
  intros [Hk (c & Hc & Hck)]. rewrite rnd_int_unfold.
  assert (HU : 0 < 2 ^ 1074) by (apply Z.pow_pos_nonneg; zlia).
  rewrite Z.div_mul by zlia.
  set (g := quantum k) in *.
  assert (Hg0 : 0 <= g) by (unfold g, quantum; zlia).
  assert (Hpg : 0 < 2 ^ g) by (apply Z.pow_pos_nonneg; zlia).
  rewrite Hck at 1.
  replace (c * 2 ^ g * 2 ^ 1074) with (c * (2 ^ 1074 * 2 ^ g)) by ring.
  rewrite rhe_exact by znia. symmetry. exact Hck.
Qed.

Lemma rnd_fixed k : representable k -> rnd k (2 ^ 1074) = Fin k.
Proof.
  intros Hr. pose proof Hr as [Hk _]. unfold rnd, rnd_pos.
  destruct (Z.ltb_spec k 0) as [?|_]; [zlia|].
  rewrite (rnd_int_fixed k Hr).
  destruct (Z.ltb_spec k (2 ^ 2098)); [reflexivity|zlia].
Qed.

(** The nearest decimal with two places to a double below [2^46] that was
    rounded to two places is the decimal it was rounded from. *)
Lemma round_trip_small m :
  0 <= m -> rnd_int m 100 < 2 ^ 46 * 2 ^ 1074 ->
  rhe (rnd_int m 100 * 100) (2 ^ 1074) = m.
Proof.
  intros Hm Hk.
  assert (HU : 0 < 2 ^ 1074) by (apply Z.pow_pos_nonneg; zlia).
  assert (Hm46 : m < 2 ^ 46 * 100).
  { destruct (Z_lt_le_dec m (2 ^ 46 * 100)) as [|Hge]; [assumption|exfalso].
    pose proof (rnd_int_mono (2 ^ 46 * 100) 100 m 100 ltac:(zlia) ltac:(zlia) ltac:(zlia)) as Hmono.
    pose proof (rnd_int_exact 1 46 100 ltac:(zlia) ltac:(zlia) ltac:(zlia)) as Hex.
    rewrite !Z.mul_1_l in Hex. rewrite Hex in Hmono. zlia. }
  destruct (rnd_pos_error m 100 1067 Hm ltac:(zlia) ltac:(zlia)) as (k & Hk1 & Hk0 & Herr).
  { replace (2 ^ (1067 + 53)) with (2 ^ 46 * 2 ^ 1074) by (rewrite <- Z.pow_add_r by zlia; reflexivity).
    znia. }
  unfold rnd_pos in Hk1.
  destruct (Z.ltb_spec (rnd_int m 100) (2 ^ 2098)) as [_|?]; [|discriminate].
  injection Hk1 as Hk1. rewrite Hk1.
  apply rhe_unique; [exact HU|].
  assert (H7 : 2 ^ 1074 = 128 * 2 ^ 1067).
  { change 128 with (2 ^ 7). rewrite <- Z.pow_add_r by zlia. reflexivity. }
  rewrite H7 in *. set (V := 2 ^ 1067) in *.
  assert (0 < V) by (apply Z.pow_pos_nonneg; zlia). clearbody V. zlia.
Qed.

(** A double from [2^46] on that is rounded to two places stays as it
    is. *)
Lemma round_trip_large k :
  representable k -> 2 ^ 46 * 2 ^ 1074 <= k ->
  rnd_int (rhe (k * 100) (2 ^ 1074)) 100 = k.
Proof.
  intros [Hk (c & Hc & Hck)] Hbig.
  assert (HU : 0 < 2 ^ 1074) by (apply Z.pow_pos_nonneg; zlia).
  assert (H1120 : 2 ^ 46 * 2 ^ 1074 = 2 ^ 1120) by (rewrite <- Z.pow_add_r by zlia; reflexivity).
  assert (Hkpos : 0 < k) by (rewrite H1120 in Hbig; assert (0 < 2 ^ 1120) by (apply Z.pow_pos_nonneg; zlia); zlia).
  set (L := Z.log2 k) in *.
  assert (HL : 1120 <= L).
  { unfold L. rewrite H1120 in Hbig. apply Z.log2_le_pow2; zlia. }
  destruct (Z.log2_spec k Hkpos) as [HLlo HLhi]. fold L in HLlo, HLhi.
  assert (Hq : quantum k = L - 52) by (unfold quantum; fold L; zlia).
  rewrite Hq in Hck. set (q := L - 52) in *.
  assert (Hq68 : 1068 <= q) by (unfold q; zlia).
  assert (Hpq : 0 < 2 ^ q) by (apply Z.pow_pos_nonneg; zlia).
  assert (HLq : 2 ^ L = 2 ^ 52 * 2 ^ q).
  { unfold q. rewrite <- Z.pow_add_r by zlia. f_equal. zlia. }
  assert (HL1q : 2 ^ Z.succ L = 2 ^ 53 * 2 ^ q).
  { unfold q. rewrite <- Z.pow_add_r by zlia. f_equal. zlia. }
  assert (Hc52 : 2 ^ 52 <= c < 2 ^ 53) by znia.
  assert (HUq : 2 ^ 1074 <= 64 * 2 ^ q).
  { change 64 with (2 ^ 6). rewrite <- Z.pow_add_r by zlia.
    apply Z.pow_le_mono_r; zlia. }
  destruct (Z.eq_dec c (2 ^ 52)) as [Hpow|Hnot].
  - (* a power of two *)
    assert (Hk2 : k = 2 ^ (L - 1074) * 2 ^ 1074).
    { rewrite Hck, Hpow, <- HLq. apply pow2_split. zlia. }
    rewrite Hk2 at 1.
    replace (2 ^ (L - 1074) * 2 ^ 1074 * 100) with (2 ^ (L - 1074) * 100 * 2 ^ 1074) by ring.
    rewrite rhe_exact by exact HU.
    pose proof (rnd_int_exact 1 (L - 1074) 100 ltac:(zlia) ltac:(zlia) ltac:(zlia)) as Hex.
    rewrite !Z.mul_1_l in Hex. rewrite Hex. symmetry. exact Hk2.
  - destruct (rhe_spec (k * 100) (2 ^ 1074) HU) as [Hm _].
    set (m := rhe (k * 100) (2 ^ 1074)) in *.
    rewrite rnd_int_unfold.
    set (N := m * 2 ^ 1074) in *.
    assert (HN : 2 * Z.abs (N - k * 100) <= 2 ^ 1074) by (unfold N; zlia).
    assert (Hlo : 2 ^ L * 100 <= N).
    { rewrite HLq. clearbody N. rewrite Hck in HN. znia. }
    assert (Hhi : N < 2 ^ Z.succ L * 100).
    { rewrite HL1q. clearbody N. rewrite Hck in HN. znia. }
    assert (Hdiv : 2 ^ L <= N / 100 < 2 ^ Z.succ L).
    { split; [apply Z.div_le_lower_bound; zlia | apply Z.div_lt_upper_bound; zlia]. }
    assert (Hlog : Z.log2 (N / 100) = L).
    { apply Z.log2_unique; [zlia|]. exact Hdiv. }
    assert (Hqq : quantum (N / 100) = q) by (unfold quantum; rewrite Hlog; unfold q; zlia).
    rewrite Hqq.
    rewrite (rhe_unique N (100 * 2 ^ q) c); [symmetry; exact Hck | zlia |].
    clearbody N. rewrite Hck in HN.
    replace (N - c * (100 * 2 ^ q)) with (N - c * 2 ^ q * 100) by ring. znia.
Qed.

Lemma round2_rounded x : rounded x -> round2 x = x.
Proof.
  intros (a & k & Ha & Hr & ->). cbn [round2] in Hr |- *.
  assert (HU : 0 < 2 ^ 1074) by (apply Z.pow_pos_nonneg; zlia).
  set (m := rhe (a * 100) (2 ^ 1074)) in *.
  assert (Hm : 0 <= m) by (apply rhe_nonneg; zlia).
  unfold rnd in Hr. destruct (Z.ltb_spec m 0) as [?|_]; [zlia|].
  pose proof (rnd_pos_representable m 100 k Hm ltac:(zlia) Hr) as Hrep.
  pose proof Hrep as [[Hk0 Hk1] _].
  unfold rnd_pos in Hr.
  destruct (Z.ltb_spec (rnd_int m 100) (2 ^ 2098)) as [_|?]; [|discriminate].
  injection Hr as Hr.
  assert (Hm' : 0 <= rhe (k * 100) (2 ^ 1074)) by (apply rhe_nonneg; zlia).
  unfold rnd. destruct (Z.ltb_spec (rhe (k * 100) (2 ^ 1074)) 0) as [?|_]; [zlia|].
  unfold rnd_pos.
  assert (Hgoal : rnd_int (rhe (k * 100) (2 ^ 1074)) 100 = k).
  { destruct (Z_lt_le_dec k (2 ^ 46 * 2 ^ 1074)) as [Hsmall|Hlarge].
    - rewrite <- Hr at 1. rewrite round_trip_small; [exact Hr | exact Hm | rewrite Hr; exact Hsmall].
    - apply round_trip_large; assumption. }
  rewrite Hgoal. destruct (Z.ltb_spec k (2 ^ 2098)); [reflexivity|zlia].
Qed.

Lemma rounded_representable x k : rounded x -> x = Fin k -> representable k.
Proof.
  intros (a & k' & Ha & Hr & ->) E. injection E as ->. cbn [round2] in Hr.
  assert (HU : 0 < 2 ^ 1074) by (apply Z.pow_pos_nonneg; zlia).
  assert (Hm : 0 <= rhe (a * 100) (2 ^ 1074)) by (apply rhe_nonneg; zlia).
  unfold rnd in Hr. destruct (Z.ltb_spec (rhe (a * 100) (2 ^ 1074)) 0) as [?|_]; [zlia|].
  eapply rnd_pos_representable; [exact Hm | | exact Hr]. zlia.
Qed.

(** The mean of one rounded value is that value. *)
Lemma mean_of_one x :
  rounded x -> round2 (fdiv (py_sum [x]) (of_int (Z.of_nat 1))) = x.
Proof.
  intros Hx. pose proof Hx as (a & k & _ & _ & Hk).
  pose proof (rounded_representable x k Hx Hk) as Hrep.
  assert (HU : 0 < 2 ^ 1074) by (apply Z.pow_pos_nonneg; zlia).
  assert (Hone : of_int (Z.of_nat 1) = Fin (2 ^ 1074)).
  { change (Z.of_nat 1) with 1. rewrite of_int_exact by zlia. rewrite Z.mul_1_l. reflexivity. }
  rewrite Hone. subst x. unfold py_sum. cbn [fold_left fadd]. rewrite Z.add_0_l.
  rewrite (rnd_fixed k Hrep). cbn [fdiv].
  destruct (Z.ltb_spec 0 (2 ^ 1074)) as [_|?]; [|zlia].
  rewrite (rnd_fixed k Hrep). apply round2_rounded. exact Hx.
Qed.

End RoundingTwice.

(** * One message, one analysis *)

Lemma fadd_bounded x y e :
  bounded x e -> bounded y e -> (0 <= e < 1023)%Z -> bounded (fadd x y) (e + 1).
Proof.
  intros (a & -> & Ha) (b & -> & Hb) He. cbn [fadd].
  assert (HU : (0 < 2 ^ 1074)%Z) by (apply Z.pow_pos_nonneg; zlia).
  assert (Hp : (0 < 2 ^ e)%Z) by (apply Z.pow_pos_nonneg; zlia).
  apply rnd_bounded; [zlia | zlia | | zlia].
  rewrite Z.pow_add_r by zlia. change (2 ^ 1)%Z with 2%Z. znia.
Qed.

Lemma fold_fadd_bounded l acc e :
  Forall (fun x => bounded x e) l -> bounded acc e ->
  (0 <= e)%Z -> (e + Z.of_nat (length l) <= 1023)%Z ->
  bounded (fold_left fadd l acc) (e + Z.of_nat (length l)).
Proof.
  intros Hl. revert acc. 
  assert (G : forall j acc, (0 <= j)%Z -> bounded acc (e + j) -> (0 <= e)%Z ->
              (e + j + Z.of_nat (length l) <= 1023)%Z ->
              bounded (fold_left fadd l acc) (e + j + Z.of_nat (length l))).
  { induction Hl as [|x l Hx Hl IH]; intros j acc Hj Hacc He Hlen.
    - cbn. rewrite Z.add_0_r. exact Hacc.
    - cbn [fold_left length] in *.
      replace (e + j + Z.of_nat (S (length l)))%Z
        with (e + (j + 1) + Z.of_nat (length l))%Z by zlia.
      apply IH; [zlia | | exact He | zlia].
      rewrite Z.add_assoc. apply fadd_bounded; [exact Hacc | | zlia].
      apply (bounded_weaken x e); [exact Hx | zlia]. }
  intros acc Hacc He Hlen.
  specialize (G 0%Z acc ltac:(zlia)). rewrite !Z.add_0_r in G.
  apply G; assumption.
Qed.

Lemma bounded_zero e : (0 <= e)%Z -> bounded (Fin 0) e.
Proof.
  intros He. exists 0%Z. split; [reflexivity|].
  assert (0 < 2 ^ e * 2 ^ 1074)%Z by (apply Z.mul_pos_pos; apply Z.pow_pos_nonneg; zlia).
  zlia.
Qed.

Lemma bounded_rounded x e :
  bounded x e -> (0 <= e <= 1023)%Z -> rounded (round2 x).
Proof.
  intros Hx He. destruct (round2_bounded x e Hx He) as (k & Hk & _).
  destruct Hx as (a & -> & Ha). exists a, k. split; [zlia|]. split; [reflexivity|exact Hk].
Qed.

(** The product that [analyze] rounds into the adjusted score. *)
Lemma adjusted_product_bounded text entry :
  fits_ssize text -> In entry _compiled_patterns ->
  bounded (fmul (snd (fst (pure_row text entry))) (_calculate_intensity_modifier text)) 77.
Proof.
  intros Hfit Hin. destruct entry as [dim ps].
  destruct (weight_bounded dim ps Hin) as (_ & Hw & Hps).
  unfold pure_row. cbn [fst snd].
  set (matches := flat_map (fun pattern => findall pattern text) ps).
  assert (Hn : (0 <= Z.of_nat (length matches) <= 2 ^ 68)%Z).
  { pose proof (matches_length ps text) as Hm. fold matches in Hm.
    unfold fits_ssize in Hfit. split; [zlia|].
    assert (length matches <= 21 * S (String.length text)) by znia.
    change (2 ^ 68)%Z with (32 * 2 ^ 63)%Z. zlia. }
  assert (Hraw : bounded (fmul (of_int (Z.of_nat (length matches))) (weight_of dim)) 69).
  { change 69%Z with (68 + 1)%Z. apply fmul_bounded; [|exact Hw|zlia|zlia|zlia].
    apply of_int_bounded; zlia. }
  assert (Hnorm : bounded
    (if (0 <? length (split text))%nat
     then fmul (fdiv (fmul (of_int (Z.of_nat (length matches))) (weight_of dim))
                  (of_int (Z.of_nat (length (split text))))) (of_int 100)
     else Fin 0) 76).
  { destruct (Nat.ltb_spec 0 (length (split text))) as [Hwc|Hwc].
    - change 76%Z with (69 + 7)%Z. apply fmul_bounded; [| |zlia|zlia|zlia].
      + apply fdiv_bounded; [exact Hraw | apply of_int_at_least_one; zlia | zlia].
      + apply of_int_bounded; [|zlia]. change (2 ^ 7)%Z with 128%Z. zlia.
    - apply bounded_zero. zlia. }
  change 77%Z with (76 + 1)%Z. apply fmul_bounded; [| |zlia|zlia|zlia].
  - apply round2_bounded; [exact Hnorm|zlia].
  - apply modifier_bounded.
Qed.

Lemma adjusted_rounded text :
  fits_ssize text -> Forall (fun ds => rounded (snd ds)) (adjusted_of text).
Proof.
  intros Hfit. unfold adjusted_of. rewrite !map_map. rewrite Forall_map.
  apply Forall_forall. intros entry Hin. cbn [fst snd].
  apply (bounded_rounded _ 77); [|zlia].
  apply adjusted_product_bounded; [exact Hfit|]. apply list_elem_of_In. exact Hin.
Qed.

Lemma overall_rounded text :
  fits_ssize text ->
  rounded (round2 (fdiv (py_sum (map snd (adjusted_of text)))
                     (of_int (Z.of_nat (length (adjusted_of text)))))).
Proof.
  intros Hfit. apply (bounded_rounded _ 87); [|zlia].
  rewrite adjusted_length. apply fdiv_bounded; [|apply of_int_at_least_one; zlia|zlia].
  assert (Hl : length (map snd (adjusted_of text)) = 10)
    by (rewrite length_map; apply adjusted_length).
  replace 87%Z with (77 + Z.of_nat (length (map snd (adjusted_of text))))%Z
    by (rewrite Hl; reflexivity).
  apply fold_fadd_bounded; [| apply bounded_zero; zlia | zlia | rewrite Hl; zlia].
  rewrite Forall_map. unfold adjusted_of. rewrite !map_map, Forall_map.
  apply Forall_forall. intros entry Hin. cbn [fst snd].
  apply adjusted_bounded; [exact Hfit|]. apply list_elem_of_In. exact Hin.
Qed.

Lemma means_of_one (a : Analysis) :
  map fst (dimension_scores a) = REGISTRY_KEYS ->
  Forall (fun ds => rounded (snd ds)) (dimension_scores a) ->
  map (fun dim => (dim, mean_score dim [a])) REGISTRY_KEYS = dimension_scores a.
Proof.
  intros Hkeys Hr.
  assert (Hnd : NoDup (map fst (dimension_scores a))).
  { rewrite Hkeys. apply registry_keys_NoDup. }
  symmetry. etransitivity; [apply (dict_from_lookups (Fin 0) _ Hnd)|].
  rewrite Hkeys. apply map_ext_in. intros k Hk. apply list_elem_of_In in Hk.
  f_equal. symmetry. unfold mean_score. cbn [map length].
  fold (score_at k a). apply mean_of_one.
  unfold score_at.
  assert (Hin : k ∈ map fst (dimension_scores a)) by (rewrite Hkeys; exact Hk).
  destruct (dict_get_in_keys k _ Hin) as (v & Hv). rewrite Hv. cbn [default]. unfold id.
  apply (dict_get_elem k v _ Hnd) in Hv.
  rewrite Forall_forall in Hr. apply (Hr _ Hv).
Qed.

(** * The mean and the maximum *)

Section MeanAndMaximum.
Local Open Scope Z_scope.









End MeanAndMaximum.


(** * A batch with a content that is not a text *)

Lemma scan_messages_raises before m after :
  Forall text_content before ->
  has_content m = true -> isinstance_str (content_of m) = false ->
  forall analyses by_sender w,
    scan_messages (before ++ m :: after) analyses by_sender w =
    (Raise (ValueError "Text must be a non-empty string"),
     Nat.iter (length (List.filter has_content before)) tick w).
Proof.
  intros Hbefore Hc Hstr.
  induction Hbefore as [|x l Hx Hl IH]; intros analyses by_sender w.
  - cbn [app scan_messages List.filter length Nat.iter].
    fold (content_of m). fold (has_content m). rewrite Hc.
    unfold bind. rewrite analyze_raises by (right; exact Hstr). reflexivity.
  - cbn [app scan_messages List.filter]. fold (content_of x). fold (sender_of x).
    fold (has_content x).
    destruct (has_content x) eqn:Hcx.
    + destruct (has_content_str x Hx Hcx) as (s & Hs & Hne).
      unfold bind. rewrite Hs. rewrite (analyze_str s _ w Hne).
      rewrite IH. cbn [length]. rewrite Nat.iter_succ_r. reflexivity.
    + apply IH.
Qed.

(** * The level and the dominant score *)



(** * A text without amplifiers and diminishers *)

Section PlainText.
Local Open Scope Z_scope.

Lemma rhe_scale a b c : 0 < b -> 0 < c -> rhe (a * c) (b * c) = rhe a b.
Proof.
  intros Hb Hc. unfold rhe.
  rewrite Z.div_mul_cancel_r by zlia.
  rewrite Z.mul_mod_distr_r by zlia.
  set (q := a / b). set (r := a mod b).
  destruct (Z.ltb_spec (2 * r) b), (Z.ltb_spec (2 * (r * c)) (b * c)); try reflexivity; try znia.
  destruct (Z.ltb_spec b (2 * r)), (Z.ltb_spec (b * c) (2 * (r * c))); try reflexivity; znia.
Qed.

Lemma rnd_int_scale n d c : 0 < d -> 0 < c -> rnd_int (n * c) (d * c) = rnd_int n d.
Proof.
  intros Hd Hc. rewrite !rnd_int_unfold.
  replace (n * c * 2 ^ 1074) with (n * 2 ^ 1074 * c) by ring.
  rewrite Z.div_mul_cancel_r by zlia.
  set (g := quantum (n * 2 ^ 1074 / d)).
  assert (0 < 2 ^ g) by (apply Z.pow_pos_nonneg; unfold g, quantum; zlia).
  replace (d * c * 2 ^ g) with (d * 2 ^ g * c) by ring.
  rewrite rhe_scale by znia. reflexivity.
Qed.

Lemma fmul_one k : representable k -> fmul (Fin k) (lit 1 1) = Fin k.
Proof.
  intros Hr. pose proof Hr as [[Hk0 Hk1] _]. rewrite lit_one. cbn [fmul].
  assert (HU : 0 < 2 ^ 1074) by (apply Z.pow_pos_nonneg; zlia).
  replace (2 ^ 2148) with (2 ^ 1074 * 2 ^ 1074) by (rewrite <- Z.pow_add_r by zlia; reflexivity).
  unfold rnd, rnd_pos.
  destruct (Z.ltb_spec (k * 2 ^ 1074) 0) as [?|_]; [znia|].
  rewrite rnd_int_scale by exact HU. rewrite (rnd_int_fixed k Hr).
  destruct (Z.ltb_spec k (2 ^ 2098)); [reflexivity|zlia].
Qed.

End PlainText.

Lemma modifier_plain s :
  count_matches _amplifiers s = 0 -> count_matches _diminishers s = 0 ->
  _calculate_intensity_modifier s = lit 1 1.
Proof.
  intros HA HD. unfold _calculate_intensity_modifier. rewrite HA, HD.
  vm_compute. reflexivity.
Qed.

Lemma round2_one : round2 (lit 1 1) = lit 1 1.
Proof. vm_compute. reflexivity. Qed.

(** The rounded score per 100 words of a dimension. *)
Lemma normalized_rounded text entry :
  fits_ssize text -> In entry _compiled_patterns ->
  rounded (snd (fst (pure_row text entry))).
Proof.
  intros Hfit Hin. destruct entry as [dim ps].
  destruct (weight_bounded dim ps Hin) as (_ & Hw & Hps).
  unfold pure_row. cbn [fst snd].
  set (matches := flat_map (fun pattern => findall pattern text) ps).
  assert (Hn : (0 <= Z.of_nat (length matches) <= 2 ^ 68)%Z).
  { pose proof (matches_length ps text) as Hm. fold matches in Hm.
    unfold fits_ssize in Hfit. split; [lia|].
    assert (length matches <= 21 * S (String.length text)) by nia.
    change (2 ^ 68)%Z with (32 * 2 ^ 63)%Z. lia. }
  assert (Hraw : bounded (fmul (of_int (Z.of_nat (length matches))) (weight_of dim)) 69).
  { change 69%Z with (68 + 1)%Z. apply fmul_bounded; [|exact Hw|lia|lia|lia].
    apply of_int_bounded; lia. }
  apply (bounded_rounded _ 76); [|lia].
  destruct (Nat.ltb_spec 0 (length (split text))) as [Hwc|Hwc].
  - change 76%Z with (69 + 7)%Z. apply fmul_bounded; [| |lia|lia|lia].
    + apply fdiv_bounded; [exact Hraw | apply of_int_at_least_one; lia | lia].
    + apply of_int_bounded; [|lia]. change (2 ^ 7)%Z with 128%Z. lia.
  - apply bounded_zero. lia.
Qed.

(** * The order of the scores *)

Section ScoreOrder.
Local Open Scope Z_scope.

Lemma rnd_below n1 d1 n2 d2 e :
  0 <= n1 -> 0 < d1 -> 0 < d2 -> n1 * d2 <= n2 * d1 -> n2 <= 2 ^ e * d2 ->
  0 <= e <= 1023 -> below (rnd n1 d1) (rnd n2 d2) e.
Proof.
  intros Hn1 Hd1 Hd2 Hle Hhi He.
  assert (Hp : 0 < 2 ^ e) by (apply Z.pow_pos_nonneg; zlia).
  assert (Hn2 : 0 <= n2) by znia.
  assert (Hhi1 : n1 <= 2 ^ e * d1).
  { assert (n1 * d2 <= 2 ^ e * d1 * d2) by znia. znia. }
  destruct (rnd_fle n1 d1 n2 d2 e Hn1 Hd1 Hd2 Hle Hhi He) as (a & b & Ha & Hb & Hab).
  destruct (rnd_bounded n1 d1 e Hn1 Hd1 Hhi1 He) as (a' & Ha' & Ha0 & _).
  destruct (rnd_bounded n2 d2 e Hn2 Hd2 Hhi He) as (b' & Hb' & _ & Hb1).
  rewrite Ha in Ha'. injection Ha' as <-. rewrite Hb in Hb'. injection Hb' as <-.
  exists a, b. auto.
Qed.

Lemma below_bounded x e : bounded x e -> below x x e.
Proof. intros (k & -> & Hk). exists k, k. repeat split; zlia. Qed.

Lemma below_of_int a b e :
  0 <= a <= b -> b <= 2 ^ e -> 0 <= e <= 1023 -> below (of_int a) (of_int b) e.
Proof. intros Hab Hb He. apply rnd_below; zlia. Qed.

Lemma below_fmul x x' y y' ea eb :
  below x x' ea -> below y y' eb -> 0 <= ea -> 0 <= eb -> ea + eb <= 1023 ->
  below (fmul x y) (fmul x' y') (ea + eb).
Proof.
  intros (a & a' & -> & -> & Ha & Ha') (b & b' & -> & -> & Hb & Hb') Hea Heb He.
  cbn [fmul].
  assert (HU : 0 < 2 ^ 1074) by (apply Z.pow_pos_nonneg; zlia).
  assert (Hpa : 0 < 2 ^ ea) by (apply Z.pow_pos_nonneg; zlia).
  assert (Hpb : 0 < 2 ^ eb) by (apply Z.pow_pos_nonneg; zlia).
  assert (HUU : 0 < 2 ^ 2148) by (apply Z.pow_pos_nonneg; zlia).
  apply rnd_below; [znia | exact HUU | exact HUU | | | zlia].
  - apply Z.mul_le_mono_nonneg_r; [zlia|]. apply Z.mul_le_mono_nonneg; zlia.
  - replace (2 ^ 2148) with (2 ^ 1074 * 2 ^ 1074) by (rewrite <- Z.pow_add_r by zlia; reflexivity).
    rewrite Z.pow_add_r by zlia.
    transitivity ((2 ^ ea * 2 ^ 1074) * (2 ^ eb * 2 ^ 1074)); [|zlia].
    apply Z.mul_le_mono_nonneg; zlia.
Qed.

Lemma below_fdiv x x' y e :
  below x x' e -> at_least_one y -> 0 <= e <= 1023 -> below (fdiv x y) (fdiv x' y) e.
Proof.
  intros (a & a' & -> & -> & Ha & Ha') [(b & -> & Hb)| ->] He.
  - assert (HU : 0 < 2 ^ 1074) by (apply Z.pow_pos_nonneg; zlia).
    assert (Hp : 0 < 2 ^ e) by (apply Z.pow_pos_nonneg; zlia).
    cbn [fdiv]. destruct (Z.ltb_spec 0 b) as [_|?]; [|zlia].
    apply rnd_below; [zlia | zlia | zlia | znia | znia | zlia].
  - cbn [fdiv]. apply below_bounded. apply bounded_zero. zlia.
Qed.

Lemma below_round2 x x' e :
  below x x' e -> 0 <= e <= 1023 -> below (round2 x) (round2 x') e.
Proof.
  intros (a & a' & -> & -> & Ha & Ha') He. cbn [round2].
  assert (HU : 0 < 2 ^ 1074) by (apply Z.pow_pos_nonneg; zlia).
  assert (Hp : 0 < 2 ^ e) by (apply Z.pow_pos_nonneg; zlia).
  apply rnd_below; [apply rhe_nonneg; zlia | zlia | zlia | | | zlia].
  - apply Z.mul_le_mono_nonneg_r; [zlia|]. apply rhe_mono; zlia.
  - apply rhe_le_int; [zlia|]. znia.
Qed.

Lemma below_fle x y e : below x y e -> fle x y.
Proof. intros (a & b & -> & -> & Hab & _). exists a, b. repeat split; zlia. Qed.

End ScoreOrder.

(** [score_of] grows with the weight and with the number of matches. *)
Lemma score_of_mono w1 w2 n1 n2 wc a d :
  below w1 w2 1 -> (n1 <= n2)%nat -> (Z.of_nat n2 <= 2 ^ 68)%Z ->
  fle (score_of w1 n1 wc a d) (score_of w2 n2 wc a d).
Proof.
  intros Hw Hn Hn2. unfold score_of.
  apply (below_fle _ _ 77). apply below_round2; [|lia].
  change 77%Z with (76 + 1)%Z. apply below_fmul; [| |lia|lia|lia].
  - apply below_round2; [|lia].
    destruct (Nat.ltb_spec 0 wc) as [Hwc|Hwc].
    + change 76%Z with (69 + 7)%Z. apply below_fmul; [| |lia|lia|lia].
      * apply below_fdiv; [|apply of_int_at_least_one; lia|lia].
        change 69%Z with (68 + 1)%Z. apply below_fmul; [|exact Hw|lia|lia|lia].
        apply below_of_int; lia.
      * apply below_bounded. apply of_int_bounded; [|lia].
        change (2 ^ 7)%Z with 128%Z. lia.
    + apply below_bounded. apply bounded_zero. lia.
  - apply below_bounded.
    destruct (modifier_range
      (fsub (fadd (lit 1 1) (fmul (of_int (Z.of_nat a)) (lit 1 10)))
         (fmul (of_int (Z.of_nat d)) (lit 1 10)))) as (k & -> & Hk).
    exists k. split; [reflexivity|].
    assert (0 < 2 ^ 1073)%Z by (apply Z.pow_pos_nonneg; lia).
    change (2 ^ 1)%Z with 2%Z. zlia.
Qed.

Lemma compiled_NoDup : NoDup (map fst _compiled_patterns).
Proof. rewrite compiled_keys. apply registry_keys_NoDup. Qed.

Lemma score_at_adjusted s t ctx dim ps :
  In (dim, ps) _compiled_patterns ->
  score_at dim (record_of t s ctx) =
  score_of (weight_of dim) (match_count s ps) (length (split s))
    (count_matches _amplifiers s) (count_matches _diminishers s).
Proof.
  intros Hin. unfold score_at. cbn [dimension_scores record_of].
  rewrite adjusted_score.
  assert (Hget : dict_get dim _compiled_patterns = Some ps).
  { apply dict_get_elem; [apply compiled_NoDup | apply list_elem_of_In; exact Hin]. }
  rewrite Hget. reflexivity.
Qed.

(** * Two places *)

Lemma modifier_rounded text : rounded (round2 (_calculate_intensity_modifier text)).
Proof. apply (bounded_rounded _ 1); [apply modifier_bounded | lia]. Qed.

(** * Further properties *)

(** X1. Whatever [analyze] is given, it leaves the profiles alone; it reads the
    clock once when it returns an analysis and not at all when it raises. *)
Theorem X1_analyze_reads_clock_once (text : pyval) (ctx : option string) (w : World) :
  profiles (snd (analyze text ctx w)) = profiles w /\
  clock (snd (analyze text ctx w)) = clock w /\
  ticks (snd (analyze text ctx w)) =
    match fst (analyze text ctx w) with
    | Ok _ => S (ticks w)
    | Raise _ => ticks w
    end.
Proof.
  destruct text as [| b | z | s | b].
  - rewrite analyze_raises by (left; reflexivity). auto.
  - rewrite analyze_raises by (right; reflexivity). auto.
  - rewrite analyze_raises by (right; reflexivity). auto.
  - destruct (String.eqb_spec s "") as [->|Hs].
    + rewrite analyze_raises by (left; reflexivity). auto.
    + rewrite (analyze_str s ctx w Hs). auto.
  - rewrite analyze_raises by (right; reflexivity). auto.
Qed.

(** X2. Two tokens are at least one space apart: twice the word count is at
    most the length of the text plus one. *)
Theorem X2_word_count_at_most_half_length (s : string) (ctx : option string) (w : World) :
  s <> ""%string ->
  exists a w',
    analyze (PyStr s) ctx w = (Ok a, w') /\
    text_length a = String.length s /\
    2 * word_count a <= text_length a + 1.
Proof.
  intros Hs. rewrite (analyze_str s ctx w Hs).
  eexists _, _. split; [reflexivity|]. cbn [text_length word_count record_of].
  split; [reflexivity|].
  unfold split. rewrite <- length_list_ascii.
  apply (split_at_bound (list_ascii_of_string s) []).
Qed.

Lemma X2_witness :
  "i am happy"%string <> ""%string /\
  exists a w',
    analyze (PyStr "i am happy") None world0 = (Ok a, w') /\
    text_length a = String.length "i am happy" /\
    2 * word_count a <= text_length a + 1.
Proof.
  split; [discriminate|].
  apply X2_word_count_at_most_half_length. discriminate.
Defined.

(** X3. The scores do not depend on the case of the letters: the text and its
    lower-cased copy get the same analysis, but for the matches reported,
    which are those of the text in lower case. *)
Theorem X3_scoring_ignores_case (s : string) (ctx : option string) (w : World) :
  s <> ""%string ->
  exists a a' w',
    analyze (PyStr s) ctx w = (Ok a, w') /\
    analyze (PyStr (str_lower s)) ctx w = (Ok a', w') /\
    scoring a' = scoring a /\
    dimension_matches a' =
      map (fun dm => (fst dm, set_map str_lower (snd dm) : gset string))
        (dimension_matches a).
Proof.
  intros Hs.
  rewrite (analyze_str s ctx w Hs).
  rewrite (analyze_str (str_lower s) ctx w (str_lower_nonempty s Hs)).
  eexists _, _, _. split; [reflexivity|]. split; [reflexivity|].
  unfold scoring.
  cbn [record_of text_length word_count dimension_scores dominant_emotion
       dominant_score overall_intensity intensity_level intensity_modifier
       emotional_signature dimension_matches].
  rewrite adjusted_lower, modifier_lower, split_lower, length_str_lower.
  split; [reflexivity|].
  rewrite !map_map. apply map_ext. intros e. rewrite pure_row_lower.
  cbn [fst snd]. f_equal. apply list_to_set_lower.
Qed.

Lemma X3_witness :
  "I aM HaPpY"%string <> ""%string /\
  exists a a' w',
    analyze (PyStr "I aM HaPpY") None world0 = (Ok a, w') /\
    analyze (PyStr (str_lower "I aM HaPpY")) None world0 = (Ok a', w') /\
    scoring a' = scoring a /\
    dimension_matches a' =
      map (fun dm => (fst dm, set_map str_lower (snd dm) : gset string))
        (dimension_matches a).
Proof.
  split; [discriminate|].
  apply X3_scoring_ignores_case. discriminate.
Defined.

(** X4. Every match that [analyze] reports is a piece of the text, and not the
    empty one. *)
Theorem X4_matches_occur_in_text (s : string) (ctx : option string) (w : World) :
  s <> ""%string ->
  exists a w',
    analyze (PyStr s) ctx w = (Ok a, w') /\
    map fst (dimension_matches a) = REGISTRY_KEYS /\
    Forall (fun dm => forall m, m ∈ snd dm -> m <> ""%string /\ occurs_in m s)
      (dimension_matches a).
Proof.
  intros Hs. rewrite (analyze_str s ctx w Hs).
  eexists _, _. split; [reflexivity|].
  cbn [dimension_matches record_of]. split.
  - rewrite !map_map. cbn [fst]. unfold REGISTRY_KEYS. rewrite <- compiled_keys.
    apply map_ext. intros e. reflexivity.
  - rewrite !map_map, Forall_map. apply Forall_forall. intros [dim ps] Hin.
    apply list_elem_of_In in Hin.
    cbn [fst snd pure_row]. intros m Hm. rewrite elem_of_list_to_set in Hm.
    apply list_elem_of_In in Hm. rewrite in_flat_map in Hm.
    destruct Hm as (r & Hr & Hm).
    pose proof registry_consumes as Hc. rewrite forallb_forall in Hc.
    specialize (Hc _ Hin). cbn [snd] in Hc. rewrite forallb_forall in Hc.
    specialize (Hc _ Hr).
    pose proof (findall_occurs r s) as Hall. rewrite Forall_forall in Hall.
    apply list_elem_of_In in Hm.
    destruct (Hall m Hm) as [Hne Hocc]. split; [apply Hne; exact Hc | exact Hocc].
Qed.

Lemma X4_witness :
  "i am happy"%string <> ""%string /\
  exists a w',
    analyze (PyStr "i am happy") None world0 = (Ok a, w') /\
    map fst (dimension_matches a) = REGISTRY_KEYS /\
    Forall (fun dm => forall m, m ∈ snd dm ->
                                m <> ""%string /\ occurs_in m "i am happy")
      (dimension_matches a).
Proof.
  split; [discriminate|].
  apply X4_matches_occur_in_text. discriminate.
Defined.

(** X5. A dimension none of whose patterns matches gets the score 0.0: a
    positive score always comes with a match. *)
Theorem X5_no_match_no_score (s : string) (ctx : option string) (w : World) :
  s <> ""%string ->
  exists a w',
    analyze (PyStr s) ctx w = (Ok a, w') /\
    Forall2 (fun ds dm => fst ds = fst dm /\ (snd dm = ∅ -> snd ds = Fin 0))
      (dimension_scores a) (dimension_matches a).
Proof.
  intros Hs. rewrite (analyze_str s ctx w Hs).
  eexists _, _. split; [reflexivity|].
  cbn [dimension_scores dimension_matches record_of]. unfold adjusted_of.
  rewrite !map_map. apply Forall2_fmap. apply Forall_Forall2_diag.
  apply Forall_forall. intros entry Hin. apply list_elem_of_In in Hin.
  cbn [fst snd]. split; [reflexivity|].
  intros He. apply list_to_set_empty in He. apply pure_row_zero; assumption.
Qed.

Lemma X5_witness :
  "i am happy"%string <> ""%string /\
  exists a w',
    analyze (PyStr "i am happy") None world0 = (Ok a, w') /\
    Forall2 (fun ds dm => fst ds = fst dm /\ (snd dm = ∅ -> snd ds = Fin 0))
      (dimension_scores a) (dimension_matches a).
Proof.
  split; [discriminate|].
  apply X5_no_match_no_score. discriminate.
Defined.

(** X6. Within one analysis, a dimension with no fewer matches than another
    and no smaller weight gets no smaller score. *)
Theorem X6_more_matches_score_higher (s : string) (ctx : option string) (w : World)
    (entry1 entry2 : string * list regex) :
  s <> ""%string -> fits_ssize s ->
  In entry1 _compiled_patterns -> In entry2 _compiled_patterns ->
  match_count s (snd entry1) <= match_count s (snd entry2) ->
  fle (weight_of (fst entry1)) (weight_of (fst entry2)) ->
  exists a w',
    analyze (PyStr s) ctx w = (Ok a, w') /\
    fle (score_at (fst entry1) a) (score_at (fst entry2) a).
Proof.
  destruct entry1 as [dim1 ps1], entry2 as [dim2 ps2]. cbn [fst snd].
  intros Hs Hfit Hin1 Hin2 Hn Hw. rewrite (analyze_str s ctx w Hs).
  eexists _, _. split; [reflexivity|].
  rewrite (score_at_adjusted s _ ctx dim1 ps1 Hin1).
  rewrite (score_at_adjusted s _ ctx dim2 ps2 Hin2).
  destruct (weight_bounded dim2 ps2 Hin2) as (_ & (k2 & Hk2 & Hb2) & Hps2).
  destruct (weight_bounded dim1 ps1 Hin1) as (_ & (k1 & Hk1 & Hb1) & _).
  apply score_of_mono; [| exact Hn |].
  - destruct Hw as (a & b & Ea & Eb & Hab). rewrite Hk1 in Ea. rewrite Hk2 in Eb.
    injection Ea as <-. injection Eb as <-.
    exists k1, k2. rewrite Hk1, Hk2. repeat split; lia.
  - pose proof (matches_length ps2 s) as Hm. unfold match_count.
    unfold fits_ssize in Hfit.
    assert (length (flat_map (fun p => findall p s) ps2) <= 21 * S (String.length s)) by nia.
    change (2 ^ 68)%Z with (32 * 2 ^ 63)%Z. lia.
Qed.

Lemma X6_witness :
  "i am happy"%string <> ""%string /\ fits_ssize "i am happy" /\
  In warmth_entry _compiled_patterns /\ In joy_entry _compiled_patterns /\
  match_count "i am happy" (snd warmth_entry) <=
    match_count "i am happy" (snd joy_entry) /\
  fle (weight_of (fst warmth_entry)) (weight_of (fst joy_entry)) /\
  exists a w',
    analyze (PyStr "i am happy") None world0 = (Ok a, w') /\
    fle (score_at (fst warmth_entry) a) (score_at (fst joy_entry) a).
Proof.
  assert (H1 : "i am happy"%string <> ""%string) by discriminate.
  assert (H2 : fits_ssize "i am happy") by reflexivity.
  assert (H3 : In warmth_entry _compiled_patterns).
  { apply nth_In. rewrite compiled_length. lia. }
  assert (H4 : In joy_entry _compiled_patterns).
  { apply nth_In. rewrite compiled_length. lia. }
  assert (H5 : match_count "i am happy" (snd warmth_entry) <=
               match_count "i am happy" (snd joy_entry)).
  { apply Nat.leb_le. vm_compute. reflexivity. }
  assert (H6 : fle (weight_of (fst warmth_entry)) (weight_of (fst joy_entry))).
  { eexists _, _. split; [vm_compute; reflexivity|]. split; [vm_compute; reflexivity|].
    apply Z.leb_le. vm_compute. reflexivity. }
  repeat (split; [assumption|]).
  apply (X6_more_matches_score_higher "i am happy" None world0 warmth_entry joy_entry H1 H2 H3 H4 H5 H6).
Defined.

(** X7. Whatever the text, the modifier lies between 0.5 and 2.0, and so does
    the [intensity_modifier] that [analyze] reports, which is the modifier
    rounded to two places. *)
Theorem X7_intensity_modifier_in_range (s : string) (ctx : option string) (w : World) :
  s <> ""%string ->
  fle (lit 5 10) (_calculate_intensity_modifier s) /\
  fle (_calculate_intensity_modifier s) (lit 2 1) /\
  exists a w',
    analyze (PyStr s) ctx w = (Ok a, w') /\
    intensity_modifier a = round2 (_calculate_intensity_modifier s) /\
    fle (lit 5 10) (intensity_modifier a) /\
    fle (intensity_modifier a) (lit 2 1).
Proof.
  intros Hs. destruct (modifier_fle s) as (H1 & H2 & H3 & H4).
  split; [exact H1|]. split; [exact H2|].
  rewrite (analyze_str s ctx w Hs).
  eexists _, _. split; [reflexivity|]. cbn [intensity_modifier record_of]. auto.
Qed.

Lemma X7_witness :
  fifteen_amplifiers <> ""%string /\
  fle (lit 5 10) (_calculate_intensity_modifier fifteen_amplifiers) /\
  fle (_calculate_intensity_modifier fifteen_amplifiers) (lit 2 1) /\
  exists a w',
    analyze (PyStr fifteen_amplifiers) None world0 = (Ok a, w') /\
    intensity_modifier a = round2 (_calculate_intensity_modifier fifteen_amplifiers) /\
    fle (lit 5 10) (intensity_modifier a) /\
    fle (intensity_modifier a) (lit 2 1).
Proof.
  split; [discriminate|].
  apply X7_intensity_modifier_in_range. discriminate.
Defined.

(** X8. A text in which no amplifier and no diminisher occurs has the modifier
    1.0, and each of its scores is the score per 100 words of the
    dimension, rounded to two places: the second rounding changes
    nothing. *)
Theorem X8_plain_text_keeps_scores (s : string) (ctx : option string) (w : World) :
  s <> ""%string -> fits_ssize s ->
  count_matches _amplifiers s = 0 -> count_matches _diminishers s = 0 ->
  exists a w',
    analyze (PyStr s) ctx w = (Ok a, w') /\
    intensity_modifier a = lit 1 1 /\
    dimension_scores a = normalized_scores s.
Proof.
  intros Hs Hfit HA HD. rewrite (analyze_str s ctx w Hs).
  eexists _, _. split; [reflexivity|].
  cbn [intensity_modifier dimension_scores record_of].
  rewrite (modifier_plain s HA HD). split; [apply round2_one|].
  unfold adjusted_of, normalized_scores. rewrite (modifier_plain s HA HD), !map_map.
  apply map_ext_in. intros entry Hin. cbn [fst snd].
  pose proof (normalized_rounded s entry Hfit Hin) as Hr.
  destruct (pure_row s entry) as [[dim x] ms]. cbn [fst snd] in *. f_equal.
  pose proof Hr as (a & k & _ & _ & Hk).
  rewrite Hk at 1. rewrite (fmul_one k (rounded_representable x k Hr Hk)).
  rewrite <- Hk. apply round2_rounded. exact Hr.
Qed.

Lemma X8_witness :
  "i am happy"%string <> ""%string /\ fits_ssize "i am happy" /\
  count_matches _amplifiers "i am happy" = 0 /\
  count_matches _diminishers "i am happy" = 0 /\
  exists a w',
    analyze (PyStr "i am happy") None world0 = (Ok a, w') /\
    intensity_modifier a = lit 1 1 /\
    dimension_scores a = normalized_scores "i am happy".
Proof.
  assert (H1 : "i am happy"%string <> ""%string) by discriminate.
  assert (H2 : fits_ssize "i am happy") by reflexivity.
  assert (H3 : count_matches _amplifiers "i am happy" = 0) by (vm_compute; reflexivity).
  assert (H4 : count_matches _diminishers "i am happy" = 0) by (vm_compute; reflexivity).
  repeat (split; [assumption|]).
  apply (X8_plain_text_keeps_scores "i am happy" None world0 H1 H2 H3 H4).
Defined.

(** X9. The numbers [analyze] reports have two decimal places: rounding them to
    two places again gives the same floats. *)
Theorem X9_reported_numbers_have_two_places (s : string) (ctx : option string) (w : World) :
  s <> ""%string -> fits_ssize s ->
  exists a w',
    analyze (PyStr s) ctx w = (Ok a, w') /\
    Forall (fun ds => round2 (snd ds) = snd ds) (dimension_scores a) /\
    round2 (dominant_score a) = dominant_score a /\
    round2 (overall_intensity a) = overall_intensity a /\
    round2 (intensity_modifier a) = intensity_modifier a.
Proof.
  intros Hs Hfit. rewrite (analyze_str s ctx w Hs).
  eexists _, _. split; [reflexivity|].
  cbn [dimension_scores dominant_score overall_intensity intensity_modifier record_of].
  pose proof (adjusted_rounded s Hfit) as Hr.
  split; [|split; [|split]].
  - eapply Forall_impl; [exact Hr|]. intros ds Hds. apply round2_rounded. exact Hds.
  - apply round2_rounded. rewrite Forall_forall in Hr. apply Hr. apply dominant_of_in.
    intros H. pose proof (adjusted_length s) as HL. rewrite H in HL. discriminate.
  - apply round2_rounded. apply overall_rounded. exact Hfit.
  - apply round2_rounded. apply modifier_rounded.
Qed.

Lemma X9_witness :
  "i am happy"%string <> ""%string /\ fits_ssize "i am happy" /\
  exists a w',
    analyze (PyStr "i am happy") None world0 = (Ok a, w') /\
    Forall (fun ds => round2 (snd ds) = snd ds) (dimension_scores a) /\
    round2 (dominant_score a) = dominant_score a /\
    round2 (overall_intensity a) = overall_intensity a /\
    round2 (intensity_modifier a) = intensity_modifier a.
Proof.
  split; [discriminate|]. split; [reflexivity|].
  apply X9_reported_numbers_have_two_places; [discriminate | reflexivity].
Defined.





(** X12. The signature names at most three dimensions, all of them with a
    positive score, the greater scores first; it has as many entries as
    there are positive scores, up to three, and when the dominant score is
    positive the dominant dimension leads it. *)
Theorem X12_signature_leads_with_dominant (s : string) (ctx : option string) (w : World) :
  s <> ""%string -> fits_ssize s ->
  exists a w',
    analyze (PyStr s) ctx w = (Ok a, w') /\
    length (emotional_signature a) =
      min 3 (length (List.filter positive (dimension_scores a))) /\
    Forall (fun e => e ∈ dimension_scores a /\ positive e = true)
      (emotional_signature a) /\
    descending (emotional_signature a) /\
    head (emotional_signature a) =
      (if fgtb (dominant_score a) (Fin 0)
       then Some (dominant_emotion a, dominant_score a) else None).
Proof.
  intros Hs Hfit. rewrite (analyze_str s ctx w Hs).
  eexists _, _. split; [reflexivity|].
  cbn [emotional_signature dimension_scores dominant_emotion dominant_score record_of].
  assert (Hne : adjusted_of s <> []).
  { intros H. pose proof (adjusted_length s) as HL. rewrite H in HL. discriminate. }
  assert (Hfin : Forall (fun e => exists k, snd e = Fin k) (adjusted_of s)).
  { eapply Forall_impl; [apply adjusted_values; exact Hfit|].
    intros ds (e & k & Hk & _). exists k. exact Hk. }
  destruct (signature_spec (adjusted_of s) Hne Hfin) as (H1 & H2 & H3 & H4).
  split; [exact H1|]. split; [exact H2|]. split; [exact H3|].
  rewrite H4. unfold positive.
  generalize (dominant_of (adjusted_of s)). intros [dim score]. reflexivity.
Qed.

Lemma X12_witness :
  "i am happy"%string <> ""%string /\ fits_ssize "i am happy" /\
  exists a w',
    analyze (PyStr "i am happy") None world0 = (Ok a, w') /\
    length (emotional_signature a) =
      min 3 (length (List.filter positive (dimension_scores a))) /\
    Forall (fun e => e ∈ dimension_scores a /\ positive e = true)
      (emotional_signature a) /\
    descending (emotional_signature a) /\
    head (emotional_signature a) =
      (if fgtb (dominant_score a) (Fin 0)
       then Some (dominant_emotion a, dominant_score a) else None).
Proof.
  split; [discriminate|]. split; [reflexivity|].
  apply X12_signature_leads_with_dominant; [discriminate | reflexivity].
Defined.

(** X13. When every score is zero, as for a text that no pattern matches, the
    dominant emotion is the first of the registry, [WARMTH], with the score
    0.0; the overall intensity is 0.0, the level is subtle and the signature
    is empty. *)
Theorem X13_no_emotion_defaults_to_warmth (s : string) (ctx : option string) (w : World) :
  s <> ""%string ->
  exists a w',
    analyze (PyStr s) ctx w = (Ok a, w') /\
    (Forall (fun ds => snd ds = Fin 0) (dimension_scores a) ->
     dominant_emotion a = "WARMTH"%string /\ dominant_score a = Fin 0 /\
     overall_intensity a = Fin 0 /\ intensity_level a = "subtle"%string /\
     emotional_signature a = []).
Proof.
  intros Hs. rewrite (analyze_str s ctx w Hs).
  eexists _, _. split; [reflexivity|].
  cbn [dimension_scores dominant_emotion dominant_score overall_intensity
       intensity_level emotional_signature record_of].
  intros Hz. rewrite (adjusted_all_zero s Hz).
  vm_compute. repeat split; reflexivity.
Qed.

Lemma X13_witness :
  " "%string <> ""%string /\
  exists a w',
    analyze (PyStr " ") None world0 = (Ok a, w') /\
    Forall (fun ds => snd ds = Fin 0) (dimension_scores a) /\
    dominant_emotion a = "WARMTH"%string /\ dominant_score a = Fin 0 /\
    overall_intensity a = Fin 0 /\ intensity_level a = "subtle"%string /\
    emotional_signature a = [].
Proof.
  split; [discriminate|].
  destruct (X13_no_emotion_defaults_to_warmth " " None world0 ltac:(discriminate)) as (a & w' & Hrun & Hz).
  exists a, w'. split; [exact Hrun|].
  assert (H0 : Forall (fun ds => snd ds = Fin 0) (dimension_scores a)).
  { rewrite analyze_str in Hrun by discriminate. injection Hrun as <- _.
    cbn [dimension_scores record_of]. apply adjusted_zero. reflexivity. }
  split; [exact H0 | exact (Hz H0)].
Defined.

(** X14. A batch in which no message has a content is not an error: nothing is
    analysed, no sender is listed and the dominant emotion is [UNKNOWN]. *)
Theorem X14_batch_without_content (messages : list Message) (w : World) :
  messages <> [] -> Forall (fun m => has_content m = false) messages ->
  analyze_messages messages w =
  (Ok {| total_messages := length messages;
         analyzed_messages := 0;
         average_scores := [];
         dominant_overall := "UNKNOWN";
         emotional_arc := [];
         by_sender := [];
         individual_analyses := [] |}, w).
Proof.
  intros Hne Hskip.
  rewrite (analyze_messages_scan messages w [] [] w Hne
             (scan_messages_skip messages [] [] w Hskip)).
  reflexivity.
Qed.

Lemma X14_witness :
  [message "" "CLIO"] <> [] /\
  Forall (fun m => has_content m = false) [message "" "CLIO"] /\
  analyze_messages [message "" "CLIO"] world0 =
  (Ok {| total_messages := 1;
         analyzed_messages := 0;
         average_scores := [];
         dominant_overall := "UNKNOWN";
         emotional_arc := [];
         by_sender := [];
         individual_analyses := [] |}, world0).
Proof.
  assert (H1 : [message "" "CLIO"] <> []) by discriminate.
  assert (H2 : Forall (fun m => has_content m = false) [message "" "CLIO"]).
  { constructor; [reflexivity|constructor]. }
  split; [exact H1|]. split; [exact H2|].
  apply (X14_batch_without_content [message "" "CLIO"] world0 H1 H2).
Defined.

(** X15. The first message whose content is neither a text nor false stops the
    batch: [analyze_messages] raises the [ValueError] of [analyze], after
    one clock reading for every message analysed before it. *)
Theorem X15_batch_stops_at_bad_content (before after : list Message) (m : Message)
    (w : World) :
  Forall text_content before ->
  has_content m = true -> isinstance_str (content_of m) = false ->
  analyze_messages (before ++ m :: after) w =
  (Raise (ValueError "Text must be a non-empty string"),
   Nat.iter (length (List.filter has_content before)) tick w).
Proof.
  intros Hbefore Hc Hstr. unfold analyze_messages.
  destruct (before ++ m :: after) as [|x l] eqn:E.
  - destruct before; discriminate E.
  - rewrite <- E. unfold bind at 1.
    rewrite (scan_messages_raises before m after Hbefore Hc Hstr). reflexivity.
Qed.

Lemma X15_witness :
  Forall text_content [message "happy" "FORGE"] /\
  has_content number_message = true /\
  isinstance_str (content_of number_message) = false /\
  analyze_messages ([message "happy" "FORGE"] ++ number_message :: []) world0 =
  (Raise (ValueError "Text must be a non-empty string"), tick world0).
Proof.
  assert (H1 : Forall text_content [message "happy" "FORGE"]).
  { constructor; [exact I|constructor]. }
  split; [exact H1|]. split; [reflexivity|]. split; [reflexivity|].
  apply (X15_batch_stops_at_bad_content [message "happy" "FORGE"] [] number_message world0 H1 eq_refl eq_refl).
Defined.

(** X16. [analyze_messages] leaves the profiles alone and reads the clock once
    for every message it analyses; [by_sender] lists every sender once, and
    its counts add up to the number of analysed messages. *)
Theorem X16_batch_counts_add_up (messages : list Message) (w : World) :
  messages <> [] -> Forall text_content messages ->
  exists r w',
    analyze_messages messages w = (Ok r, w') /\
    profiles w' = profiles w /\ clock w' = clock w /\
    ticks w' = analyzed_messages r + ticks w /\
    NoDup (map fst (by_sender r)) /\
    sum_list (map (fun e => count (snd e)) (by_sender r)) = analyzed_messages r /\
    length (emotional_arc r) = analyzed_messages r.
Proof.
  intros Hne Htyped.
  destruct (scan_messages_world messages Htyped [] [] w) as (new & Hscan & Hall).
  cbn [app] in Hscan.
  rewrite (analyze_messages_scan messages w _ _ _ Hne Hscan).
  eexists _, _. split; [reflexivity|].
  cbn [analyzed_messages by_sender emotional_arc batch_of].
  destruct (iter_tick (length new) w) as (H1 & H2 & H3).
  split; [exact H1|]. split; [exact H2|]. split; [exact H3|].
  destruct (fold_by_sender_invariant new [] (NoDup_nil_2)) as [Hnd Hsum].
  rewrite !map_map. cbn [fst snd count].
  split; [|split].
  - erewrite map_ext; [exact Hnd|]. intros e. reflexivity.
  - rewrite Hsum. cbn. lia.
  - apply length_map.
Qed.

Lemma X16_witness :
  three_messages <> [] /\ Forall text_content three_messages /\
  exists r w',
    analyze_messages three_messages world0 = (Ok r, w') /\
    profiles w' = profiles world0 /\ clock w' = clock world0 /\
    ticks w' = analyzed_messages r + ticks world0 /\
    NoDup (map fst (by_sender r)) /\
    sum_list (map (fun e => count (snd e)) (by_sender r)) = analyzed_messages r /\
    length (emotional_arc r) = analyzed_messages r.
Proof.
  assert (H1 : three_messages <> []) by discriminate.
  assert (H2 : Forall text_content three_messages) by (repeat constructor).
  split; [exact H1|]. split; [exact H2|].
  apply (X16_batch_counts_add_up three_messages world0 H1 H2).
Defined.



(** X18. A batch of one message reports the scores of that message as the
    averages, its dominant emotion as the dominant emotion of the batch, and
    its overall intensity as the average intensity of its sender. *)
Theorem X18_batch_of_one_message (m : Message) (s : string) (w : World) :
  msg_content m = Some (PyStr s) -> s <> ""%string -> fits_ssize s ->
  exists a r w',
    analyze (PyStr s) (Some (sender_of m)) w = (Ok a, w') /\
    analyze_messages [m] w = (Ok r, w') /\
    average_scores r = dimension_scores a /\
    dominant_overall r = dominant_emotion a /\
    by_sender r =
      [(sender_of m, {| count := 1; avg_intensity := overall_intensity a |})].
Proof.
  intros Hc Hs Hfit.
  set (a := record_of (clock w (ticks w)) s (Some (sender_of m))).
  set (ta := tag_analysis a (sender_of m) (default (PyStr "unknown") (msg_timestamp m))).
  assert (Hscan : scan_messages [m] [] [] w = (Ok ([ta], [(sender_of m, [ta])]), tick w)).
  { cbn [scan_messages]. rewrite Hc. cbn [default]. unfold id.
    rewrite (truthy_str s Hs). unfold bind.
    fold (sender_of m). rewrite (analyze_str s _ w Hs). reflexivity. }
  exists a, (batch_of 1 [ta] [(sender_of m, [ta])]), (tick w).
  split; [apply analyze_str; exact Hs|].
  split; [apply (analyze_messages_scan [m] w _ _ _ ltac:(discriminate) Hscan)|].
  assert (Hkeys : map fst (dimension_scores ta) = REGISTRY_KEYS) by apply adjusted_keys.
  assert (Havg : average_scores (batch_of 1 [ta] [(sender_of m, [ta])]) = dimension_scores a).
  { cbn [average_scores batch_of].
    rewrite (collect_scores_columns [ta] ltac:(discriminate))
      by (constructor; [exact Hkeys|constructor]).
    rewrite map_map. cbn [fst snd].
    change (dimension_scores a) with (dimension_scores ta).
    rewrite <- (means_of_one ta Hkeys) by (apply adjusted_rounded; exact Hfit).
    apply map_ext. intros k. reflexivity. }
  split; [exact Havg|]. split.
  - cbn [dominant_overall batch_of]. cbn [average_scores batch_of] in Havg. rewrite Havg.
    cbn [dimension_scores dominant_emotion a record_of].
    destruct (adjusted_of s) as [|x l] eqn:E; [|reflexivity].
    pose proof (adjusted_length s) as HL. rewrite E in HL. discriminate.
  - cbn [by_sender batch_of map fst snd length]. f_equal. f_equal. f_equal.
    cbn [map]. apply mean_of_one. apply overall_rounded. exact Hfit.
Qed.

Lemma X18_witness :
  msg_content (message "I am so happy!" "FORGE") = Some (PyStr "I am so happy!") /\
  "I am so happy!"%string <> ""%string /\ fits_ssize "I am so happy!" /\
  exists a r w',
    analyze (PyStr "I am so happy!") (Some "FORGE"%string) world0 = (Ok a, w') /\
    analyze_messages [message "I am so happy!" "FORGE"] world0 = (Ok r, w') /\
    average_scores r = dimension_scores a /\
    dominant_overall r = dominant_emotion a /\
    by_sender r =
      [("FORGE"%string, {| count := 1; avg_intensity := overall_intensity a |})].
Proof.
  split; [reflexivity|]. split; [discriminate|]. split; [reflexivity|].
  apply (X18_batch_of_one_message (message "I am so happy!" "FORGE") "I am so happy!" world0);
    [reflexivity | discriminate | reflexivity].
Defined.

(** X19. What [add_to_profile] returns is what [get_profile] finds afterwards,
    and [get_profile] changes nothing; the profiles of the other agents are
    found as before, [None] for an agent without one. *)
Theorem X19_get_profile_after_add (name : string) (analysis : Analysis) (w : World) :
  exists p w',
    add_to_profile name analysis w = (Ok p, w') /\
    get_profile name w' = (Ok (Some p), w') /\
    last (analyses p) = Some analysis /\
    (forall other, other <> name ->
       get_profile other w' = (Ok (profiles w !! other), w')).
Proof.
  rewrite add_to_profile_run.
  destruct (profiles w !! name) as [p|]; cbv zeta.
  - eexists _, _. split; [reflexivity|].
    unfold get_profile, bind, get_profiles, ret. cbn [profiles].
    rewrite lookup_insert_eq.
    split; [reflexivity|]. cbn [analyses]. split; [apply last_snoc|].
    intros other Hne. rewrite lookup_insert_ne by congruence. reflexivity.
  - eexists _, _. split; [reflexivity|].
    unfold get_profile, bind, get_profiles, ret. cbn [profiles].
    rewrite lookup_insert_eq.
    split; [reflexivity|]. cbn [analyses]. split; [reflexivity|].
    intros other Hne. rewrite lookup_insert_ne by congruence. reflexivity.
Qed.

(** X20. A profile grows by the analyses added to it, in the order of the
    calls; the agent name and the creation time are those of the first
    call. *)
Theorem X20_profile_accumulates (name : string) (l : list Analysis) (w : World) :
  l <> [] ->
  exists ps w' p,
    mapM (add_to_profile name) l w = (Ok ps, w') /\
    last ps = Some p /\ profiles w' !! name = Some p /\
    analyses p = default [] (analyses <$> profiles w !! name) ++ l /\
    agent_name p = default name (agent_name <$> profiles w !! name) /\
    created_at p = default (clock w (ticks w)) (created_at <$> profiles w !! name) /\
    (forall other, other <> name -> profiles w' !! other = profiles w !! other).
Proof.
  revert w. induction l as [|a l IH]; intros w Hne; [congruence|].
  cbn [mapM]. unfold bind at 1.
  pose proof (add_to_profile_run name a w) as Hrun.
  destruct (add_to_profile name a w) as [[p1|e] w1] eqn:Hadd.
  2:{ destruct (profiles w !! name); discriminate Hrun. }
  assert (H1 : profiles w1 !! name = Some p1 /\
               analyses p1 = default [] (analyses <$> profiles w !! name) ++ [a] /\
               agent_name p1 = default name (agent_name <$> profiles w !! name) /\
               created_at p1 = default (clock w (ticks w)) (created_at <$> profiles w !! name) /\
               (forall other, other <> name -> profiles w1 !! other = profiles w !! other)).
  { destruct (profiles w !! name) as [p|]; cbv zeta in Hrun; injection Hrun as -> ->;
      cbn [profiles analyses agent_name created_at fmap option_fmap option_map default];
      (split; [apply lookup_insert_eq|]); repeat (split; [reflexivity|]);
      intros other Ho; apply lookup_insert_ne; congruence. }
  destruct H1 as (Hp1 & Han & Hag & Hcr & Hoth).
  destruct l as [|b l].
  - cbn [mapM]. unfold bind, ret. exists [p1], w1, p1.
    split; [reflexivity|]. split; [reflexivity|]. auto.
  - destruct (IH w1 ltac:(discriminate)) as (ps & w' & p & Hrun' & Hlast & Hp & Han' & Hag' & Hcr' & Hoth').
    unfold bind at 1. rewrite Hrun'. unfold ret.
    exists (p1 :: ps), w', p. split; [reflexivity|].
    split.
    { destruct ps as [|q ps]; [discriminate Hlast | exact Hlast]. }
    split; [exact Hp|].
    rewrite Hp1 in Han', Hag', Hcr'. cbn [fmap option_fmap option_map default] in Han', Hag', Hcr'.
    split.
    { rewrite Han', Han. unfold id. rewrite <- app_assoc. reflexivity. }
    unfold id in *. split; [congruence|]. split; [congruence|].
    intros other Ho. rewrite (Hoth' other Ho). apply Hoth. exact Ho.
Qed.

Lemma X20_witness :
  [sample_analysis; sample_analysis] <> [] /\
  exists ps w' p,
    mapM (add_to_profile "FORGE") [sample_analysis; sample_analysis] world0 = (Ok ps, w') /\
    last ps = Some p /\ profiles w' !! "FORGE"%string = Some p /\
    analyses p =
      default [] (analyses <$> profiles world0 !! "FORGE"%string) ++
      [sample_analysis; sample_analysis] /\
    agent_name p =
      default "FORGE"%string (agent_name <$> profiles world0 !! "FORGE"%string) /\
    created_at p =
      default (clock world0 (ticks world0))
        (created_at <$> profiles world0 !! "FORGE"%string) /\
    (forall other, other <> "FORGE"%string ->
       profiles w' !! other = profiles world0 !! other).
Proof.
  split; [discriminate|].
  apply X20_profile_accumulates. discriminate.
Defined.

(** X21. Adding an analysis to a profile adds one snapshot at the end of its
    emotional arc, with the timestamp, the dominant emotion, the overall
    intensity and the scores of that analysis; the snapshots before it stay
    as they were. *)
Theorem X21_emotional_arc_grows (name : string) (analysis : Analysis) (w : World) :
  exists p w',
    add_to_profile name analysis w = (Ok p, w') /\
    get_emotional_arc p =
      match profiles w !! name with
      | Some before => get_emotional_arc before
      | None => []
      end ++
      [{| snap_timestamp := timestamp analysis;
          snap_dominant_emotion := dominant_emotion analysis;
          snap_overall_intensity := overall_intensity analysis;
          snap_dimension_scores := dimension_scores analysis |}].
Proof.
  rewrite add_to_profile_run.
  destruct (profiles w !! name) as [before|]; cbv zeta; eexists _, _;
    (split; [reflexivity|]); unfold get_emotional_arc; cbn [analyses].
  - rewrite map_app. reflexivity.
  - reflexivity.
Qed.

(** X22. [get_dominant_patterns] counts how often each emotion was the dominant
    one: an emotion that never was is not listed, the others come with their
    number of analyses, the most frequent first. *)
Theorem X22_dominant_patterns_count (p : EmotionalProfile) :
  NoDup (map fst (get_dominant_patterns p)) /\
  (forall e,
     dict_get e (get_dominant_patterns p) =
     match length (List.filter (fun a => String.eqb (dominant_emotion a) e) (analyses p)) with
     | O => None
     | S n => Some (S n)
     end) /\
  StronglySorted (fun x y => snd y <= snd x) (get_dominant_patterns p) /\
  sum_list (map snd (get_dominant_patterns p)) = length (analyses p).
Proof.
  apply dominant_patterns_spec.
Qed.



(** X24. The path from a text to the statistics of a new profile: the average
    profile holds the scores of the one analysis, the greatest first, and
    its dominant emotion is the only pattern, counted once. *)
Theorem X24_profile_of_one_analysis (s : string) (ctx : option string) (name : string)
    (w : World) :
  s <> ""%string -> fits_ssize s -> profiles w !! name = None ->
  exists a w1 p w2,
    analyze (PyStr s) ctx w = (Ok a, w1) /\
    add_to_profile name a w1 = (Ok p, w2) /\
    get_average_profile p w2 = (Ok (sorted_desc (dimension_scores a)), w2) /\
    get_dominant_patterns p = [(dominant_emotion a, 1)].
Proof.
  intros Hs Hfit Hnew.
  rewrite (analyze_str s ctx w Hs).
  set (a := record_of (clock w (ticks w)) s ctx).
  exists a, (tick w). rewrite add_to_profile_run.
  change (profiles (tick w)) with (profiles w). rewrite Hnew. cbv zeta.
  eexists _, _. split; [reflexivity|]. split; [reflexivity|].
  split; [|reflexivity].
  assert (Hkeys : map fst (dimension_scores a) = REGISTRY_KEYS) by apply adjusted_keys.
  rewrite average_profile_means.
  - cbn [analyses]. rewrite (means_of_one a Hkeys) by (apply adjusted_rounded; exact Hfit).
    reflexivity.
  - discriminate.
  - cbn [analyses]. constructor; [exact Hkeys|constructor].
Qed.

Lemma X24_witness :
  "happy"%string <> ""%string /\ fits_ssize "happy" /\
  profiles world0 !! "FORGE"%string = None /\
  exists a w1 p w2,
    analyze (PyStr "happy") None world0 = (Ok a, w1) /\
    add_to_profile "FORGE" a w1 = (Ok p, w2) /\
    get_average_profile p w2 = (Ok (sorted_desc (dimension_scores a)), w2) /\
    get_dominant_patterns p = [(dominant_emotion a, 1)].
Proof.
  split; [discriminate|]. split; [reflexivity|]. split; [reflexivity|].
  apply X24_profile_of_one_analysis; [discriminate | reflexivity | reflexivity].
Defined.

(** X25. [to_dict] never fails and changes nothing; its statistics agree on the
    number of analyses, and they are empty for a profile without one. *)
Theorem X25_to_dict_counts_agree (p : EmotionalProfile) (w : World) :
  exists d,
    to_dict p w = (Ok d, w) /\
    pd_total_analyses d = length (analyses p) /\
    length (pd_emotional_arc d) = pd_total_analyses d /\
    sum_list (map snd (pd_dominant_patterns d)) = pd_total_analyses d /\
    (analyses p = [] ->
     pd_dominant_patterns d = [] /\ pd_average_profile d = [] /\
     pd_emotional_arc d = []).
Proof.
  unfold to_dict, bind. rewrite get_average_profile_run. unfold ret.
  eexists. split; [reflexivity|].
  cbn [pd_total_analyses pd_emotional_arc pd_dominant_patterns pd_average_profile].
  split; [reflexivity|].
  split; [unfold get_emotional_arc; apply length_map|].
  split; [apply dominant_patterns_spec|].
  unfold get_dominant_patterns, get_emotional_arc. intros ->. auto.
Qed.

(** X26. [list_dimensions] names the ten dimensions that [analyze] scores, in
    the same order; [get_dimension_description] gives each its description,
    never the text [Unknown dimension], which is its answer for every other
    name. *)
Theorem X26_dimensions_are_described :
  map info_name list_dimensions = REGISTRY_KEYS /\
  Forall (fun i =>
            get_dimension_description (info_name i) = info_description i /\
            info_description i <> "Unknown dimension"%string)
    list_dimensions /\
  (forall dimension, dimension ∉ REGISTRY_KEYS ->
     get_dimension_description dimension = "Unknown dimension"%string).
Proof.
  split; [reflexivity|]. split.
  - unfold list_dimensions.
    repeat (constructor; [split; [reflexivity|discriminate]|]). constructor.
  - intros dimension Hnot. unfold get_dimension_description.
    rewrite dict_get_not_in_keys; [reflexivity|]. rewrite registry_names. exact Hnot.
Qed.
